(** * realmd: the Kerberos realm object (service/realm-kerberos.c)

    A shallow embedding of the join / leave / login-policy handlers, of the
    Kerberos ticket acquisition and of the realm's [configured] property, and
    the properties of them that the design document states.

    The daemon is modelled as a state-and-failure monad over a [World]: the
    daemon-wide lock, the temporary files, the pending asynchronous
    completions and the trace of calls made to the collaborators (D-Bus
    replies, diagnostics, back-end entry points). *)

From stdpp Require Import base strings list gmap.
From Stdlib Require Import ZArith Ascii String Lia.

Open Scope string_scope.
Open Scope list_scope.
Open Scope Z_scope.
Open Scope stdpp_scope.

(** ** GLib helpers used by the file *)

(** [g_ascii_tolower]: only the 26 ASCII capitals change. *)
Definition g_ascii_tolower (c : ascii) : ascii :=
  let n := nat_of_ascii c in
  if ((65 <=? n) && (n <=? 90))%nat then ascii_of_nat (n - 65 + 97) else c.

Definition guchar (c : ascii) : Z := Z.of_nat (nat_of_ascii c).

(** [g_ascii_strcasecmp]: the difference of the first pair of characters that
    differ after lowering, the terminating NUL counting as 0. *)
Fixpoint g_ascii_strcasecmp (s1 s2 : string) : Z :=
  match s1, s2 with
  | String a s1', String b s2' =>
      let c1 := guchar (g_ascii_tolower a) in
      let c2 := guchar (g_ascii_tolower b) in
      if negb (c1 =? c2) then c1 - c2 else g_ascii_strcasecmp s1' s2'
  | String a _, EmptyString => guchar a
  | EmptyString, String b _ => - guchar b
  | EmptyString, EmptyString => 0
  end.

(** [g_ascii_strncasecmp]: the same over at most [n] characters. *)
Fixpoint g_ascii_strncasecmp (s1 s2 : string) (n : nat) {struct n} : Z :=
  match n with
  | O => 0
  | S n' =>
      match s1, s2 with
      | String a s1', String b s2' =>
          let c1 := guchar (g_ascii_tolower a) in
          let c2 := guchar (g_ascii_tolower b) in
          if negb (c1 =? c2) then c1 - c2 else g_ascii_strncasecmp s1' s2' n'
      | String a _, EmptyString => guchar a
      | EmptyString, String b _ => - guchar b
      | EmptyString, EmptyString => 0
      end
  end.

Definition g_str_equal (a b : string) : bool := String.eqb a b.

(** [strchr (s, c) != NULL] *)
Fixpoint strchr (s : string) (c : ascii) : bool :=
  match s with
  | EmptyString => false
  | String a s' => Ascii.eqb a c || strchr s' c
  end.

(** [g_strsplit_set (string, delimiters, -1)]: a token ends at every single
    delimiter character, so two delimiters in a row enclose an empty token;
    the empty string alone splits into no token at all. *)
Fixpoint strsplit_from (delimiters : string) (s current : string) : list string :=
  match s with
  | EmptyString => [current]
  | String c s' =>
      if strchr delimiters c
      then current :: strsplit_from delimiters s' EmptyString
      else strsplit_from delimiters s' (current +:+ String c EmptyString)
  end.

Definition g_strsplit_set (s delimiters : string) : list string :=
  match s with
  | EmptyString => []
  | _ => strsplit_from delimiters s EmptyString
  end.

(** *** GError *)

Inductive GQuark : Type :=
| REALM_ERROR
| G_DBUS_ERROR
| G_IO_ERROR
| G_FILE_ERROR
| REALM_KRB5_ERROR.

Global Instance GQuark_eq_dec : EqDecision GQuark.
Proof. solve_decision. Defined.

(** The error codes are C enumerations of headers outside this file; the
    named members are the ones the file uses, [code_number] is any other
    integer code (a [krb5_error_code], a file error, a back-end's code). *)
Inductive ErrorCode : Type :=
| REALM_ERROR_INTERNAL
| REALM_ERROR_FAILED
| REALM_ERROR_BUSY
| REALM_ERROR_CANCELLED
| REALM_ERROR_AUTH_FAILED
| REALM_ERROR_NOT_CONFIGURED
| G_DBUS_ERROR_NOT_SUPPORTED
| G_DBUS_ERROR_INVALID_ARGS
| G_IO_ERROR_CANCELLED
| code_number (n : Z).

Global Instance ErrorCode_eq_dec : EqDecision ErrorCode.
Proof. solve_decision. Defined.

Record GError : Type := mkGError {
  domain : GQuark;
  code : ErrorCode;
  message : string
}.

Global Instance GError_eq_dec : EqDecision GError.
Proof. solve_decision. Defined.

(** [g_error_matches]: a NULL error matches nothing. *)
Definition g_error_matches (error : option GError) (d : GQuark) (c : ErrorCode) : bool :=
  match error with
  | None => false
  | Some e => bool_decide (domain e = d) && bool_decide (code e = c)
  end.

(** *** GVariant *)

Local Set Warnings "-register-all".

Inductive GVariant : Type :=
| GV_string (s : string)
| GV_boolean (b : bool)
| GV_bytes (bs : list ascii)
| GV_variant (v : GVariant)
| GV_tuple (vs : list GVariant).

(** An [a{sv}] dictionary: entries in order, keys may repeat. *)
Definition GVariantDict : Type := list (string * GVariant).

(** [g_variant_lookup_value]: the first entry under the key decides. *)
Fixpoint g_variant_lookup_value (dictionary : GVariantDict) (key : string) : option GVariant :=
  match dictionary with
  | [] => None
  | (k, v) :: rest =>
      if String.eqb k key then Some v else g_variant_lookup_value rest key
  end.

(** [g_variant_lookup (dictionary, key, "&s", &out)]: found only when the
    value under the key is a string. *)
Definition g_variant_lookup_s (dictionary : GVariantDict) (key : string) : option string :=
  match g_variant_lookup_value dictionary key with
  | Some (GV_string s) => Some s
  | _ => None
  end.

(** [g_variant_lookup (dictionary, key, "b", &out)]: found only when the
    value under the key is a boolean. *)
Definition g_variant_lookup_b (dictionary : GVariantDict) (key : string) : option bool :=
  match g_variant_lookup_value dictionary key with
  | Some (GV_boolean b) => Some b
  | _ => None
  end.

(** The C literal [", \t"]: comma, space, tab. *)
Definition comma_space_tab : string :=
  String "," (String " " (String (ascii_of_nat 9) EmptyString)).

(** ** Constants of headers that are not part of this file

    [realm-dbus-constants.h], [realm-kerberos.h] and [krb5.h] give these
    names their values; the model takes them as parameters. *)
Class Constants : Type := {
  REALM_DBUS_OPTION_ASSUME_PACKAGES : string;
  REALM_DBUS_OPTION_COMPUTER_OU : string;
  REALM_DBUS_LOGIN_POLICY_ANY : string;
  REALM_DBUS_LOGIN_POLICY_REALM : string;
  REALM_DBUS_LOGIN_POLICY_PERMITTED : string;
  REALM_DBUS_LOGIN_POLICY_DENY : string;
  REALM_DBUS_KERBEROS_MEMBERSHIP_INTERFACE : string;
  REALM_KERBEROS_ASSUME_PACKAGES : Z;
  KRB5KDC_ERR_PREAUTH_FAILED : Z;
  KRB5KDC_ERR_C_PRINCIPAL_UNKNOWN : Z;
  KRB5KDC_ERR_KEY_EXP : Z;
  KRB5KDC_ERR_CLIENT_REVOKED : Z;
  KRB5KDC_ERR_POLICY : Z;
  KRB5KDC_ERR_ETYPE_NOSUPP : Z
}.

(** ** Credentials (realm-credential.h) *)

(** Modelled from the spec: the credential type declared in
    realm-credential.h, which is not among the sources. The design document
    gives the four kinds (automatic, ccache, secret, password); a supported
    list ends at an entry of type 0, which is none of them. *)
Inductive RealmCredentialType : Type :=
| REALM_CREDENTIAL_AUTOMATIC
| REALM_CREDENTIAL_CCACHE
| REALM_CREDENTIAL_SECRET
| REALM_CREDENTIAL_PASSWORD.

Global Instance RealmCredentialType_eq_dec : EqDecision RealmCredentialType.
Proof. solve_decision. Defined.

Inductive RealmCredentialOwner : Type :=
| REALM_CREDENTIAL_OWNER_NONE
| REALM_CREDENTIAL_OWNER_ADMIN
| REALM_CREDENTIAL_OWNER_USER
| REALM_CREDENTIAL_OWNER_COMPUTER.

Inductive CredentialPayload : Type :=
| payload_none
| payload_ccache (file : string)
| payload_secret (value : list ascii)
| payload_userpass (name : string) (value : list ascii).

Record RealmCredential : Type := mkCredential {
  cred_type : RealmCredentialType;
  cred_owner : RealmCredentialOwner;
  cred_x : CredentialPayload
}.

(** ** The realm object and its back-end *)

Definition Invocation : Type := nat.
Definition RealmKerberosFlags : Type := Z.

Inductive RealmKerberosLoginPolicy : Type :=
| REALM_KERBEROS_POLICY_NOT_SET
| REALM_KERBEROS_ALLOW_ANY_LOGIN
| REALM_KERBEROS_ALLOW_REALM_LOGINS
| REALM_KERBEROS_ALLOW_PERMITTED_LOGINS
| REALM_KERBEROS_DENY_ANY_LOGIN.

(** What an asynchronous operation hands to its completion callback: the
    outcome a back-end's finish function will read, or the exit status of a
    command. *)
Inductive GAsyncResult : Type :=
| BackendResult (ok : bool) (error : option GError)
| CommandResult (status : Z) (error : option GError).

(** A non-NULL asynchronous entry point of a back-end. *)
Inductive AsyncEntry : Type :=
| async_entry (symbol : string).

Definition FinishFn : Type := GAsyncResult -> bool * option GError.

Record RealmKerberosMembershipIface : Type := mkIface {
  join_async : option AsyncEntry;
  join_finish : option FinishFn;
  join_creds_supported : option (list RealmCredential);
  leave_async : option AsyncEntry;
  leave_finish : option FinishFn;
  leave_creds_supported : option (list RealmCredential)
}.

Record RealmKerberosClass : Type := mkClass {
  logins_async : option AsyncEntry;
  logins_finish : option FinishFn
}.

(** The properties of the D-Bus skeletons that this file reads back. *)
Record RealmDbusRealm : Type := mkDbusRealm {
  realm_dbus_realm_get_name : option string;
  realm_dbus_realm_get_configured : option string
}.

Record RealmDbusKerberos : Type := mkDbusKerberos {
  realm_dbus_kerberos_get_realm_name : option string
}.

Record RealmKerberos : Type := mkRealmKerberos {
  REALM_KERBEROS_MEMBERSHIP_GET_IFACE : option RealmKerberosMembershipIface;
  REALM_KERBEROS_GET_CLASS : RealmKerberosClass;
  realm_iface : RealmDbusRealm;
  kerberos_iface : RealmDbusKerberos
}.

Record MethodClosure : Type := mkMethodClosure {
  closure_self : RealmKerberos;
  closure_invocation : Invocation;
  closure_cred : option RealmCredential
}.

Inductive GAsyncReadyCallback : Type :=
| CB_on_enroll_complete
| CB_on_unenroll_complete
| CB_on_logins_complete
| CB_on_name_caches_flush.

(** ** The world the daemon acts on *)

Inductive Reply : Type :=
| ReturnValue
| ReturnError (error : GError).

Inductive Event : Type :=
| EvDiagnosticsInfo (invocation : Invocation) (text : string)
| EvDiagnosticsError (invocation : Invocation) (error : option GError) (label : option string)
| EvReply (invocation : Invocation) (reply : Reply)
| EvLock (invocation : Invocation) (acquired : bool)
| EvUnlock (invocation : Invocation)
| EvCredentialParse (credential : GVariant)
| EvCredentialUnref (cred : RealmCredential)
| EvJoinAsync (entry : AsyncEntry) (cred : RealmCredential) (flags : RealmKerberosFlags)
    (options : GVariantDict) (invocation : Invocation)
| EvLeaveAsync (entry : AsyncEntry) (cred : RealmCredential) (flags : RealmKerberosFlags)
    (options : GVariantDict) (invocation : Invocation)
| EvLoginsAsync (entry : AsyncEntry) (invocation : Invocation)
    (policy : RealmKerberosLoginPolicy) (add remove : list string)
| EvJoinFinish
| EvLeaveFinish
| EvLoginsFinish
| EvCommandAsync (name : string) (invocation : Invocation)
| EvCommandFinish
| EvClosureFree (invocation : Invocation)
| EvCritical (assertion : string).

Record World : Type := mkWorld {
  current_invocation : option Invocation;
  cancelled : list Invocation;
  files : gset string;
  pending : list (GAsyncReadyCallback * MethodClosure);
  trace : list Event
}.

(** Collaborators whose code is outside this file, as the answers they give. *)
Record Env : Type := mkEnv {
  gethostname : option string;
  realm_daemon_is_install_mode : bool;
  credential_parse : GVariant -> GError + RealmCredential;
  realm_command_run_finish : GAsyncResult -> Z * option GError
}.

(** State passing; [None] is undefined behaviour (a NULL pointer followed). *)
Definition M (A : Type) : Type := World -> option (A * World).

Global Instance M_ret : MRet M := fun A a w => Some (a, w).
Global Instance M_bind : MBind M := fun A B f m w =>
  match m w with
  | Some (a, w') => f a w'
  | None => None
  end.

Definition crash {A : Type} : M A := fun _ => None.

Definition emit (e : Event) : M unit := fun w =>
  Some (tt, mkWorld (current_invocation w) (cancelled w) (files w) (pending w)
                    (trace w ++ [e])).

Definition set_lock (holder : option Invocation) : M unit := fun w =>
  Some (tt, mkWorld holder (cancelled w) (files w) (pending w) (trace w)).

Definition get_world : M World := fun w => Some (w, w).

Definition add_pending (callback : GAsyncReadyCallback) (closure : MethodClosure) : M unit :=
  fun w =>
    Some (tt, mkWorld (current_invocation w) (cancelled w) (files w)
                      (pending w ++ [(callback, closure)]) (trace w)).

Definition take_pending : M (option (GAsyncReadyCallback * MethodClosure)) := fun w =>
  match pending w with
  | [] => Some (None, w)
  | p :: rest =>
      Some (Some p, mkWorld (current_invocation w) (cancelled w) (files w) rest (trace w))
  end.

(** ** Collaborators called by the handlers *)

Definition realm_diagnostics_info (invocation : Invocation) (text : string) : M unit :=
  emit (EvDiagnosticsInfo invocation text).

Definition realm_diagnostics_error (invocation : Invocation) (error : option GError)
    (label : option string) : M unit :=
  emit (EvDiagnosticsError invocation error label).

Definition g_dbus_method_invocation_return_value (invocation : Invocation) : M unit :=
  emit (EvReply invocation ReturnValue).

Definition g_dbus_method_invocation_return_gerror (invocation : Invocation)
    (error : GError) : M unit :=
  emit (EvReply invocation (ReturnError error)).

Definition g_dbus_method_invocation_return_error (invocation : Invocation)
    (d : GQuark) (c : ErrorCode) (text : string) : M unit :=
  emit (EvReply invocation (ReturnError (mkGError d c text))).

(** [g_return_if_fail]: a critical warning, and the function returns. *)
Definition g_return_if_fail_failed (assertion : string) : M unit :=
  emit (EvCritical assertion).

(** Modelled from the spec: realm_invocation_lock_daemon of realm-invocation.c,
    which is not among the sources. The design document's exclusive-lock
    oracle: [try_lock() -> bool] on a single process-wide holder, taken only
    when nobody holds it. *)
Definition realm_invocation_lock_daemon (invocation : Invocation) : M bool :=
  w ← get_world;
  match current_invocation w with
  | Some _ => emit (EvLock invocation false);; mret false
  | None => set_lock (Some invocation);; emit (EvLock invocation true);; mret true
  end.

(** Modelled from the spec: realm_invocation_unlock_daemon of
    realm-invocation.c, which is not among the sources. The design document's
    [unlock()]: the holder is cleared. *)
Definition realm_invocation_unlock_daemon (invocation : Invocation) : M unit :=
  set_lock None;; emit (EvUnlock invocation).

(** [g_cancellable_set_error_if_cancelled] on the invocation's cancellable. *)
Definition g_cancellable_set_error_if_cancelled (invocation : Invocation) : M (option GError) :=
  w ← get_world;
  if bool_decide (invocation ∈ cancelled w)
  then mret (Some (mkGError G_IO_ERROR G_IO_ERROR_CANCELLED "Operation was cancelled"))
  else mret None.

Definition realm_credential_unref (cred : RealmCredential) : M unit :=
  emit (EvCredentialUnref cred).

Definition method_closure_new (self : RealmKerberos) (invocation : Invocation) : MethodClosure :=
  mkMethodClosure self invocation None.

Definition method_closure_free (closure : MethodClosure) : M unit :=
  match closure_cred closure with
  | Some cred => realm_credential_unref cred
  | None => mret tt
  end;;
  emit (EvClosureFree (closure_invocation closure)).

Definition realm_command_run_known_async (name : string) (invocation : Invocation)
    (callback : GAsyncReadyCallback) (user_data : MethodClosure) : M unit :=
  emit (EvCommandAsync name invocation);;
  add_pending callback user_data.

(** ** service/realm-kerberos.c *)

Definition domain_is_realm_or_dbus (error : GError) : bool :=
  bool_decide (domain error = REALM_ERROR) || bool_decide (domain error = G_DBUS_ERROR).

Definition enroll_method_reply (invocation : Invocation) (error : option GError) : M unit :=
  match error with
  | None =>
      realm_diagnostics_info invocation "Successfully enrolled machine in realm";;
      g_dbus_method_invocation_return_value invocation
  | Some e =>
      if domain_is_realm_or_dbus e then
        realm_diagnostics_error invocation error None;;
        g_dbus_method_invocation_return_gerror invocation e
      else if g_error_matches error G_IO_ERROR G_IO_ERROR_CANCELLED then
        realm_diagnostics_error invocation error (Some "Cancelled");;
        g_dbus_method_invocation_return_error invocation REALM_ERROR REALM_ERROR_CANCELLED
          "Operation was cancelled."
      else
        realm_diagnostics_error invocation error (Some "Failed to enroll machine in realm");;
        g_dbus_method_invocation_return_error invocation REALM_ERROR REALM_ERROR_FAILED
          "Failed to enroll machine in realm. See diagnostics."
  end;;
  realm_invocation_unlock_daemon invocation.

Definition unenroll_method_reply (invocation : Invocation) (error : option GError) : M unit :=
  match error with
  | None =>
      realm_diagnostics_info invocation "Successfully unenrolled machine from realm";;
      g_dbus_method_invocation_return_value invocation
  | Some e =>
      if domain_is_realm_or_dbus e then
        realm_diagnostics_error invocation error None;;
        g_dbus_method_invocation_return_gerror invocation e
      else if g_error_matches error G_IO_ERROR G_IO_ERROR_CANCELLED then
        realm_diagnostics_error invocation error (Some "Cancelled");;
        g_dbus_method_invocation_return_error invocation REALM_ERROR REALM_ERROR_CANCELLED
          "Operation was cancelled."
      else
        realm_diagnostics_error invocation error (Some "Failed to unenroll machine from realm");;
        g_dbus_method_invocation_return_error invocation REALM_ERROR REALM_ERROR_FAILED
          "Failed to unenroll machine from domain. See diagnostics."
  end;;
  realm_invocation_unlock_daemon invocation.

Section Handlers.

Context `{Constants}.
Variable env : Env.

Definition on_name_caches_flush (result : GAsyncResult) (closure : MethodClosure) : M unit :=
  emit EvCommandFinish;;
  let '(status, error) := realm_command_run_finish env result in
  (if negb (status =? 0)
   then realm_diagnostics_error (closure_invocation closure) error
          (Some "Flushing name caches failed")
   else mret tt);;
  enroll_method_reply (closure_invocation closure) None;;
  method_closure_free closure.

Definition on_enroll_complete (result : GAsyncResult) (closure : MethodClosure) : M unit :=
  match REALM_KERBEROS_MEMBERSHIP_GET_IFACE (closure_self closure) with
  | None => crash
  | Some iface =>
      match join_finish iface with
      | None => g_return_if_fail_failed "iface->join_finish != NULL"
      | Some finish =>
          cancel_error ← g_cancellable_set_error_if_cancelled (closure_invocation closure);
          error ← match cancel_error with
                  | Some e => mret (Some e)
                  | None => emit EvJoinFinish;; mret (snd (finish result))
                  end;
          match error with
          | Some e =>
              enroll_method_reply (closure_invocation closure) (Some e);;
              method_closure_free closure
          | None =>
              (* Only flush the name caches if not in install mode *)
              if negb (realm_daemon_is_install_mode env) then
                realm_command_run_known_async "name-caches-flush"
                  (closure_invocation closure) CB_on_name_caches_flush closure
              else
                enroll_method_reply (closure_invocation closure) None
          end
      end
  end.

Definition on_unenroll_complete (result : GAsyncResult) (closure : MethodClosure) : M unit :=
  match REALM_KERBEROS_MEMBERSHIP_GET_IFACE (closure_self closure) with
  | None => crash
  | Some iface =>
      match leave_finish iface with
      | None => g_return_if_fail_failed "iface->leave_finish != NULL"
      | Some finish =>
          cancel_error ← g_cancellable_set_error_if_cancelled (closure_invocation closure);
          error ← match cancel_error with
                  | Some e => mret (Some e)
                  | None => emit EvLeaveFinish;; mret (snd (finish result))
                  end;
          unenroll_method_reply (closure_invocation closure) error;;
          method_closure_free closure
      end
  end.

Definition credential_type_found (cred : RealmCredential) : list RealmCredential -> bool :=
  fix scan (supported : list RealmCredential) : bool :=
    match supported with
    | [] => false
    | entry :: rest =>
        if bool_decide (cred_type cred = cred_type entry) then true else scan rest
    end.

Definition credential_not_supported_message (type : RealmCredentialType) (join : bool) : string :=
  match type with
  | REALM_CREDENTIAL_AUTOMATIC =>
      if join then "Joining this realm without credentials is not supported"
      else "Leaving this realm without credentials is not supported"
  | REALM_CREDENTIAL_CCACHE =>
      if join then "Joining this realm using a credential cache is not supported"
      else "Leaving this realm using a credential cache is not supported"
  | REALM_CREDENTIAL_SECRET =>
      if join then "Joining this realm using a secret is not supported"
      else "Unenrolling this realm using a secret is not supported"
  | REALM_CREDENTIAL_PASSWORD =>
      if join then "Enrolling this realm using a password is not supported"
      else "Unenrolling this realm using a password is not supported"
  end.

(** Returns [None] for TRUE, and for FALSE the error it sets. *)
Definition is_credential_supported (iface : RealmKerberosMembershipIface)
    (cred : RealmCredential) (join : bool) : option GError :=
  let supported := if join then join_creds_supported iface else leave_creds_supported iface in
  let found := match supported with
               | Some entries => credential_type_found cred entries
               | None => false
               end in
  if found then None
  else Some (mkGError G_DBUS_ERROR G_DBUS_ERROR_NOT_SUPPORTED
               (credential_not_supported_message (cred_type cred) join)).

Definition realm_credential_parse (credential : GVariant) : M (GError + RealmCredential) :=
  emit (EvCredentialParse credential);;
  mret (credential_parse env credential).

Definition is_null {A : Type} (p : option A) : bool :=
  match p with
  | None => true
  | Some _ => false
  end.

Definition join_or_leave (self : RealmKerberos) (credential : GVariant)
    (flags : RealmKerberosFlags) (options : GVariantDict) (invocation : Invocation)
    (join : bool) : M unit :=
  let iface := REALM_KERBEROS_MEMBERSHIP_GET_IFACE self in
  if (join && match iface with Some i => is_null (join_async i) | None => false end)
     || (negb join && match iface with Some i => is_null (leave_async i) | None => false end)
  then
    g_dbus_method_invocation_return_error invocation G_DBUS_ERROR G_DBUS_ERROR_NOT_SUPPORTED
      (if join then "Joining this realm is not supported"
       else "Leaving this realm is not supported")
  else
    parsed ← realm_credential_parse credential;
    match parsed with
    | inl error => g_dbus_method_invocation_return_gerror invocation error
    | inr cred =>
        match iface with
        | None => crash
        | Some i =>
            match is_credential_supported i cred join with
            | Some error =>
                g_dbus_method_invocation_return_gerror invocation error;;
                realm_credential_unref cred
            | None =>
                locked ← realm_invocation_lock_daemon invocation;
                if negb locked then
                  g_dbus_method_invocation_return_error invocation REALM_ERROR REALM_ERROR_BUSY
                    "Already running another action"
                else
                  let method := mkMethodClosure self invocation (Some cred) in
                  if join then
                    match join_finish i, join_async i with
                    | None, _ => g_return_if_fail_failed "iface->join_finish != NULL"
                    | Some _, None => crash
                    | Some _, Some entry =>
                        emit (EvJoinAsync entry cred flags options invocation);;
                        add_pending CB_on_enroll_complete method
                    end
                  else
                    match leave_finish i, leave_async i with
                    | None, _ => g_return_if_fail_failed "iface->leave_finish != NULL"
                    | Some _, None => crash
                    | Some _, Some entry =>
                        emit (EvLeaveAsync entry cred flags options invocation);;
                        add_pending CB_on_unenroll_complete method
                    end
            end
        end
    end.

(** The host-name test of [handle_join]; [None] is [gethostname] failing. *)
Definition hostname_not_set (ret : option string) : bool :=
  match ret with
  | None => true
  | Some hostname =>
      (g_ascii_strcasecmp hostname "localhost" =? 0)
      || (g_ascii_strncasecmp hostname "localhost." 10 =? 0)
  end.

Definition handle_join (self : RealmKerberos) (invocation : Invocation)
    (credentials : GVariant) (options : GVariantDict) : M bool :=
  (* Check the host name *)
  if hostname_not_set (gethostname env) then
    g_dbus_method_invocation_return_error invocation REALM_ERROR REALM_ERROR_FAILED
      "This computer's host name is not set correctly.";;
    mret true
  else
    let flags :=
      match g_variant_lookup_b options REALM_DBUS_OPTION_ASSUME_PACKAGES with
      | Some true => Z.lor 0 REALM_KERBEROS_ASSUME_PACKAGES
      | _ => 0
      end in
    join_or_leave self credentials flags options invocation true;;
    mret true.

Definition handle_leave (self : RealmKerberos) (invocation : Invocation)
    (credentials : GVariant) (options : GVariantDict) : M bool :=
  match g_variant_lookup_s options REALM_DBUS_OPTION_COMPUTER_OU with
  | Some _ =>
      g_dbus_method_invocation_return_error invocation G_DBUS_ERROR G_DBUS_ERROR_INVALID_ARGS
        "The computer-ou argument is not supported when leaving a domain.";;
      mret true
  | None =>
      join_or_leave self credentials 0 options invocation false;;
      mret true
  end.

(** [g_variant_new ("(ss@v)", "automatic", "none", <"">)] *)
Definition deconfigure_credential : GVariant :=
  GV_tuple [GV_string "automatic"; GV_string "none"; GV_variant (GV_string "")].

Definition handle_deconfigure (self : RealmKerberos) (invocation : Invocation)
    (options : GVariantDict) : M bool :=
  join_or_leave self deconfigure_credential 0 options invocation false;;
  mret true.

Definition on_logins_complete (result : GAsyncResult) (closure : MethodClosure) : M unit :=
  match logins_finish (REALM_KERBEROS_GET_CLASS (closure_self closure)) with
  | None => g_return_if_fail_failed "klass->logins_finish != NULL"
  | Some finish =>
      emit EvLoginsFinish;;
      let '(ok, error) := finish result in
      (if ok then
         realm_diagnostics_info (closure_invocation closure)
           "Successfully changed permitted logins for realm";;
         g_dbus_method_invocation_return_value (closure_invocation closure)
       else
         match error with
         | Some e =>
             if domain_is_realm_or_dbus e then
               realm_diagnostics_error (closure_invocation closure) error None;;
               g_dbus_method_invocation_return_gerror (closure_invocation closure) e
             else
               realm_diagnostics_error (closure_invocation closure) error
                 (Some "Failed to change permitted logins");;
               g_dbus_method_invocation_return_error (closure_invocation closure)
                 REALM_ERROR REALM_ERROR_INTERNAL
                 "Failed to change permitted logins. See diagnostics."
         | None =>
             realm_diagnostics_error (closure_invocation closure) error
               (Some "Failed to change permitted logins");;
             g_dbus_method_invocation_return_error (closure_invocation closure)
               REALM_ERROR REALM_ERROR_INTERNAL
               "Failed to change permitted logins. See diagnostics."
         end);;
      realm_invocation_unlock_daemon (closure_invocation closure);;
      method_closure_free closure
  end.

(** The loop of [handle_change_login_policy] over the split tokens: [None]
    is the early return on a token that is none of the four names. *)
Fixpoint scan_policies (policies : list string) (policy : RealmKerberosLoginPolicy)
    (policies_set : Z) : option (RealmKerberosLoginPolicy * Z) :=
  match policies with
  | [] => Some (policy, policies_set)
  | token :: rest =>
      if g_str_equal token REALM_DBUS_LOGIN_POLICY_ANY then
        scan_policies rest REALM_KERBEROS_ALLOW_ANY_LOGIN (policies_set + 1)
      else if g_str_equal token REALM_DBUS_LOGIN_POLICY_REALM then
        scan_policies rest REALM_KERBEROS_ALLOW_REALM_LOGINS (policies_set + 1)
      else if g_str_equal token REALM_DBUS_LOGIN_POLICY_PERMITTED then
        scan_policies rest REALM_KERBEROS_ALLOW_PERMITTED_LOGINS (policies_set + 1)
      else if g_str_equal token REALM_DBUS_LOGIN_POLICY_DENY then
        scan_policies rest REALM_KERBEROS_DENY_ANY_LOGIN (policies_set + 1)
      else None
  end.

Definition handle_change_login_policy (self : RealmKerberos) (invocation : Invocation)
    (login_policy : string) (add remove : list string) (options : GVariantDict) : M bool :=
  let policies := g_strsplit_set login_policy comma_space_tab in
  match scan_policies policies REALM_KERBEROS_POLICY_NOT_SET 0 with
  | None =>
      g_dbus_method_invocation_return_error invocation G_DBUS_ERROR G_DBUS_ERROR_INVALID_ARGS
        "Invalid or unknown login_policy argument";;
      mret true
  | Some (policy, policies_set) =>
      if 1 <? policies_set then
        g_dbus_method_invocation_return_error invocation G_DBUS_ERROR G_DBUS_ERROR_INVALID_ARGS
          "Conflicting flags in login_policy argument";;
        mret true
      else
        locked ← realm_invocation_lock_daemon invocation;
        if negb locked then
          g_dbus_method_invocation_return_error invocation REALM_ERROR REALM_ERROR_BUSY
            "Already running another action";;
          mret true
        else
          match logins_async (REALM_KERBEROS_GET_CLASS self) with
          | None =>
              g_return_if_fail_failed "klass->logins_async != NULL";;
              mret false
          | Some entry =>
              emit (EvLoginsAsync entry invocation policy add remove);;
              add_pending CB_on_logins_complete (method_closure_new self invocation);;
              mret true
          end
  end.

(** The main loop delivering one completion: the oldest pending callback is
    called with the result of its operation. *)
Definition complete (result : GAsyncResult) : M unit :=
  next ← take_pending;
  match next with
  | None => mret tt
  | Some (CB_on_enroll_complete, closure) => on_enroll_complete result closure
  | Some (CB_on_unenroll_complete, closure) => on_unenroll_complete result closure
  | Some (CB_on_logins_complete, closure) => on_logins_complete result closure
  | Some (CB_on_name_caches_flush, closure) => on_name_caches_flush result closure
  end.

(** *** The configured property *)

Definition realm_dbus_realm_set_configured (iface : RealmDbusRealm) (value : string)
    : RealmDbusRealm :=
  mkDbusRealm (realm_dbus_realm_get_name iface) (Some value).

Definition realm_kerberos_is_configured (self : RealmKerberos) : bool :=
  match realm_dbus_realm_get_configured (realm_iface self) with
  | Some configured => negb (g_str_equal configured "")
  | None => false
  end.

Definition realm_kerberos_set_configured (self : RealmKerberos) (configured : bool)
    : RealmKerberos :=
  mkRealmKerberos
    (REALM_KERBEROS_MEMBERSHIP_GET_IFACE self)
    (REALM_KERBEROS_GET_CLASS self)
    (realm_dbus_realm_set_configured (realm_iface self)
       (if configured then REALM_DBUS_KERBEROS_MEMBERSHIP_INTERFACE else ""))
    (kerberos_iface self).

Definition realm_kerberos_get_realm_name (self : RealmKerberos) : option string :=
  realm_dbus_kerberos_get_realm_name (kerberos_iface self).

End Handlers.

(** ** Kerberos ticket acquisition *)

Record KinitClosure : Type := mkKinitClosure {
  kinit_invocation : Invocation;
  kinit_principal : string;
  kinit_password : list ascii;
  kinit_enctypes : option (list Z);
  kinit_n_enctypes : Z;
  kinit_ccache_file : option string
}.

Inductive SourceTag : Type :=
| TAG_realm_kerberos_kinit_ccache_async
| TAG_other.

Global Instance SourceTag_eq_dec : EqDecision SourceTag.
Proof. solve_decision. Defined.

(** A [GSimpleAsyncResult] carrying a [KinitClosure] as its operation result. *)
Record GSimpleAsyncResult : Type := mkSimpleAsyncResult {
  source_tag : SourceTag;
  simple_failed : bool;
  simple_error : option GError;
  op_res : KinitClosure
}.

(** What [g_mkstemp_full] did with the template: the name it left in the
    buffer, and [errno] when no file was created. *)
Inductive MkstempResult : Type :=
| mkstemp_created (filename : string)
| mkstemp_failed (filename : string) (errno : Z).

(** The Kerberos library and the C library, as the answers they give. *)
Record Krb5 : Type := mkKrb5 {
  krb5_init_context : Z;
  krb5_parse_name : string -> Z;
  krb5_cc_resolve : string -> Z;
  krb5_get_init_creds_password : string -> list ascii -> option (list Z) -> Z;
  krb5_get_error_message : Z -> string;
  g_get_tmp_dir : string;
  g_mkstemp_full : string -> MkstempResult;
  g_file_error_from_errno : Z -> Z;
  g_strerror : Z -> string
}.

Definition set_files (fs : gset string) : M unit := fun w =>
  Some (tt, mkWorld (current_invocation w) (cancelled w) fs (pending w) (trace w)).

Definition create_file (filename : string) : M unit :=
  w ← get_world; set_files ({[filename]} ∪ files w).

Definition g_unlink (filename : string) : M unit :=
  w ← get_world; set_files (files w ∖ {[filename]}).

(** Modelled from the spec: realm_credential_ccache_delete_and_free of
    realm-credential.c, which is not among the sources. The design document:
    the ticket-cache file is deleted by its creator unless ownership was
    handed over; a NULL name names no file. *)
Definition realm_credential_ccache_delete_and_free (ccache_file : option string) : M unit :=
  match ccache_file with
  | Some filename => g_unlink filename
  | None => mret tt
  end.

Definition kinit_closure_free (kinit : KinitClosure) : M unit :=
  realm_credential_ccache_delete_and_free (kinit_ccache_file kinit).

Definition set_krb5_error (krb5 : Krb5) (c : Z) (text : string) : GError :=
  mkGError REALM_KRB5_ERROR (code_number c)
    (text +:+ ": " +:+ krb5_get_error_message krb5 c).

Definition with_error (async : GSimpleAsyncResult) (error : GError) : GSimpleAsyncResult :=
  mkSimpleAsyncResult (source_tag async) true (Some error) (op_res async).

Definition with_ccache_file (async : GSimpleAsyncResult) (file : option string)
    : GSimpleAsyncResult :=
  let kinit := op_res async in
  mkSimpleAsyncResult (source_tag async) (simple_failed async) (simple_error async)
    (mkKinitClosure (kinit_invocation kinit) (kinit_principal kinit) (kinit_password kinit)
       (kinit_enctypes kinit) (kinit_n_enctypes kinit) file).

Definition g_build_filename (dir name : string) : string := dir +:+ "/" +:+ name.

Definition kinit_ccache_thread_func (krb5 : Krb5) (async : GSimpleAsyncResult)
    : M GSimpleAsyncResult :=
  let kinit := op_res async in
  let c := krb5_init_context krb5 in
  if negb (c =? 0) then
    mret (with_error async (set_krb5_error krb5 c "Couldn't initialize kerberos"))
  else
  let c := krb5_parse_name krb5 (kinit_principal kinit) in
  if negb (c =? 0) then
    mret (with_error async
            (set_krb5_error krb5 c ("Couldn't parse principal: " +:+ kinit_principal kinit)))
  else
  let template := g_build_filename (g_get_tmp_dir krb5) "realmd-krb5-cache.XXXXXX" in
  match g_mkstemp_full krb5 template with
  | mkstemp_failed name_left errno =>
      mret (with_error (with_ccache_file async (Some name_left))
              (mkGError G_FILE_ERROR (code_number (g_file_error_from_errno krb5 errno))
                 ("Couldn't create credential cache file: " +:+ g_strerror krb5 errno)))
  | mkstemp_created filename =>
      create_file filename;;
      let async := with_ccache_file async (Some filename) in
      let c := krb5_cc_resolve krb5 filename in
      if negb (c =? 0) then
        mret (with_error async
                (set_krb5_error krb5 c ("Couldn't resolve credential cache: " +:+ filename)))
      else
      let c := krb5_get_init_creds_password krb5 (kinit_principal kinit)
                 (kinit_password kinit) (kinit_enctypes kinit) in
      if negb (c =? 0) then
        mret (with_error async
                (set_krb5_error krb5 c ("Couldn't authenticate as: " +:+ kinit_principal kinit)))
      else
        mret async
  end.

Section Kinit.

Context `{Constants}.

(** The counting loop [while (enctypes[n_enctypes]) n_enctypes++] from
    [n_enctypes] on: the array ends with a zero, for which the end of the
    list stands when no entry is zero. *)
Fixpoint count_enctypes (enctypes : list Z) (n_enctypes : Z) : Z :=
  match enctypes with
  | [] => n_enctypes
  | enctype :: rest =>
      if enctype =? 0 then n_enctypes else count_enctypes rest (n_enctypes + 1)
  end.

(** [g_memdup] of the first [n] entries: nothing to copy gives [NULL]. *)
Definition g_memdup (mem : list Z) (n : Z) : option (list Z) :=
  if n =? 0 then None else Some (take (Z.to_nat n) mem).

Definition realm_kerberos_kinit_ccache_async (self : RealmKerberos) (name : string)
    (password : list ascii) (enctypes : option (list Z)) (invocation : Invocation)
    : GSimpleAsyncResult :=
  let n_enctypes := match enctypes with
                    | Some array => count_enctypes array 0
                    | None => 0
                    end in
  let copied := match enctypes with
                | Some array => g_memdup array n_enctypes
                | None => None
                end in
  let principal :=
    if negb (strchr name "@") then
      name +:+ "@" +:+ default "(null)" (realm_kerberos_get_realm_name self)
    else name in
  mkSimpleAsyncResult TAG_realm_kerberos_kinit_ccache_async false None
    (mkKinitClosure invocation principal password copied n_enctypes None).

(** [g_simple_async_result_propagate_error]: the stored error is moved out,
    the failed mark stays. *)
Definition g_simple_async_result_propagate_error (async : GSimpleAsyncResult)
    : bool * option GError * GSimpleAsyncResult :=
  if simple_failed async then
    (true, simple_error async,
     mkSimpleAsyncResult (source_tag async) true None (op_res async))
  else (false, None, async).

Definition is_auth_failure (krb5_error : option GError) : bool :=
  g_error_matches krb5_error REALM_KRB5_ERROR (code_number KRB5KDC_ERR_PREAUTH_FAILED)
  || g_error_matches krb5_error REALM_KRB5_ERROR (code_number KRB5KDC_ERR_C_PRINCIPAL_UNKNOWN)
  || g_error_matches krb5_error REALM_KRB5_ERROR (code_number KRB5KDC_ERR_KEY_EXP)
  || g_error_matches krb5_error REALM_KRB5_ERROR (code_number KRB5KDC_ERR_CLIENT_REVOKED)
  || g_error_matches krb5_error REALM_KRB5_ERROR (code_number KRB5KDC_ERR_POLICY)
  || g_error_matches krb5_error REALM_KRB5_ERROR (code_number KRB5KDC_ERR_ETYPE_NOSUPP).

(** Returns the file name (or NULL), the error it sets (or none), and the
    async result as the call leaves it. The caller's error location is taken
    to be clear, as the second [g_return_val_if_fail] demands. *)
Definition realm_kerberos_kinit_ccache_finish (result : GSimpleAsyncResult)
    : M (option string * option GError * GSimpleAsyncResult) :=
  if negb (bool_decide (source_tag result = TAG_realm_kerberos_kinit_ccache_async)) then
    g_return_if_fail_failed "g_simple_async_result_is_valid (result, ...)";;
    mret (None, None, result)
  else
    let kinit := op_res result in
    let '(failed, krb5_error, async) := g_simple_async_result_propagate_error result in
    if failed then
      realm_diagnostics_error (kinit_invocation kinit) krb5_error None;;
      if is_auth_failure krb5_error then
        mret (None,
              Some (mkGError REALM_ERROR REALM_ERROR_AUTH_FAILED
                      ("Couldn't authenticate as: " +:+ kinit_principal kinit +:+ ": "
                       +:+ match krb5_error with
                           | Some e => message e
                           | None => ""
                           end)),
              async)
      else
        mret (None, krb5_error, async)
    else
      let filename := kinit_ccache_file kinit in
      mret (filename, None, with_ccache_file async None).

(** The last reference to the async result going away: its operation result
    is destroyed with [kinit_closure_free]. *)
Definition g_simple_async_result_finalize (async : GSimpleAsyncResult) : M unit :=
  kinit_closure_free (op_res async).

End Kinit.

(** ** Vocabulary of the statements *)

(** The world after more calls were recorded. *)
Definition add_events (w : World) (es : list Event) : World :=
  mkWorld (current_invocation w) (cancelled w) (files w) (pending w) (trace w ++ es).

Definition with_lock (w : World) (holder : option Invocation) : World :=
  mkWorld holder (cancelled w) (files w) (pending w) (trace w).

Definition with_pending (w : World) (p : list (GAsyncReadyCallback * MethodClosure)) : World :=
  mkWorld (current_invocation w) (cancelled w) (files w) p (trace w).

Definition is_reply (e : Event) : bool :=
  match e with
  | EvReply _ _ => true
  | _ => false
  end.

Definition is_unlock (e : Event) : bool :=
  match e with
  | EvUnlock _ => true
  | _ => false
  end.

Definition is_lock_attempt (e : Event) : bool :=
  match e with
  | EvLock _ _ => true
  | _ => false
  end.

Definition quiet (e : Event) : bool := negb (is_reply e) && negb (is_unlock e).

(** One reply to [invocation], the unlock as the very next call, and neither
    a reply nor an unlock anywhere else. *)
Definition replied_then_unlocked (invocation : Invocation) (es : list Event) : Prop :=
  exists pre reply post,
    es = pre ++ [EvReply invocation reply; EvUnlock invocation] ++ post
    /\ forallb quiet pre = true
    /\ forallb quiet post = true.

(** The calls [method_closure_free] makes. *)
Definition closure_free_events (closure : MethodClosure) : list Event :=
  match closure_cred closure with
  | Some cred => [EvCredentialUnref cred; EvClosureFree (closure_invocation closure)]
  | None => [EvClosureFree (closure_invocation closure)]
  end.

Definition cancelled_error : GError :=
  mkGError G_IO_ERROR G_IO_ERROR_CANCELLED "Operation was cancelled".

(** The credential types a back-end declares for a direction. *)
Definition declared_types (iface : RealmKerberosMembershipIface) (join : bool)
    : list RealmCredentialType :=
  match (if join then join_creds_supported iface else leave_creds_supported iface) with
  | Some entries => map cred_type entries
  | None => []
  end.

(** The D-Bus methods of a realm object, as the signals connect them. *)
Inductive Operation : Type :=
| OpJoin (credentials : GVariant) (options : GVariantDict)
| OpLeave (credentials : GVariant) (options : GVariantDict)
| OpDeconfigure (options : GVariantDict)
| OpChangeLoginPolicy (login_policy : string) (add remove : list string)
    (options : GVariantDict).

Section Runs.

Context `{Constants}.
Variable env : Env.

Definition handle (op : Operation) (self : RealmKerberos) (invocation : Invocation) : M bool :=
  match op with
  | OpJoin credentials options => handle_join env self invocation credentials options
  | OpLeave credentials options => handle_leave env self invocation credentials options
  | OpDeconfigure options => handle_deconfigure env self invocation options
  | OpChangeLoginPolicy login_policy add remove options =>
      handle_change_login_policy self invocation login_policy add remove options
  end.

(** The main loop delivering the completions in turn. *)
Fixpoint drain (results : list GAsyncResult) : M unit :=
  match results with
  | [] => mret tt
  | r :: rest => complete env r;; drain rest
  end.

(** A method call followed to its end. *)
Definition run (op : Operation) (self : RealmKerberos) (invocation : Invocation)
    (results : list GAsyncResult) : M unit :=
  handle op self invocation;; drain results.

(** The policy the scan of [handle_change_login_policy] keeps for a name. *)
Definition policy_of_token (token : string) : RealmKerberosLoginPolicy :=
  if g_str_equal token REALM_DBUS_LOGIN_POLICY_ANY then REALM_KERBEROS_ALLOW_ANY_LOGIN
  else if g_str_equal token REALM_DBUS_LOGIN_POLICY_REALM then REALM_KERBEROS_ALLOW_REALM_LOGINS
  else if g_str_equal token REALM_DBUS_LOGIN_POLICY_PERMITTED
       then REALM_KERBEROS_ALLOW_PERMITTED_LOGINS
  else if g_str_equal token REALM_DBUS_LOGIN_POLICY_DENY then REALM_KERBEROS_DENY_ANY_LOGIN
  else REALM_KERBEROS_POLICY_NOT_SET.

Definition is_policy_name (token : string) : Prop :=
  token = REALM_DBUS_LOGIN_POLICY_ANY \/ token = REALM_DBUS_LOGIN_POLICY_REALM
  \/ token = REALM_DBUS_LOGIN_POLICY_PERMITTED \/ token = REALM_DBUS_LOGIN_POLICY_DENY.

Definition auth_failure_code (c : ErrorCode) : Prop :=
  c = code_number KRB5KDC_ERR_PREAUTH_FAILED
  \/ c = code_number KRB5KDC_ERR_C_PRINCIPAL_UNKNOWN
  \/ c = code_number KRB5KDC_ERR_KEY_EXP
  \/ c = code_number KRB5KDC_ERR_CLIENT_REVOKED
  \/ c = code_number KRB5KDC_ERR_POLICY
  \/ c = code_number KRB5KDC_ERR_ETYPE_NOSUPP.

End Runs.

(** The back-end can finish in the given direction what it can start. *)
Definition direction_ready (iface : RealmKerberosMembershipIface) (join : bool) : Prop :=
  if join then is_Some (join_async iface) -> is_Some (join_finish iface)
  else is_Some (leave_async iface) -> is_Some (leave_finish iface).

(** The realm object has the entry points the call uses: for Join, Leave and
    Deconfigure the membership interface, whose function that starts the
    direction, when it is there, comes with the one that finishes it; for
    ChangeLoginPolicy the two logins entry points of the class. *)
Definition entry_points_ready (op : Operation) (self : RealmKerberos) : Prop :=
  match op with
  | OpJoin _ _ =>
      exists iface,
        REALM_KERBEROS_MEMBERSHIP_GET_IFACE self = Some iface /\ direction_ready iface true
  | OpLeave _ _ | OpDeconfigure _ =>
      exists iface,
        REALM_KERBEROS_MEMBERSHIP_GET_IFACE self = Some iface /\ direction_ready iface false
  | OpChangeLoginPolicy _ _ _ _ =>
      is_Some (logins_async (REALM_KERBEROS_GET_CLASS self))
      /\ is_Some (logins_finish (REALM_KERBEROS_GET_CLASS self))
  end.

(** The membership interface is there for the calls that go through it. *)
Definition interface_present (op : Operation) (self : RealmKerberos) : Prop :=
  match op with
  | OpChangeLoginPolicy _ _ _ _ => True
  | _ => is_Some (REALM_KERBEROS_MEMBERSHIP_GET_IFACE self)
  end.

(** A completion callback that has replied: the lock is free and the calls
    it made have the reply followed by the unlock. *)
Definition replied (invocation : Invocation) (w : World) (outcome : option (unit * World))
    : Prop :=
  exists calls,
    outcome = Some (tt, with_lock (add_events w calls) None)
    /\ replied_then_unlocked invocation calls.

Definition is_lock_taken (e : Event) : bool :=
  match e with
  | EvLock _ true => true
  | _ => false
  end.

(** The completion callback each method hands to its back-end. *)
Definition callback_of (op : Operation) : GAsyncReadyCallback :=
  match op with
  | OpJoin _ _ => CB_on_enroll_complete
  | OpLeave _ _ => CB_on_unenroll_complete
  | OpDeconfigure _ => CB_on_unenroll_complete
  | OpChangeLoginPolicy _ _ _ _ => CB_on_logins_complete
  end.

(** A handler that returned without taking the lock. *)
Definition not_locked {A : Type} (w : World) (outcome : option (A * World)) : Prop :=
  exists a calls,
    outcome = Some (a, add_events w calls)
    /\ existsb is_lock_taken calls = false.

(** The finish function a completion callback will call. *)
Definition finish_of (self : RealmKerberos) (callback : GAsyncReadyCallback)
    : option FinishFn :=
  match callback with
  | CB_on_enroll_complete =>
      match REALM_KERBEROS_MEMBERSHIP_GET_IFACE self with
      | Some iface => join_finish iface
      | None => None
      end
  | CB_on_unenroll_complete =>
      match REALM_KERBEROS_MEMBERSHIP_GET_IFACE self with
      | Some iface => leave_finish iface
      | None => None
      end
  | CB_on_logins_complete => logins_finish (REALM_KERBEROS_GET_CLASS self)
  | CB_on_name_caches_flush => None
  end.

(** A handler that took the lock and handed [callback] to the back-end. *)
Definition dispatched {A : Type} (self : RealmKerberos) (invocation : Invocation)
    (callback : GAsyncReadyCallback) (w : World) (outcome : option (A * World)) : Prop :=
  exists a calls closure,
    outcome =
    Some (a, with_pending (with_lock (add_events w calls) (Some invocation))
               (pending w ++ [(callback, closure)]))
    /\ existsb is_lock_taken calls = true
    /\ forallb quiet calls = true
    /\ closure_invocation closure = invocation
    /\ closure_self closure = self
    /\ is_Some (finish_of self callback).

(** A caller that consumes the result of one acquisition twice: what the
    first and the second call of the finish function hand back. *)
Definition acquire_and_finish_twice `{Constants} (krb5 : Krb5) (async : GSimpleAsyncResult)
    : M ((option string * option GError) * (option string * option GError)) :=
  async1 ← kinit_ccache_thread_func krb5 async;
  first ← realm_kerberos_kinit_ccache_finish async1;
  second ← realm_kerberos_kinit_ccache_finish (snd first);
  mret (fst first, fst second).

(** ** Concrete inputs *)

(** Modelled from the spec: the values of the constants of
    realm-dbus-constants.h and realm-kerberos.h, whose current versions are
    not among the sources. The design document names the login policies
    any, realm, permitted and deny and the option computer-ou; the Kerberos
    codes are those of krb5.h. *)
Definition realmd_constants : Constants := {|
  REALM_DBUS_OPTION_ASSUME_PACKAGES := "assume-packages";
  REALM_DBUS_OPTION_COMPUTER_OU := "computer-ou";
  REALM_DBUS_LOGIN_POLICY_ANY := "any";
  REALM_DBUS_LOGIN_POLICY_REALM := "realm";
  REALM_DBUS_LOGIN_POLICY_PERMITTED := "permitted";
  REALM_DBUS_LOGIN_POLICY_DENY := "deny";
  REALM_DBUS_KERBEROS_MEMBERSHIP_INTERFACE := "org.freedesktop.realmd.KerberosMembership";
  REALM_KERBEROS_ASSUME_PACKAGES := 2;
  KRB5KDC_ERR_PREAUTH_FAILED := -1765328360;
  KRB5KDC_ERR_C_PRINCIPAL_UNKNOWN := -1765328378;
  KRB5KDC_ERR_KEY_EXP := -1765328361;
  KRB5KDC_ERR_CLIENT_REVOKED := -1765328366;
  KRB5KDC_ERR_POLICY := -1765328372;
  KRB5KDC_ERR_ETYPE_NOSUPP := -1765328370
|}.

Definition read_result : FinishFn := fun result =>
  match result with
  | BackendResult ok error => (ok, error)
  | CommandResult _ error => (false, error)
  end.

(** A back-end that joins with a password or a ticket cache and leaves with
    a ticket cache or no credential at all. *)
Definition sample_iface : RealmKerberosMembershipIface := {|
  join_async := Some (async_entry "sample_join_async");
  join_finish := Some read_result;
  join_creds_supported :=
    Some [mkCredential REALM_CREDENTIAL_PASSWORD REALM_CREDENTIAL_OWNER_ADMIN payload_none;
          mkCredential REALM_CREDENTIAL_CCACHE REALM_CREDENTIAL_OWNER_ADMIN payload_none];
  leave_async := Some (async_entry "sample_leave_async");
  leave_finish := Some read_result;
  leave_creds_supported :=
    Some [mkCredential REALM_CREDENTIAL_CCACHE REALM_CREDENTIAL_OWNER_ADMIN payload_none;
          mkCredential REALM_CREDENTIAL_AUTOMATIC REALM_CREDENTIAL_OWNER_NONE payload_none]
|}.

Definition sample_realm : RealmKerberos := {|
  REALM_KERBEROS_MEMBERSHIP_GET_IFACE := Some sample_iface;
  REALM_KERBEROS_GET_CLASS :=
    mkClass (Some (async_entry "sample_logins_async")) (Some read_result);
  realm_iface := mkDbusRealm (Some "example.com") None;
  kerberos_iface := mkDbusKerberos (Some "EXAMPLE.COM")
|}.

Definition password_wire : GVariant :=
  GV_tuple [GV_string "password"; GV_string "administrator";
            GV_tuple [GV_string "admin"; GV_bytes (list_ascii_of_string "secret")]].

Definition secret_wire : GVariant :=
  GV_tuple [GV_string "secret"; GV_string "administrator";
            GV_variant (GV_bytes (list_ascii_of_string "otp"))].

(** A parser for the three wire values used below; anything else is refused. *)
Definition sample_parse (credential : GVariant) : GError + RealmCredential :=
  match credential with
  | GV_tuple [GV_string "password"; GV_string _; GV_tuple [GV_string name; GV_bytes value]] =>
      inr (mkCredential REALM_CREDENTIAL_PASSWORD REALM_CREDENTIAL_OWNER_ADMIN
             (payload_userpass name value))
  | GV_tuple [GV_string "secret"; GV_string _; GV_variant (GV_bytes value)] =>
      inr (mkCredential REALM_CREDENTIAL_SECRET REALM_CREDENTIAL_OWNER_ADMIN
             (payload_secret value))
  | GV_tuple [GV_string "automatic"; GV_string _; _] =>
      inr (mkCredential REALM_CREDENTIAL_AUTOMATIC REALM_CREDENTIAL_OWNER_NONE payload_none)
  | _ => inl (mkGError G_DBUS_ERROR G_DBUS_ERROR_INVALID_ARGS "Invalid credential")
  end.

Definition sample_env : Env := {|
  gethostname := Some "host.example.com";
  realm_daemon_is_install_mode := false;
  credential_parse := sample_parse;
  realm_command_run_finish := fun result =>
    match result with
    | CommandResult status error => (status, error)
    | BackendResult _ error => (0, error)
    end
|}.

Definition idle_world : World := mkWorld None [] ∅ [] [].

(** A realm object of the base class: no membership interface, and a class
    that sets no logins entry points. *)
Definition plain_realm : RealmKerberos := {|
  REALM_KERBEROS_MEMBERSHIP_GET_IFACE := None;
  REALM_KERBEROS_GET_CLASS := mkClass None None;
  realm_iface := mkDbusRealm (Some "example.com") None;
  kerberos_iface := mkDbusKerberos (Some "EXAMPLE.COM")
|}.

(** A realm whose back-end can start a join and has no function to finish
    it. *)
Definition unfinished_realm : RealmKerberos := {|
  REALM_KERBEROS_MEMBERSHIP_GET_IFACE :=
    Some {| join_async := join_async sample_iface;
            join_finish := None;
            join_creds_supported := join_creds_supported sample_iface;
            leave_async := leave_async sample_iface;
            leave_finish := leave_finish sample_iface;
            leave_creds_supported := leave_creds_supported sample_iface |};
  REALM_KERBEROS_GET_CLASS := REALM_KERBEROS_GET_CLASS sample_realm;
  realm_iface := realm_iface sample_realm;
  kerberos_iface := kerberos_iface sample_realm
|}.

Definition sample_krb5 (init_creds : Z) : Krb5 := {|
  krb5_init_context := 0;
  krb5_parse_name := fun _ => 0;
  krb5_cc_resolve := fun _ => 0;
  krb5_get_init_creds_password := fun _ _ _ => init_creds;
  krb5_get_error_message := fun _ => "error";
  g_get_tmp_dir := "/tmp";
  g_mkstemp_full := fun _ => mkstemp_created "/tmp/realmd-krb5-cache.A1B2C3";
  g_file_error_from_errno := fun errno => errno;
  g_strerror := fun _ => "error"
|}.

(** The acquisition of a ticket for admin with a password. *)
Definition admin_acquisition : GSimpleAsyncResult :=
  realm_kerberos_kinit_ccache_async sample_realm "admin" (list_ascii_of_string "secret")
    None 7%nat.

(** ** More of service/realm-kerberos.c *)

Definition realm_kerberos_login_policy_to_string `{Constants}
    (value : RealmKerberosLoginPolicy) : string :=
  match value with
  | REALM_KERBEROS_ALLOW_ANY_LOGIN => REALM_DBUS_LOGIN_POLICY_ANY
  | REALM_KERBEROS_ALLOW_REALM_LOGINS => REALM_DBUS_LOGIN_POLICY_REALM
  | REALM_KERBEROS_ALLOW_PERMITTED_LOGINS => REALM_DBUS_LOGIN_POLICY_PERMITTED
  | REALM_KERBEROS_DENY_ANY_LOGIN => REALM_DBUS_LOGIN_POLICY_DENY
  | REALM_KERBEROS_POLICY_NOT_SET => EmptyString
  end.

(** *** Further vocabulary *)

(** A string with its ASCII capitals lowered. *)
Fixpoint ascii_lower (s : string) : string :=
  match s with
  | EmptyString => EmptyString
  | String c rest => String (g_ascii_tolower c) (ascii_lower rest)
  end.

(** A C string: no NUL inside. *)
Fixpoint no_nul (s : string) : bool :=
  match s with
  | EmptyString => true
  | String c rest => negb (Ascii.eqb c zero) && no_nul rest
  end.

(** No character of [s] is among [delimiters]. *)
Fixpoint free_of (delimiters : string) (s : string) : bool :=
  match s with
  | EmptyString => true
  | String c rest => negb (strchr delimiters c) && free_of delimiters rest
  end.

Definition policy_name_ok (name : string) : Prop :=
  name <> EmptyString /\ free_of comma_space_tab name = true.

(** The four policy names are usable in a policy argument and tell the
    policies apart. *)
Definition policy_names_distinct `{Constants} : Prop :=
  policy_name_ok REALM_DBUS_LOGIN_POLICY_ANY
  /\ policy_name_ok REALM_DBUS_LOGIN_POLICY_REALM
  /\ policy_name_ok REALM_DBUS_LOGIN_POLICY_PERMITTED
  /\ policy_name_ok REALM_DBUS_LOGIN_POLICY_DENY
  /\ NoDup [REALM_DBUS_LOGIN_POLICY_ANY; REALM_DBUS_LOGIN_POLICY_REALM;
            REALM_DBUS_LOGIN_POLICY_PERMITTED; REALM_DBUS_LOGIN_POLICY_DENY].

(** An error a caller may see: of the realmd or of the D-Bus domain. *)
Definition public_error (e : GError) : Prop :=
  domain e = REALM_ERROR \/ domain e = G_DBUS_ERROR.

Definition is_dispatch (e : Event) : bool :=
  match e with
  | EvJoinAsync _ _ _ _ _ => true
  | EvLeaveAsync _ _ _ _ _ => true
  | EvLoginsAsync _ _ _ _ _ => true
  | EvCommandAsync _ _ => true
  | _ => false
  end.

(** The calls of a handler that refuses a request: one reply, and nothing
    that touches the lock or the back-end. *)
Definition refusal (calls : list Event) : bool :=
  (List.length (List.filter is_reply calls) =? 1)%nat
  && forallb (fun e => negb (is_unlock e) && negb (is_lock_taken e) && negb (is_dispatch e))
       calls.

(** An acquisition from the worker to the release of the async result:
    worker, finish function, then the last reference dropped. *)
Definition acquire_finish_release `{Constants} (krb5 : Krb5) (async : GSimpleAsyncResult)
    : M (option string * option GError) :=
  async1 ← kinit_ccache_thread_func krb5 async;
  finished ← realm_kerberos_kinit_ccache_finish async1;
  g_simple_async_result_finalize (snd finished);;
  mret (fst finished).

(** *** The prompter handed to the Kerberos library *)

(** [krb5_data]: the length is the room in the buffer on the way in and the
    size of the answer on the way out. *)
Record krb5_data : Type := mk_krb5_data {
  krb5_data_length : Z;
  krb5_data_data : list ascii
}.

Record krb5_prompt : Type := mk_krb5_prompt {
  prompt : string;
  hidden : bool;
  reply : krb5_data
}.

(** [memcpy (dest, src, n)] into a buffer of known size; [None] is a write
    past its end. *)
Definition memcpy (dest src : list ascii) (n : nat) : option (list ascii) :=
  if (n <=? List.length dest)%nat then Some (take n src ++ drop n dest) else None.

Section Prompter.

(** The two constants of krb5.h the prompter uses. *)
Variables KRB5_PROMPT_TYPE_PASSWORD KRB5_LIBOS_CANTREADPWD : Z.

(** The loop of [bytes_prompter] from index [i] on, [remaining] prompts to
    go; [None] is an index past the end of an array or a copy past the end
    of a buffer. *)
Fixpoint bytes_prompter_loop (password : list ascii) (prompt_types : list Z)
    (remaining i : nat) (prompts : list krb5_prompt) : option (Z * list krb5_prompt) :=
  match remaining with
  | O => Some (0, prompts)
  | S rest =>
      match prompt_types !! i, prompts !! i with
      | Some type, Some p =>
          if type =? KRB5_PROMPT_TYPE_PASSWORD then
            if Z.of_nat (List.length password) >? krb5_data_length (reply p) then
              Some (KRB5_LIBOS_CANTREADPWD, prompts)
            else
              match memcpy (krb5_data_data (reply p)) password (List.length password) with
              | Some copied =>
                  bytes_prompter_loop password prompt_types rest (S i)
                    (<[i := mk_krb5_prompt (prompt p) (hidden p)
                              (mk_krb5_data (Z.of_nat (List.length password)) copied)]>
                       prompts)
              | None => None
              end
          else
            bytes_prompter_loop password prompt_types rest (S i)
              (<[i := mk_krb5_prompt (prompt p) (hidden p)
                        (mk_krb5_data 0 (krb5_data_data (reply p)))]> prompts)
      | _, _ => None
      end
  end.

(** [prompt_types] is what [krb5_get_prompt_types] returns, [data] the
    bytes of the password. *)
Definition bytes_prompter (prompt_types : option (list Z)) (data : list ascii)
    (num_prompts : Z) (prompts : list krb5_prompt) : option (Z * list krb5_prompt) :=
  match prompt_types with
  | None => Some (KRB5_LIBOS_CANTREADPWD, prompts)
  | Some types => bytes_prompter_loop data types (Z.to_nat num_prompts) 0 prompts
  end.

(** What a prompt of type [type] that was [p] has become as [p'] once the
    prompter has answered it. *)
Definition prompt_answered (password : list ascii) (type : Z) (p p' : krb5_prompt) : Prop :=
  prompt p' = prompt p
  /\ hidden p' = hidden p
  /\ List.length (krb5_data_data (reply p')) = List.length (krb5_data_data (reply p))
  /\ if type =? KRB5_PROMPT_TYPE_PASSWORD
     then krb5_data_length (reply p') = Z.of_nat (List.length password)
          /\ take (List.length password) (krb5_data_data (reply p')) = password
          /\ drop (List.length password) (krb5_data_data (reply p')) =
             drop (List.length password) (krb5_data_data (reply p))
     else krb5_data_length (reply p') = 0
          /\ krb5_data_data (reply p') = krb5_data_data (reply p).

End Prompter.

(** The stated room of a reply buffer is really there. *)
Definition room_honest (p : krb5_prompt) : Prop :=
  krb5_data_length (reply p) <= Z.of_nat (List.length (krb5_data_data (reply p))).

(** Two prompts as the library hands them over: the password, then a token
    code, with buffers of eight and four bytes. *)
Definition sample_prompts : list krb5_prompt :=
  [mk_krb5_prompt "Password for admin@EXAMPLE.COM" true
     (mk_krb5_data 8 (repeat zero 8));
   mk_krb5_prompt "Token code" false (mk_krb5_data 4 (repeat zero 4))].

(** *** Discovery data and its reference counts *)

(** A discovery table is known by its address. *)
Definition GHashTable : Type := positive.

(** The live tables with their reference counts, and the private part of
    one realm object as far as [realm_kerberos_set_discovery] touches it. *)
Record Heap : Type := mkHeap {
  ref_counts : gmap GHashTable nat;
  pv_discovery : option GHashTable;
  notified : list string
}.

Definition ref_count (h : Heap) (table : GHashTable) : nat :=
  default 0%nat (ref_counts h !! table).

(** [g_hash_table_ref]; [None] is a table already destroyed. *)
Definition g_hash_table_ref (table : GHashTable) (h : Heap) : option Heap :=
  match ref_counts h !! table with
  | Some (S n) => Some (mkHeap (<[table := S (S n)]> (ref_counts h)) (pv_discovery h)
                                (notified h))
  | _ => None
  end.

(** [g_hash_table_unref]: the last reference destroys the table. *)
Definition g_hash_table_unref (table : GHashTable) (h : Heap) : option Heap :=
  match ref_counts h !! table with
  | Some (S (S n)) => Some (mkHeap (<[table := S n]> (ref_counts h)) (pv_discovery h)
                                    (notified h))
  | Some 1%nat => Some (mkHeap (delete table (ref_counts h)) (pv_discovery h) (notified h))
  | _ => None
  end.

Definition g_object_notify (property : string) (h : Heap) : option Heap :=
  Some (mkHeap (ref_counts h) (pv_discovery h) (notified h ++ [property])).

Definition realm_kerberos_set_discovery (discovery : option GHashTable) (h : Heap)
    : option Heap :=
  h1 ← match discovery with
       | Some table => g_hash_table_ref table h
       | None => Some h
       end;
  h2 ← match pv_discovery h1 with
       | Some old => g_hash_table_unref old h1
       | None => Some h1
       end;
  g_object_notify "discovery" (mkHeap (ref_counts h2) discovery (notified h2)).

Definition realm_kerberos_get_discovery (h : Heap) : option GHashTable :=
  pv_discovery h.

(** One when [holder] is [table], zero otherwise. *)
Definition holds (holder : option GHashTable) (table : GHashTable) : Z :=
  if bool_decide (holder = Some table) then 1 else 0.

(** The realm's own reference: the table it points to is alive. *)
Definition discovery_owned (h : Heap) : Prop :=
  forall table, pv_discovery h = Some table -> (0 < ref_count h table)%nat.

(** ** unnamed/part_001: realm-samba-provider.c *)

(** What [realm_samba_provider_discover_finish] hands back: the priority,
    the realms array and the error. *)
Record Discovered : Type := mkDiscovered {
  priority : Z;
  realms : option (list (string * string));
  discover_error : option GError
}.

Section SambaProvider.

(** A constant of realm-dbus-constants.h whose current version is not among
    the sources. *)
Variable REALM_DBUS_KERBEROS_REALM_INTERFACE : string.

(** [ad] is what [realm_ad_discover_finish] gave: the error it set when it
    returned no name, or the name and the discovery table, whose reference
    now belongs to this function. [realm] is the object path of the realm
    [realm_provider_lookup_or_register_realm] found or made, [is_default]
    the answer of [realm_provider_is_default]. *)
Definition realm_samba_provider_discover_finish
    (ad : option GError + string * GHashTable) (realm : string -> option string)
    (is_default : bool) (realms_before : option (list (string * string))) (h : Heap)
    : option (Discovered * Heap) :=
  match ad with
  | inl error => Some (mkDiscovered 0 realms_before error, h)
  | inr (name, discovery) =>
      match realm name with
      | None =>
          h1 ← g_hash_table_unref discovery h;
          Some (mkDiscovered 0 realms_before None, h1)
      | Some object_path =>
          h1 ← realm_kerberos_set_discovery (Some discovery) h;
          h2 ← g_hash_table_unref discovery h1;
          Some (mkDiscovered (if is_default then 100 else 50)
                  (Some [(object_path, REALM_DBUS_KERBEROS_REALM_INTERFACE)]) None, h2)
      end
  end.

End SambaProvider.

(** ** More of service/realm-kerberos.c: the details *)

(** The loop of [realm_kerberos_set_details] over its variable arguments,
    a [NULL] among them being [None]. The outer [None] is an argument read
    past the last one given; the inner [None] is the return of
    [g_return_if_fail (value != NULL)], with no details set. *)
Fixpoint set_details_loop (va : list (option string)) (tuples : list GVariant)
    : option (option (list GVariant)) :=
  match va with
  | [] => None
  | None :: _ => Some (Some tuples)
  | Some name :: [] => None
  | Some name :: None :: _ => Some None
  | Some name :: Some value :: rest =>
      set_details_loop rest (tuples ++ [GV_tuple [GV_string name; GV_string value]])
  end.

(** The array handed to [realm_dbus_realm_set_details], as the list of its
    elements. *)
Definition realm_kerberos_set_details (va : list (option string))
    : option (option (list GVariant)) :=
  set_details_loop va [].

(** The arguments a caller writes for the given pairs, before the
    terminating [NULL]. *)
Definition details_arguments (pairs : list (string * string)) : list (option string) :=
  flat_map (fun pair => [Some (fst pair); Some (snd pair)]) pairs.

(** ** unnamed/part_001: ic-debug.c *)

Record DebugState : Type := mkDebugState {
  current_flags : Z;
  initialized_flags : Z;
  logged : list string
}.

Section IcDebug.

(** The flag values of ic-debug.h and GLib's parser of debug strings. *)
Variables IC_DEBUG_PROCESS IC_DEBUG_DIAGNOSTICS : Z.
Variable g_parse_debug_string : string -> list (string * Z) -> Z.

(** [keys] without its terminating entry. *)
Definition keys : list (string * Z) :=
  [("process", IC_DEBUG_PROCESS); ("diagnostics", IC_DEBUG_DIAGNOSTICS)].

(** The counting loop of [ic_debug_set_flags]: the keys before the first
    whose value is zero, the terminator at the latest. *)
Fixpoint counted_keys (entries : list (string * Z)) : list (string * Z) :=
  match entries with
  | [] => []
  | entry :: rest => if snd entry =? 0 then [] else entry :: counted_keys rest
  end.

Definition debug_set_flags (new_flags : Z) (s : DebugState) : DebugState :=
  mkDebugState (Z.lor (current_flags s) new_flags) (initialized_flags s) (logged s).

Definition ic_debug_set_flags (flags_string : option string) (s : DebugState) : DebugState :=
  match flags_string with
  | Some flags => debug_set_flags (g_parse_debug_string flags (counted_keys keys)) s
  | None => s
  end.

(** [ic_debug] is the value of the environment variable IC_DEBUG. *)
Definition ic_debug_init (ic_debug : option string) (s : DebugState) : DebugState :=
  if initialized_flags s =? 0 then
    let s1 := ic_debug_set_flags ic_debug s in
    mkDebugState (current_flags s1) 1 (logged s1)
  else s.

Definition ic_debug_flag_is_set (flag : Z) (s : DebugState) : bool :=
  negb (Z.land flag (current_flags s) =? 0).

Definition ic_debug_message (flag : Z) (message : string) (s : DebugState) : DebugState :=
  if negb (Z.land flag (current_flags s) =? 0)
  then mkDebugState (current_flags s) (initialized_flags s) (logged s ++ [message])
  else s.

(** The calls a program makes into this file. *)
Inductive DebugCall : Type :=
| CallInit (ic_debug : option string)
| CallSetFlags (flags_string : option string)
| CallMessage (flag : Z) (message : string).

Definition debug_call (call : DebugCall) (s : DebugState) : DebugState :=
  match call with
  | CallInit ic_debug => ic_debug_init ic_debug s
  | CallSetFlags flags_string => ic_debug_set_flags flags_string s
  | CallMessage flag message => ic_debug_message flag message s
  end.

Definition debug_calls (calls : list DebugCall) (s : DebugState) : DebugState :=
  fold_left (fun state call => debug_call call state) calls s.

End IcDebug.

(** * Properties *)

(** ** Running the model *)

Ltac unfold_m :=
  cbv beta iota zeta delta
    [mbind M_bind mret M_ret emit set_lock get_world add_pending take_pending crash
     set_files create_file g_unlink
     realm_diagnostics_info realm_diagnostics_error
     g_dbus_method_invocation_return_value g_dbus_method_invocation_return_gerror
     g_dbus_method_invocation_return_error g_return_if_fail_failed
     realm_invocation_lock_daemon realm_invocation_unlock_daemon
     g_cancellable_set_error_if_cancelled realm_credential_unref
     method_closure_new realm_command_run_known_async
     realm_credential_parse
     domain_is_realm_or_dbus g_error_matches
     add_events with_lock with_pending].

(** Equality tests between distinct or equal constructors. *)
Ltac decide_tests :=
  repeat first
    [ rewrite bool_decide_eq_true_2 by congruence
    | rewrite bool_decide_eq_false_2 by congruence ].

Ltac flat_trace := rewrite <- ?app_assoc; cbn [app].

(** Reduce, keeping the reply functions folded for their lemmas. *)
Ltac step_m :=
  unfold_m; cbn -[enroll_method_reply unenroll_method_reply method_closure_free].

Lemma credential_type_found_elem (cred : RealmCredential) (entries : list RealmCredential) :
  credential_type_found cred entries = true <-> cred_type cred ∈ map cred_type entries.
Proof.
  induction entries as [|entry rest IH]; cbn.
  - split; [discriminate | intros Hin; inversion Hin].
  - case_bool_decide as Heq.
    + split; [intros _; rewrite Heq; left | reflexivity].
    + rewrite IH. split.
      * intros Hin. right. exact Hin.
      * intros Hin. apply elem_of_cons in Hin as [Hin | Hin]; [contradiction | exact Hin].
Qed.

Lemma is_credential_supported_declared (iface : RealmKerberosMembershipIface)
    (cred : RealmCredential) (join : bool) :
  is_credential_supported iface cred join = None
  <-> cred_type cred ∈ declared_types iface join.
Proof.
  unfold is_credential_supported, declared_types.
  destruct (if join then join_creds_supported iface else leave_creds_supported iface)
    as [entries|].
  - rewrite <- credential_type_found_elem.
    destruct (credential_type_found cred entries); split; congruence.
  - split; [discriminate | intros Hin; inversion Hin].
Qed.

Lemma is_credential_supported_error (iface : RealmKerberosMembershipIface)
    (cred : RealmCredential) (join : bool) :
  cred_type cred ∉ declared_types iface join ->
  is_credential_supported iface cred join =
  Some (mkGError G_DBUS_ERROR G_DBUS_ERROR_NOT_SUPPORTED
          (credential_not_supported_message (cred_type cred) join)).
Proof.
  intros Hnot. pose proof (is_credential_supported_declared iface cred join) as Hiff.
  unfold is_credential_supported in *.
  destruct (match (if join then join_creds_supported iface else leave_creds_supported iface)
            with Some entries => credential_type_found cred entries | None => false end).
  - exfalso. apply Hnot, Hiff. reflexivity.
  - reflexivity.
Qed.

Lemma credential_not_supported_message_inj (t1 t2 : RealmCredentialType) (j1 j2 : bool) :
  credential_not_supported_message t1 j1 = credential_not_supported_message t2 j2 ->
  t1 = t2 /\ j1 = j2.
Proof.
  destruct t1, j1, t2, j2; cbn; intros Heq;
    first [ split; reflexivity | discriminate Heq ].
Qed.

(** The reply of [join_or_leave] when the support check is the first to fail. *)
Lemma join_or_leave_unsupported (env : Env) (self : RealmKerberos) (credential : GVariant)
    (flags : RealmKerberosFlags) (options : GVariantDict) (invocation : Invocation)
    (join : bool) (iface : RealmKerberosMembershipIface) (cred : RealmCredential)
    (error : GError) (w : World) :
  REALM_KERBEROS_MEMBERSHIP_GET_IFACE self = Some iface ->
  is_Some (if join then join_async iface else leave_async iface) ->
  credential_parse env credential = inr cred ->
  is_credential_supported iface cred join = Some error ->
  join_or_leave env self credential flags options invocation join w =
  Some (tt, add_events w [EvCredentialParse credential;
                          EvReply invocation (ReturnError error);
                          EvCredentialUnref cred]).
Proof.
  intros Hiface [entry Hentry] Hparse Hsupp.
  unfold join_or_leave. rewrite Hiface.
  destruct join; rewrite Hentry; cbn [is_null andb orb negb];
    unfold_m; cbn; rewrite Hparse, Hsupp; cbn; flat_trace; reflexivity.
Qed.

(** C1: the support check passes exactly for the credential types the
    back-end declares for the direction (join_creds_supported or
    leave_creds_supported); when it fails, join_or_leave replies NotSupported
    with a message that is different for each of the four credential types
    and each of the two directions. *)
Theorem C1_credential_support_check :
  forall (iface : RealmKerberosMembershipIface) (cred : RealmCredential) (join : bool),
    (is_credential_supported iface cred join = None
     <-> cred_type cred ∈ declared_types iface join)
    /\ (cred_type cred ∉ declared_types iface join ->
        let error := mkGError G_DBUS_ERROR G_DBUS_ERROR_NOT_SUPPORTED
                       (credential_not_supported_message (cred_type cred) join) in
        is_credential_supported iface cred join = Some error
        /\ forall env self credential flags options invocation w,
             REALM_KERBEROS_MEMBERSHIP_GET_IFACE self = Some iface ->
             is_Some (if join then join_async iface else leave_async iface) ->
             credential_parse env credential = inr cred ->
             join_or_leave env self credential flags options invocation join w =
             Some (tt, add_events w [EvCredentialParse credential;
                                     EvReply invocation (ReturnError error);
                                     EvCredentialUnref cred]))
    /\ (forall t1 t2 j1 j2,
          credential_not_supported_message t1 j1 = credential_not_supported_message t2 j2 ->
          t1 = t2 /\ j1 = j2).
Proof.
  intros iface cred join. split; [apply is_credential_supported_declared |]. split.
  - intros Hnot error. split; [apply is_credential_supported_error, Hnot |].
    intros env self credential flags options invocation w Hiface Hentry Hparse.
    apply (join_or_leave_unsupported env self credential flags options invocation join
             iface cred error w Hiface Hentry Hparse).
    apply is_credential_supported_error, Hnot.
  - intros t1 t2 j1 j2. apply credential_not_supported_message_inj.
Qed.

(** ** The replies of the completion callbacks *)

Lemma method_closure_free_run (closure : MethodClosure) (w : World) :
  method_closure_free closure w = Some (tt, add_events w (closure_free_events closure)).
Proof.
  unfold method_closure_free, closure_free_events.
  destruct (closure_cred closure); unfold_m; cbn; flat_trace; reflexivity.
Qed.

Lemma enroll_method_reply_success (invocation : Invocation) (w : World) :
  enroll_method_reply invocation None w =
  Some (tt, with_lock (add_events w
    [EvDiagnosticsInfo invocation "Successfully enrolled machine in realm";
     EvReply invocation ReturnValue;
     EvUnlock invocation]) None).
Proof. unfold enroll_method_reply. unfold_m. cbn. flat_trace. reflexivity. Qed.

Lemma enroll_method_reply_cancelled (invocation : Invocation) (w : World) :
  enroll_method_reply invocation (Some cancelled_error) w =
  Some (tt, with_lock (add_events w
    [EvDiagnosticsError invocation (Some cancelled_error) (Some "Cancelled");
     EvReply invocation
       (ReturnError (mkGError REALM_ERROR REALM_ERROR_CANCELLED "Operation was cancelled."));
     EvUnlock invocation]) None).
Proof.
  unfold enroll_method_reply, cancelled_error. unfold_m. cbn. decide_tests. cbn.
  flat_trace. reflexivity.
Qed.

Lemma unenroll_method_reply_cancelled (invocation : Invocation) (w : World) :
  unenroll_method_reply invocation (Some cancelled_error) w =
  Some (tt, with_lock (add_events w
    [EvDiagnosticsError invocation (Some cancelled_error) (Some "Cancelled");
     EvReply invocation
       (ReturnError (mkGError REALM_ERROR REALM_ERROR_CANCELLED "Operation was cancelled."));
     EvUnlock invocation]) None).
Proof.
  unfold unenroll_method_reply, cancelled_error. unfold_m. cbn. decide_tests. cbn.
  flat_trace. reflexivity.
Qed.

(** Whatever the error, [enroll_method_reply] makes one diagnostics call, one
    reply and the unlock, in this order. *)
Lemma enroll_method_reply_shape (invocation : Invocation) (error : option GError) (w : World) :
  exists diagnostic reply,
    enroll_method_reply invocation error w =
    Some (tt, with_lock (add_events w
      [diagnostic; EvReply invocation reply; EvUnlock invocation]) None)
    /\ quiet diagnostic = true.
Proof.
  unfold enroll_method_reply.
  destruct error as [e|]; [destruct (domain_is_realm_or_dbus e) eqn:Hdom;
    [| destruct (g_error_matches (Some e) G_IO_ERROR G_IO_ERROR_CANCELLED) eqn:Hmatch] |];
    unfold_m; cbn; flat_trace; eexists _, _; (split; [reflexivity | reflexivity]).
Qed.

Lemma unenroll_method_reply_shape (invocation : Invocation) (error : option GError)
    (w : World) :
  exists diagnostic reply,
    unenroll_method_reply invocation error w =
    Some (tt, with_lock (add_events w
      [diagnostic; EvReply invocation reply; EvUnlock invocation]) None)
    /\ quiet diagnostic = true.
Proof.
  unfold unenroll_method_reply.
  destruct error as [e|]; [destruct (domain_is_realm_or_dbus e) eqn:Hdom;
    [| destruct (g_error_matches (Some e) G_IO_ERROR G_IO_ERROR_CANCELLED) eqn:Hmatch] |];
    unfold_m; cbn; flat_trace; eexists _, _; (split; [reflexivity | reflexivity]).
Qed.

(** C5: when the cancellation token of the invocation has fired by the time
    the back-end completes, on_enroll_complete and on_unenroll_complete reply
    Cancelled and never call join_finish / leave_finish, whatever the
    back-end's result is. *)
Theorem C5_cancellation_preferred :
  forall (env : Env) (result : GAsyncResult) (closure : MethodClosure) (w : World)
         (iface : RealmKerberosMembershipIface),
    REALM_KERBEROS_MEMBERSHIP_GET_IFACE (closure_self closure) = Some iface ->
    closure_invocation closure ∈ cancelled w ->
    let invocation := closure_invocation closure in
    let calls :=
      [EvDiagnosticsError invocation (Some cancelled_error) (Some "Cancelled");
       EvReply invocation
         (ReturnError (mkGError REALM_ERROR REALM_ERROR_CANCELLED "Operation was cancelled."));
       EvUnlock invocation] ++ closure_free_events closure in
    (is_Some (join_finish iface) ->
     on_enroll_complete env result closure w = Some (tt, with_lock (add_events w calls) None))
    /\ (is_Some (leave_finish iface) ->
        on_unenroll_complete result closure w =
        Some (tt, with_lock (add_events w calls) None))
    /\ (EvJoinFinish ∉ calls) /\ (EvLeaveFinish ∉ calls).
Proof.
  intros env result closure w iface Hiface Hcancelled invocation calls.
  split; [| split].
  - intros [finish Hfinish]. unfold on_enroll_complete.
    rewrite Hiface, Hfinish. step_m.
    rewrite bool_decide_eq_true_2 by exact Hcancelled.
    fold cancelled_error. rewrite enroll_method_reply_cancelled.
    rewrite method_closure_free_run. unfold_m. cbn. flat_trace. reflexivity.
  - intros [finish Hfinish]. unfold on_unenroll_complete.
    rewrite Hiface, Hfinish. step_m.
    rewrite bool_decide_eq_true_2 by exact Hcancelled.
    fold cancelled_error. rewrite unenroll_method_reply_cancelled.
    rewrite method_closure_free_run. unfold_m. cbn. flat_trace. reflexivity.
  - subst calls. unfold closure_free_events.
    destruct (closure_cred closure); cbn;
      split; intros Hin; repeat (apply elem_of_cons in Hin as [Hin | Hin]; [discriminate |]);
      inversion Hin.
Qed.

Lemma C5_cancellation_preferred_witness :
  on_enroll_complete sample_env (BackendResult true None)
    (mkMethodClosure sample_realm 7%nat None) (mkWorld (Some 7%nat) [7%nat] ∅ [] []) =
  Some (tt, mkWorld None [7%nat] ∅ []
    [EvDiagnosticsError 7%nat (Some cancelled_error) (Some "Cancelled");
     EvReply 7%nat
       (ReturnError (mkGError REALM_ERROR REALM_ERROR_CANCELLED "Operation was cancelled."));
     EvUnlock 7%nat;
     EvClosureFree 7%nat]).
Proof.
  apply (proj1 (C5_cancellation_preferred sample_env (BackendResult true None)
                  (mkMethodClosure sample_realm 7%nat None)
                  (mkWorld (Some 7%nat) [7%nat] ∅ [] []) sample_iface
                  eq_refl (list_elem_of_here 7%nat []))).
  exists read_result. reflexivity.
Defined.

Lemma on_name_caches_flush_run (env : Env) (flushed : GAsyncResult) (closure : MethodClosure)
    (w : World) :
  on_name_caches_flush env flushed closure w =
  Some (tt, with_lock (add_events w
    ([EvCommandFinish]
     ++ (if fst (realm_command_run_finish env flushed) =? 0 then []
         else [EvDiagnosticsError (closure_invocation closure)
                 (snd (realm_command_run_finish env flushed))
                 (Some "Flushing name caches failed")])
     ++ [EvDiagnosticsInfo (closure_invocation closure)
           "Successfully enrolled machine in realm";
         EvReply (closure_invocation closure) ReturnValue;
         EvUnlock (closure_invocation closure)]
     ++ closure_free_events closure)) None).
Proof.
  unfold on_name_caches_flush.
  destruct (realm_command_run_finish env flushed) as [status error]. cbn [fst snd].
  destruct (status =? 0); step_m;
    rewrite enroll_method_reply_success, method_closure_free_run;
    unfold_m; cbn; flat_trace; reflexivity.
Qed.

(** C6: after a join the back-end finished without error, outside install
    mode on_enroll_complete starts the name-caches-flush command and replies
    nothing yet; when the command completes, a nonzero status only adds a
    diagnostics call and the reply is success all the same. In install mode
    no command is started and the success reply is made at once. *)
Theorem C6_name_caches_flush :
  forall (env : Env) (result : GAsyncResult) (closure : MethodClosure) (w : World)
         (iface : RealmKerberosMembershipIface) (finish : FinishFn),
    REALM_KERBEROS_MEMBERSHIP_GET_IFACE (closure_self closure) = Some iface ->
    join_finish iface = Some finish ->
    closure_invocation closure ∉ cancelled w ->
    snd (finish result) = None ->
    let invocation := closure_invocation closure in
    let success :=
      [EvDiagnosticsInfo invocation "Successfully enrolled machine in realm";
       EvReply invocation ReturnValue;
       EvUnlock invocation] in
    (realm_daemon_is_install_mode env = false ->
     on_enroll_complete env result closure w =
     Some (tt, with_pending
                 (add_events w [EvJoinFinish; EvCommandAsync "name-caches-flush" invocation])
                 (pending w ++ [(CB_on_name_caches_flush, closure)]))
     /\ forall (flushed : GAsyncResult) (w1 : World) (status : Z) (error : option GError),
          realm_command_run_finish env flushed = (status, error) ->
          on_name_caches_flush env flushed closure w1 =
          Some (tt, with_lock (add_events w1
            ([EvCommandFinish]
             ++ (if status =? 0 then []
                 else [EvDiagnosticsError invocation error
                         (Some "Flushing name caches failed")])
             ++ success ++ closure_free_events closure)) None))
    /\ (realm_daemon_is_install_mode env = true ->
        on_enroll_complete env result closure w =
        Some (tt, with_lock (add_events w (EvJoinFinish :: success)) None)).
Proof.
  intros env result closure w iface finish Hiface Hfinish Hlive Hok invocation success.
  split.
  - intros Hmode. split.
    + unfold on_enroll_complete. rewrite Hiface, Hfinish. step_m.
      rewrite bool_decide_eq_false_2 by exact Hlive. step_m.
      rewrite Hok, Hmode. step_m. flat_trace. reflexivity.
    + intros flushed w1 status error Hrun.
      rewrite on_name_caches_flush_run, Hrun. reflexivity.
  - intros Hmode. unfold on_enroll_complete. rewrite Hiface, Hfinish. step_m.
    rewrite bool_decide_eq_false_2 by exact Hlive. step_m.
    rewrite Hok, Hmode. step_m. rewrite enroll_method_reply_success.
    unfold_m. cbn. flat_trace. reflexivity.
Qed.

Lemma C6_name_caches_flush_witness :
  on_name_caches_flush sample_env (CommandResult 1 None)
    (mkMethodClosure sample_realm 7%nat None) (mkWorld (Some 7%nat) [] ∅ [] []) =
  Some (tt, mkWorld None [] ∅ []
    [EvCommandFinish;
     EvDiagnosticsError 7%nat None (Some "Flushing name caches failed");
     EvDiagnosticsInfo 7%nat "Successfully enrolled machine in realm";
     EvReply 7%nat ReturnValue;
     EvUnlock 7%nat;
     EvClosureFree 7%nat]).
Proof.
  apply (proj2 (proj1 (C6_name_caches_flush sample_env (BackendResult true None)
                  (mkMethodClosure sample_realm 7%nat None)
                  (mkWorld (Some 7%nat) [] ∅ [] []) sample_iface read_result
                  eq_refl eq_refl (not_elem_of_nil 7%nat) eq_refl) eq_refl)
           (CommandResult 1 None) (mkWorld (Some 7%nat) [] ∅ [] []) 1 None eq_refl).
Defined.

(** ** Leave and Deconfigure *)





(** A computer-ou entry that is not a string is not what the lookup reads:
    the request goes on to the credential. *)
Example handle_leave_computer_ou_boolean :
  handle_leave (H := realmd_constants) sample_env sample_realm 7%nat secret_wire
    [("computer-ou", GV_boolean true)] idle_world =
  Some (true, add_events idle_world
    [EvCredentialParse secret_wire;
     EvReply 7%nat
       (ReturnError (mkGError G_DBUS_ERROR G_DBUS_ERROR_NOT_SUPPORTED
          "Unenrolling this realm using a secret is not supported"));
     EvCredentialUnref
       (mkCredential REALM_CREDENTIAL_SECRET REALM_CREDENTIAL_OWNER_ADMIN
          (payload_secret (list_ascii_of_string "otp")))]).
Proof. reflexivity. Qed.

(** Deconfigure does not look at computer-ou at all. *)
Example handle_deconfigure_computer_ou :
  handle_deconfigure sample_env sample_realm 7%nat
    [("computer-ou", GV_string "OU=Servers")] idle_world =
  Some (true, mkWorld (Some 7%nat) [] ∅
    [(CB_on_unenroll_complete,
      mkMethodClosure sample_realm 7%nat
        (Some (mkCredential REALM_CREDENTIAL_AUTOMATIC REALM_CREDENTIAL_OWNER_NONE
                 payload_none)))]
    [EvCredentialParse deconfigure_credential;
     EvLock 7%nat true;
     EvLeaveAsync (async_entry "sample_leave_async")
       (mkCredential REALM_CREDENTIAL_AUTOMATIC REALM_CREDENTIAL_OWNER_NONE payload_none)
       0 [("computer-ou", GV_string "OU=Servers")] 7%nat]).
Proof. reflexivity. Qed.


(** ** The configured property *)

(** C10: the configured state goes through set_configured and is_configured
    unchanged: true is stored as the membership interface name, which is not
    empty, false as the empty string, and is_configured tests for a value
    that is set and not empty. *)
Theorem C10_configured_round_trip `{Constants} :
  REALM_DBUS_KERBEROS_MEMBERSHIP_INTERFACE <> "" ->
  forall (self : RealmKerberos) (configured : bool),
    realm_kerberos_is_configured (realm_kerberos_set_configured self configured) = configured
    /\ realm_dbus_realm_get_configured
         (realm_iface (realm_kerberos_set_configured self configured)) =
       Some (if configured then REALM_DBUS_KERBEROS_MEMBERSHIP_INTERFACE else "").
Proof.
  intros Hname self configured. split; [| reflexivity].
  unfold realm_kerberos_is_configured, realm_kerberos_set_configured, g_str_equal. cbn.
  destruct configured; cbn; [| reflexivity].
  destruct (String.eqb_spec REALM_DBUS_KERBEROS_MEMBERSHIP_INTERFACE ""); [contradiction |].
  reflexivity.
Qed.

Lemma C10_configured_round_trip_witness :
  realm_kerberos_is_configured
    (realm_kerberos_set_configured (H := realmd_constants) sample_realm true) = true
  /\ realm_dbus_realm_get_configured
       (realm_iface (realm_kerberos_set_configured (H := realmd_constants) sample_realm true)) =
     Some "org.freedesktop.realmd.KerberosMembership".
Proof.
  apply (C10_configured_round_trip (H := realmd_constants)
           (fun Heq : "org.freedesktop.realmd.KerberosMembership" = "" =>
              eq_ind "org.freedesktop.realmd.KerberosMembership"
                (fun s => match s with EmptyString => False | String _ _ => True end)
                I "" Heq)
           sample_realm true).
Defined.

(** ** The preconditions of Join *)

Lemma hostname_not_set_cases :
  hostname_not_set None = true
  /\ hostname_not_set (Some "localhost") = true
  /\ forall rest, hostname_not_set (Some ("localhost." +:+ rest)) = true.
Proof.
  split; [reflexivity | split; [reflexivity |]].
  intros rest. unfold hostname_not_set. apply orb_true_intro. right.
  vm_compute. reflexivity.
Qed.

(** The test ignores the case of ASCII letters. *)
Example hostname_not_set_capitals : hostname_not_set (Some "LocalHost.LocalDomain") = true.
Proof. reflexivity. Qed.

Example hostname_not_set_ordinary : hostname_not_set (Some "localhost2.example.com") = false.
Proof. reflexivity. Qed.

(** [join_or_leave] up to the lock, for a request that passes the capability,
    parse and support checks. *)
Lemma join_or_leave_reaches_lock (env : Env) (self : RealmKerberos) (credential : GVariant)
    (flags : RealmKerberosFlags) (options : GVariantDict) (invocation : Invocation)
    (join : bool) (iface : RealmKerberosMembershipIface) (cred : RealmCredential)
    (w : World) :
  REALM_KERBEROS_MEMBERSHIP_GET_IFACE self = Some iface ->
  is_Some (if join then join_async iface else leave_async iface) ->
  credential_parse env credential = inr cred ->
  is_credential_supported iface cred join = None ->
  (is_Some (current_invocation w) ->
   join_or_leave env self credential flags options invocation join w =
   Some (tt, add_events w
     [EvCredentialParse credential; EvLock invocation false;
      EvReply invocation
        (ReturnError (mkGError REALM_ERROR REALM_ERROR_BUSY "Already running another action"))]))
  /\ (current_invocation w = None ->
      exists w' rest,
        join_or_leave env self credential flags options invocation join w = Some (tt, w')
        /\ current_invocation w' = Some invocation
        /\ trace w' = trace w ++ [EvCredentialParse credential; EvLock invocation true] ++ rest
        /\ forallb quiet rest = true).
Proof.
  intros Hiface [entry Hentry] Hparse Hsupp. split.
  - intros [holder Hheld]. unfold join_or_leave. rewrite Hiface.
    destruct join; rewrite Hentry; cbn [is_null andb orb negb];
      step_m; rewrite Hparse, Hsupp; step_m; rewrite Hheld; step_m;
      flat_trace; reflexivity.
  - intros Hfree. unfold join_or_leave. rewrite Hiface.
    destruct join; rewrite Hentry; cbn [is_null andb orb negb];
      step_m; rewrite Hparse, Hsupp; step_m; rewrite Hfree; step_m.
    + destruct (join_finish iface); step_m; flat_trace;
        eexists _, _; (split; [reflexivity | split; [reflexivity | split; reflexivity]]).
    + destruct (leave_finish iface); step_m; flat_trace;
        eexists _, _; (split; [reflexivity | split; [reflexivity | split; reflexivity]]).
Qed.

Lemma handle_join_hostname_ok `{Constants} (env : Env) (self : RealmKerberos)
    (invocation : Invocation) (credentials : GVariant) (options : GVariantDict) (w : World) :
  hostname_not_set (gethostname env) = false ->
  exists flags,
    handle_join env self invocation credentials options w =
    (join_or_leave env self credentials flags options invocation true;; mret true) w.
Proof.
  intros Hhost. unfold handle_join. rewrite Hhost. eexists. reflexivity.
Qed.

Lemma join_or_leave_not_capable (env : Env) (self : RealmKerberos) (credential : GVariant)
    (flags : RealmKerberosFlags) (options : GVariantDict) (invocation : Invocation)
    (join : bool) (iface : RealmKerberosMembershipIface) (w : World) :
  REALM_KERBEROS_MEMBERSHIP_GET_IFACE self = Some iface ->
  (if join then join_async iface else leave_async iface) = None ->
  join_or_leave env self credential flags options invocation join w =
  Some (tt, add_events w
    [EvReply invocation
       (ReturnError (mkGError G_DBUS_ERROR G_DBUS_ERROR_NOT_SUPPORTED
          (if join then "Joining this realm is not supported"
           else "Leaving this realm is not supported")))]).
Proof.
  intros Hiface Hentry. unfold join_or_leave. rewrite Hiface.
  destruct join; rewrite Hentry; cbn [is_null andb orb negb]; step_m; reflexivity.
Qed.

Lemma join_or_leave_parse_error (env : Env) (self : RealmKerberos) (credential : GVariant)
    (flags : RealmKerberosFlags) (options : GVariantDict) (invocation : Invocation)
    (join : bool) (iface : RealmKerberosMembershipIface) (error : GError) (w : World) :
  REALM_KERBEROS_MEMBERSHIP_GET_IFACE self = Some iface ->
  is_Some (if join then join_async iface else leave_async iface) ->
  credential_parse env credential = inl error ->
  join_or_leave env self credential flags options invocation join w =
  Some (tt, add_events w [EvCredentialParse credential;
                          EvReply invocation (ReturnError error)]).
Proof.
  intros Hiface [entry Hentry] Hparse. unfold join_or_leave. rewrite Hiface.
  destruct join; rewrite Hentry; cbn [is_null andb orb negb];
    step_m; rewrite Hparse; step_m; flat_trace; reflexivity.
Qed.

Lemma bind_unit_true (m : M unit) (w w' : World) :
  m w = Some (tt, w') -> (m;; mret true) w = Some (true, w').
Proof. intros Hrun. unfold_m. rewrite Hrun. reflexivity. Qed.

(** C3: handle_join tests, in this order, the host name, the back-end's
    join entry point, the parse of the credential, the support of its type,
    and only then tries the lock; the first test that fails makes the only
    reply. A host name that gethostname cannot give, that is localhost or
    that starts with localhost. is answered with the host-name failure
    whatever the other inputs are, and the lock is tried (Busy, Already
    running another action, when it is held) only when the four tests before
    it have passed. *)
Theorem C3_join_preconditions_in_order `{Constants} :
  forall (env : Env) (self : RealmKerberos) (invocation : Invocation)
         (credentials : GVariant) (options : GVariantDict) (w : World)
         (iface : RealmKerberosMembershipIface),
    REALM_KERBEROS_MEMBERSHIP_GET_IFACE self = Some iface ->
    let outcome := handle_join env self invocation credentials options w in
    let refused error := Some (true, add_events w [EvReply invocation (ReturnError error)]) in
    (hostname_not_set None = true
     /\ hostname_not_set (Some "localhost") = true
     /\ forall rest, hostname_not_set (Some ("localhost." +:+ rest)) = true)
    /\ (hostname_not_set (gethostname env) = true ->
        outcome = refused (mkGError REALM_ERROR REALM_ERROR_FAILED
                             "This computer's host name is not set correctly."))
    /\ (hostname_not_set (gethostname env) = false ->
        (join_async iface = None ->
         outcome = refused (mkGError G_DBUS_ERROR G_DBUS_ERROR_NOT_SUPPORTED
                              "Joining this realm is not supported"))
        /\ (is_Some (join_async iface) ->
            (forall error,
                credential_parse env credentials = inl error ->
                outcome = Some (true, add_events w
                  [EvCredentialParse credentials; EvReply invocation (ReturnError error)]))
            /\ (forall cred,
                   credential_parse env credentials = inr cred ->
                   (forall error,
                       is_credential_supported iface cred true = Some error ->
                       outcome = Some (true, add_events w
                         [EvCredentialParse credentials;
                          EvReply invocation (ReturnError error);
                          EvCredentialUnref cred]))
                   /\ (is_credential_supported iface cred true = None ->
                       (is_Some (current_invocation w) ->
                        outcome = Some (true, add_events w
                          [EvCredentialParse credentials;
                           EvLock invocation false;
                           EvReply invocation
                             (ReturnError (mkGError REALM_ERROR REALM_ERROR_BUSY
                                "Already running another action"))]))
                       /\ (current_invocation w = None ->
                           exists w' rest,
                             outcome = Some (true, w')
                             /\ current_invocation w' = Some invocation
                             /\ trace w' =
                                trace w
                                ++ [EvCredentialParse credentials; EvLock invocation true]
                                ++ rest
                             /\ forallb quiet rest = true)))))
    /\ (forall (b : bool) (w' : World) (calls : list Event),
          outcome = Some (b, w') ->
          trace w' = trace w ++ calls ->
          existsb is_lock_attempt calls = true ->
          hostname_not_set (gethostname env) = false
          /\ is_Some (join_async iface)
          /\ exists cred,
               credential_parse env credentials = inr cred
               /\ is_credential_supported iface cred true = None).
Proof.
  intros env self invocation credentials options w iface Hiface outcome refused.
  split; [apply hostname_not_set_cases |]. split; [| split].
  - intros Hhost. subst outcome refused. unfold handle_join. rewrite Hhost.
    step_m. reflexivity.
  - intros Hhost. subst outcome refused.
    destruct (handle_join_hostname_ok env self invocation credentials options w Hhost)
      as [flags ->].
    split.
    + intros Hentry. apply bind_unit_true.
      apply (join_or_leave_not_capable env self credentials flags options invocation true
               iface w Hiface Hentry).
    + intros Hentry. split.
      * intros error Hparse. apply bind_unit_true.
        apply (join_or_leave_parse_error env self credentials flags options invocation true
                 iface error w Hiface Hentry Hparse).
      * intros cred Hparse. split.
        -- intros error Hsupp. apply bind_unit_true.
           apply (join_or_leave_unsupported env self credentials flags options invocation
                    true iface cred error w Hiface Hentry Hparse Hsupp).
        -- intros Hsupp.
           destruct (join_or_leave_reaches_lock env self credentials flags options
                       invocation true iface cred w Hiface Hentry Hparse Hsupp)
             as [Hbusy Hfree].
           split.
           ++ intros Hheld. apply bind_unit_true, Hbusy, Hheld.
           ++ intros Hnone. destruct (Hfree Hnone) as (w' & rest & Hrun & Hrest).
              exists w', rest. split; [apply bind_unit_true, Hrun | exact Hrest].
  - intros b w' calls Hout Htrace Hlock. subst outcome.
    destruct (hostname_not_set (gethostname env)) eqn:Hhost.
    { exfalso. unfold handle_join in Hout. rewrite Hhost in Hout.
      revert Hout. step_m. intros Hout. injection Hout as _ <-.
      cbn in Htrace. apply app_inv_head in Htrace. subst calls. discriminate Hlock. }
    split; [reflexivity |].
    destruct (handle_join_hostname_ok env self invocation credentials options w Hhost)
      as [flags Hrun]. rewrite Hrun in Hout. clear Hrun.
    destruct (join_async iface) as [entry|] eqn:Hentry.
    2:{ exfalso.
        rewrite (bind_unit_true _ _ _
                   (join_or_leave_not_capable env self credentials flags options invocation
                      true iface w Hiface Hentry)) in Hout.
        injection Hout as _ <-. cbn in Htrace. apply app_inv_head in Htrace.
        subst calls. discriminate Hlock. }
    split; [eexists; reflexivity |].
    assert (Hsome : is_Some (if true then join_async iface else leave_async iface))
      by (rewrite Hentry; eexists; reflexivity).
    destruct (credential_parse env credentials) as [error | cred] eqn:Hparse.
    { exfalso.
      rewrite (bind_unit_true _ _ _
                 (join_or_leave_parse_error env self credentials flags options invocation
                    true iface error w Hiface Hsome Hparse)) in Hout.
      injection Hout as _ <-. cbn in Htrace. apply app_inv_head in Htrace.
      subst calls. discriminate Hlock. }
    exists cred. split; [reflexivity |].
    destruct (is_credential_supported iface cred true) as [error|] eqn:Hsupp;
      [| reflexivity].
    exfalso.
    rewrite (bind_unit_true _ _ _
               (join_or_leave_unsupported env self credentials flags options invocation
                  true iface cred error w Hiface Hsome Hparse Hsupp)) in Hout.
    injection Hout as _ <-. cbn in Htrace. apply app_inv_head in Htrace.
    subst calls. discriminate Hlock.
Qed.

Lemma C3_join_preconditions_in_order_witness :
  handle_join (H := realmd_constants) sample_env sample_realm 7%nat password_wire []
    (mkWorld (Some 3%nat) [] ∅ [] []) =
  Some (true, mkWorld (Some 3%nat) [] ∅ []
    [EvCredentialParse password_wire;
     EvLock 7%nat false;
     EvReply 7%nat
       (ReturnError (mkGError REALM_ERROR REALM_ERROR_BUSY "Already running another action"))]).
Proof.
  destruct (C3_join_preconditions_in_order (H := realmd_constants) sample_env sample_realm
              7%nat password_wire [] (mkWorld (Some 3%nat) [] ∅ [] []) sample_iface eq_refl)
    as (_ & _ & Hok & _).
  destruct (Hok eq_refl) as [_ Hcapable].
  destruct (Hcapable (ex_intro _ (async_entry "sample_join_async") eq_refl))
    as [_ Hparsed].
  destruct (Hparsed (mkCredential REALM_CREDENTIAL_PASSWORD REALM_CREDENTIAL_OWNER_ADMIN
                       (payload_userpass "admin" (list_ascii_of_string "secret")))
              eq_refl) as [_ Hsupported].
  destruct (Hsupported eq_refl) as [Hbusy _].
  exact (Hbusy (ex_intro _ 3%nat eq_refl)).
Defined.

(** ** The login policy argument *)

Section LoginPolicy.

Context `{Constants}.

Lemma scan_policies_name (token : string) (rest : list string)
    (policy : RealmKerberosLoginPolicy) (n : Z) :
  is_policy_name token ->
  scan_policies (token :: rest) policy n = scan_policies rest (policy_of_token token) (n + 1).
Proof.
  intros Hname. cbn [scan_policies]. unfold policy_of_token, g_str_equal.
  destruct (String.eqb_spec token REALM_DBUS_LOGIN_POLICY_ANY); [reflexivity |].
  destruct (String.eqb_spec token REALM_DBUS_LOGIN_POLICY_REALM); [reflexivity |].
  destruct (String.eqb_spec token REALM_DBUS_LOGIN_POLICY_PERMITTED); [reflexivity |].
  destruct (String.eqb_spec token REALM_DBUS_LOGIN_POLICY_DENY); [reflexivity |].
  exfalso. destruct Hname as [? | [? | [? | ?]]]; contradiction.
Qed.

Lemma scan_policies_other (token : string) (rest : list string)
    (policy : RealmKerberosLoginPolicy) (n : Z) :
  ~ is_policy_name token ->
  scan_policies (token :: rest) policy n = None.
Proof.
  intros Hother. cbn [scan_policies]. unfold g_str_equal, is_policy_name in *.
  destruct (String.eqb_spec token REALM_DBUS_LOGIN_POLICY_ANY); [tauto |].
  destruct (String.eqb_spec token REALM_DBUS_LOGIN_POLICY_REALM); [tauto |].
  destruct (String.eqb_spec token REALM_DBUS_LOGIN_POLICY_PERMITTED); [tauto |].
  destruct (String.eqb_spec token REALM_DBUS_LOGIN_POLICY_DENY); [tauto |].
  reflexivity.
Qed.

Lemma is_policy_name_dec (token : string) : {is_policy_name token} + {~ is_policy_name token}.
Proof.
  unfold is_policy_name.
  destruct (String.string_dec token REALM_DBUS_LOGIN_POLICY_ANY); [left; tauto |].
  destruct (String.string_dec token REALM_DBUS_LOGIN_POLICY_REALM); [left; tauto |].
  destruct (String.string_dec token REALM_DBUS_LOGIN_POLICY_PERMITTED); [left; tauto |].
  destruct (String.string_dec token REALM_DBUS_LOGIN_POLICY_DENY); [left; tauto |].
  right. tauto.
Qed.

Lemma scan_policies_unknown (tokens : list string) (token : string)
    (policy : RealmKerberosLoginPolicy) (n : Z) :
  token ∈ tokens -> ~ is_policy_name token -> scan_policies tokens policy n = None.
Proof.
  intros Hin Hother. revert policy n.
  induction tokens as [|head rest IH]; intros policy n; [inversion Hin |].
  destruct (is_policy_name_dec head) as [Hname | Hnot].
  - rewrite (scan_policies_name head rest policy n Hname). apply IH.
    apply elem_of_cons in Hin as [-> | Hin]; [contradiction | exact Hin].
  - apply scan_policies_other, Hnot.
Qed.

Lemma scan_policies_names (tokens : list string) (policy : RealmKerberosLoginPolicy) (n : Z) :
  Forall is_policy_name tokens ->
  exists kept,
    scan_policies tokens policy n = Some (kept, n + Z.of_nat (List.length tokens))
    /\ kept = match rev tokens with
              | [] => policy
              | last :: _ => policy_of_token last
              end.
Proof.
  intros Hall. revert policy n.
  induction Hall as [|head rest Hname Hall IH]; intros policy n.
  - exists policy. cbn. rewrite Z.add_0_r. split; reflexivity.
  - rewrite (scan_policies_name head rest policy n Hname).
    destruct (IH (policy_of_token head) (n + 1)) as (kept & Hscan & Hkept).
    exists kept. split.
    + rewrite Hscan. f_equal. f_equal. cbn [List.length]. lia.
    + rewrite Hkept. cbn [rev]. destruct (rev rest) as [|last front]; reflexivity.
Qed.

Lemma scan_policies_some (tokens : list string) (policy kept : RealmKerberosLoginPolicy)
    (n m : Z) :
  scan_policies tokens policy n = Some (kept, m) ->
  Forall is_policy_name tokens /\ m = n + Z.of_nat (List.length tokens).
Proof.
  revert policy n. induction tokens as [|head rest IH]; intros policy n Hscan.
  - cbn in Hscan. injection Hscan as _ <-. split; [constructor | cbn; lia].
  - destruct (is_policy_name_dec head) as [Hname | Hnot].
    + rewrite (scan_policies_name head rest policy n Hname) in Hscan.
      destruct (IH _ _ Hscan) as [Hall ->].
      split; [constructor; assumption | cbn [List.length]; lia].
    + rewrite (scan_policies_other head rest policy n Hnot) in Hscan. discriminate.
Qed.

End LoginPolicy.

(** C4, as the code has it: the policy string is cut at every comma, space
    and tab. A string with a non-empty token that is none of the four policy
    names is refused as InvalidArgs with the invalid-or-unknown wording; a
    string whose tokens are all policy names is refused with the
    conflicting-flags wording when it has two or more of them, and goes on to
    the lock and the dispatch when it has one or none, the empty string
    leaving the policy not set. Nothing else reaches the lock. *)
Theorem C4_login_policy_tokens `{Constants} :
  forall (self : RealmKerberos) (invocation : Invocation) (login_policy : string)
         (add remove : list string) (options : GVariantDict) (w : World),
    let tokens := g_strsplit_set login_policy comma_space_tab in
    let outcome :=
      handle_change_login_policy self invocation login_policy add remove options w in
    let refused text :=
      Some (true, add_events w
        [EvReply invocation
           (ReturnError (mkGError G_DBUS_ERROR G_DBUS_ERROR_INVALID_ARGS text))]) in
    (forall token,
        token ∈ tokens -> token <> "" -> ~ is_policy_name token ->
        outcome = refused "Invalid or unknown login_policy argument")
    /\ (Forall is_policy_name tokens -> (2 <= List.length tokens)%nat ->
        outcome = refused "Conflicting flags in login_policy argument")
    /\ (Forall is_policy_name tokens -> (List.length tokens <= 1)%nat ->
        let policy := match tokens with
                      | [] => REALM_KERBEROS_POLICY_NOT_SET
                      | token :: _ => policy_of_token token
                      end in
        (is_Some (current_invocation w) ->
         outcome = Some (true, add_events w
           [EvLock invocation false;
            EvReply invocation
              (ReturnError (mkGError REALM_ERROR REALM_ERROR_BUSY
                 "Already running another action"))]))
        /\ (current_invocation w = None ->
            forall entry,
              logins_async (REALM_KERBEROS_GET_CLASS self) = Some entry ->
              outcome = Some (true,
                with_pending
                  (with_lock
                     (add_events w [EvLock invocation true;
                                    EvLoginsAsync entry invocation policy add remove])
                     (Some invocation))
                  (pending w ++ [(CB_on_logins_complete,
                                  method_closure_new self invocation)]))))
    /\ (forall (b : bool) (w' : World) (calls : list Event),
          outcome = Some (b, w') ->
          trace w' = trace w ++ calls ->
          existsb is_lock_attempt calls = true ->
          Forall is_policy_name tokens /\ (List.length tokens <= 1)%nat)
    /\ g_strsplit_set "" comma_space_tab = [].
Proof.
  intros self invocation login_policy add remove options w tokens outcome refused.
  subst outcome refused. unfold handle_change_login_policy. fold tokens.
  split; [| split; [| split; [| split; [| reflexivity]]]].
  - intros token Hin _ Hother.
    rewrite (scan_policies_unknown tokens token _ _ Hin Hother). step_m. reflexivity.
  - intros Hall Hmany.
    destruct (scan_policies_names tokens REALM_KERBEROS_POLICY_NOT_SET 0 Hall)
      as (kept & -> & _).
    replace (1 <? 0 + Z.of_nat (List.length tokens)) with true
      by (symmetry; apply Z.ltb_lt; lia).
    step_m. reflexivity.
  - intros Hall Hfew.
    destruct (scan_policies_names tokens REALM_KERBEROS_POLICY_NOT_SET 0 Hall)
      as (kept & -> & Hkept).
    replace (1 <? 0 + Z.of_nat (List.length tokens)) with false
      by (symmetry; apply Z.ltb_ge; lia).
    assert (Hpolicy : kept = match tokens with
                             | [] => REALM_KERBEROS_POLICY_NOT_SET
                             | token :: _ => policy_of_token token
                             end).
    { subst kept. destruct tokens as [|first [|second rest]];
        [reflexivity | reflexivity | cbn in Hfew; lia]. }
    rewrite Hpolicy. split.
    + intros [holder Hheld]. step_m. rewrite Hheld. step_m. flat_trace.
      rewrite ?Hheld. reflexivity.
    + intros Hfree entry Hentry. step_m. rewrite Hfree. step_m. rewrite Hentry.
      step_m. flat_trace. reflexivity.
  - intros b w' calls Hout Htrace Hlock.
    destruct (scan_policies tokens REALM_KERBEROS_POLICY_NOT_SET 0)
      as [[kept n]|] eqn:Hscan.
    + destruct (scan_policies_some tokens _ _ _ _ Hscan) as [Hall ->].
      split; [exact Hall |].
      destruct (1 <? 0 + Z.of_nat (List.length tokens)) eqn:Hmany.
      * exfalso. revert Hout. step_m. intros Hout. injection Hout as _ <-.
        cbn in Htrace. apply app_inv_head in Htrace. subst calls. discriminate Hlock.
      * apply Z.ltb_ge in Hmany. lia.
    + exfalso. revert Hout. step_m. intros Hout. injection Hout as _ <-.
      cbn in Htrace. apply app_inv_head in Htrace. subst calls. discriminate Hlock.
Qed.

Lemma C4_login_policy_tokens_witness :
  handle_change_login_policy (H := realmd_constants) sample_realm 7%nat "any,deny" [] [] []
    idle_world =
  Some (true, add_events idle_world
    [EvReply 7%nat
       (ReturnError (mkGError G_DBUS_ERROR G_DBUS_ERROR_INVALID_ARGS
          "Conflicting flags in login_policy argument"))]).
Proof.
  destruct (C4_login_policy_tokens (H := realmd_constants) sample_realm 7%nat "any,deny"
              [] [] [] idle_world) as (_ & Hconflict & _).
  apply Hconflict.
  - repeat constructor; unfold is_policy_name; cbn; tauto.
  - vm_compute. apply le_n.
Defined.

(** The claim as the design document words it fails on the empty string,
    which has no policy token at all and still takes the lock and
    dispatches, and on "any, deny", whose comma and space enclose an empty
    token: the reply has the invalid-or-unknown wording, not the
    conflicting-flags one. *)
Lemma C4_counterexample :
  handle_change_login_policy (H := realmd_constants) sample_realm 7%nat "" [] [] []
    idle_world =
  Some (true, mkWorld (Some 7%nat) [] ∅
    [(CB_on_logins_complete, method_closure_new sample_realm 7%nat)]
    [EvLock 7%nat true;
     EvLoginsAsync (async_entry "sample_logins_async") 7%nat
       REALM_KERBEROS_POLICY_NOT_SET [] []])
  /\ handle_change_login_policy (H := realmd_constants) sample_realm 7%nat "any, deny" [] [] []
       idle_world =
     Some (true, add_events idle_world
       [EvReply 7%nat
          (ReturnError (mkGError G_DBUS_ERROR G_DBUS_ERROR_INVALID_ARGS
             "Invalid or unknown login_policy argument"))]).
Proof. split; reflexivity. Qed.

Example login_policy_bogus :
  handle_change_login_policy (H := realmd_constants) sample_realm 7%nat "bogus" [] [] []
    idle_world =
  Some (true, add_events idle_world
    [EvReply 7%nat
       (ReturnError (mkGError G_DBUS_ERROR G_DBUS_ERROR_INVALID_ARGS
          "Invalid or unknown login_policy argument"))]).
Proof. reflexivity. Qed.

Example g_strsplit_set_comma_space :
  g_strsplit_set "any, deny" comma_space_tab = ["any"; ""; "deny"].
Proof. reflexivity. Qed.

Example g_strsplit_set_edges :
  g_strsplit_set ":def/ghi:" ":/" = [""; "def"; "ghi"; ""].
Proof. reflexivity. Qed.

(** ** Kerberos ticket acquisition *)

Section KinitProperties.

Context `{Constants}.

Lemma is_auth_failure_codes (e : GError) :
  is_auth_failure (Some e) = true
  <-> domain e = REALM_KRB5_ERROR /\ auth_failure_code (code e).
Proof.
  unfold is_auth_failure, g_error_matches, auth_failure_code.
  rewrite !orb_true_iff, !andb_true_iff, !bool_decide_eq_true. tauto.
Qed.

(** What the worker leaves behind: the world changes by at most one new
    file, named in the closure; a failure carries an error of the Kerberos
    or of the file domain. *)
Lemma kinit_ccache_thread_func_outcome (krb5 : Krb5) (self : RealmKerberos) (name : string)
    (password : list ascii) (enctypes : option (list Z)) (invocation : Invocation)
    (w : World) :
  exists async1 created,
    kinit_ccache_thread_func krb5
      (realm_kerberos_kinit_ccache_async self name password enctypes invocation) w =
    Some (async1, mkWorld (current_invocation w) (cancelled w) (created ∪ files w)
                    (pending w) (trace w))
    /\ source_tag async1 = TAG_realm_kerberos_kinit_ccache_async
    /\ kinit_invocation (op_res async1) = invocation
    /\ ((simple_failed async1 = true
         /\ (exists e, simple_error async1 = Some e
                       /\ (domain e = REALM_KRB5_ERROR \/ domain e = G_FILE_ERROR))
         /\ (forall file, file ∈ created -> kinit_ccache_file (op_res async1) = Some file))
        \/ (simple_failed async1 = false
            /\ simple_error async1 = None
            /\ exists file, kinit_ccache_file (op_res async1) = Some file
                            /\ created = {[file]})).
Proof.
  destruct w as [holder stopped existing waiting calls].
  unfold kinit_ccache_thread_func, realm_kerberos_kinit_ccache_async.
  cbn [op_res current_invocation cancelled files pending trace].
  destruct (krb5_init_context krb5 =? 0); cbn [negb].
  2:{ eexists _, ∅. unfold_m. rewrite (left_id_L ∅ (∪)).
      split; [reflexivity |]. split; [reflexivity |]. split; [reflexivity |].
      left. split; [reflexivity |]. split; [eexists; split; [reflexivity | left; reflexivity] |].
      intros file Hin. set_solver. }
  cbn [kinit_principal].
  match goal with |- context [krb5_parse_name krb5 ?p =? 0] =>
    destruct (krb5_parse_name krb5 p =? 0) end; cbn [negb].
  2:{ eexists _, ∅. unfold_m. rewrite (left_id_L ∅ (∪)).
      split; [reflexivity |]. split; [reflexivity |]. split; [reflexivity |].
      left. split; [reflexivity |]. split; [eexists; split; [reflexivity | left; reflexivity] |].
      intros file Hin. set_solver. }
  destruct (g_mkstemp_full krb5 _) as [filename | name_left errno].
  2:{ eexists _, ∅. unfold_m. rewrite (left_id_L ∅ (∪)).
      split; [reflexivity |]. split; [reflexivity |]. split; [reflexivity |].
      left. split; [reflexivity |]. split; [eexists; split; [reflexivity | right; reflexivity] |].
      intros file Hin. set_solver. }
  destruct (krb5_cc_resolve krb5 filename =? 0); cbn [negb].
  2:{ eexists _, {[filename]}. unfold_m. cbn.
      split; [reflexivity |]. split; [reflexivity |]. split; [reflexivity |].
      left. split; [reflexivity |]. split; [eexists; split; [reflexivity | left; reflexivity] |].
      intros file Hin. apply elem_of_singleton in Hin. subst file. reflexivity. }
  cbn [op_res with_ccache_file kinit_principal kinit_password kinit_enctypes].
  match goal with |- context [krb5_get_init_creds_password krb5 ?p ?x ?y =? 0] =>
    destruct (krb5_get_init_creds_password krb5 p x y =? 0) end; cbn [negb].
  2:{ eexists _, {[filename]}. unfold_m. cbn.
      split; [reflexivity |]. split; [reflexivity |]. split; [reflexivity |].
      left. split; [reflexivity |]. split; [eexists; split; [reflexivity | left; reflexivity] |].
      intros file Hin. apply elem_of_singleton in Hin. subst file. reflexivity. }
  eexists _, {[filename]}. unfold_m. cbn.
  split; [reflexivity |]. split; [reflexivity |]. split; [reflexivity |].
  right. split; [reflexivity |]. split; [reflexivity |].
  exists filename. split; reflexivity.
Qed.

End KinitProperties.

Lemma kinit_ccache_finish_failed `{Constants} (async : GSimpleAsyncResult) (e : GError)
    (w : World) :
  source_tag async = TAG_realm_kerberos_kinit_ccache_async ->
  simple_failed async = true ->
  simple_error async = Some e ->
  realm_kerberos_kinit_ccache_finish async w =
  Some ((None,
         Some (if is_auth_failure (Some e)
               then mkGError REALM_ERROR REALM_ERROR_AUTH_FAILED
                      ("Couldn't authenticate as: " +:+ kinit_principal (op_res async)
                       +:+ ": " +:+ message e)
               else e),
         mkSimpleAsyncResult TAG_realm_kerberos_kinit_ccache_async true None (op_res async)),
        add_events w [EvDiagnosticsError (kinit_invocation (op_res async)) (Some e) None]).
Proof.
  intros Htag Hfailed Herror.
  unfold realm_kerberos_kinit_ccache_finish, g_simple_async_result_propagate_error.
  rewrite Htag, Hfailed, Herror. decide_tests. cbn [negb].
  destruct (is_auth_failure (Some e)); unfold_m; reflexivity.
Qed.

Lemma kinit_ccache_finish_succeeded `{Constants} (async : GSimpleAsyncResult) (w : World) :
  source_tag async = TAG_realm_kerberos_kinit_ccache_async ->
  simple_failed async = false ->
  realm_kerberos_kinit_ccache_finish async w =
  Some ((kinit_ccache_file (op_res async), None, with_ccache_file async None), w).
Proof.
  intros Htag Hok.
  unfold realm_kerberos_kinit_ccache_finish, g_simple_async_result_propagate_error.
  rewrite Htag, Hok. decide_tests. cbn [negb]. reflexivity.
Qed.

(** C8, as the code has it: after a failed acquisition the finish function
    returns no path, and the cache file named in the closure is gone once
    the closure is freed; after a successful one the first call of the finish
    function returns the path of the created file and clears ccache_file, so
    the file outlives the closure. A second call on the same result is not
    refused: it returns no path and sets no error. *)
Theorem C8_ticket_cache_ownership `{Constants} :
  forall (krb5 : Krb5) (self : RealmKerberos) (name : string) (password : list ascii)
         (enctypes : option (list Z)) (invocation : Invocation) (w : World),
  exists async1 w1,
    kinit_ccache_thread_func krb5
      (realm_kerberos_kinit_ccache_async self name password enctypes invocation) w =
    Some (async1, w1)
    /\ (simple_failed async1 = true ->
        exists error async2 w2,
          realm_kerberos_kinit_ccache_finish async1 w1 =
          Some ((None, Some error, async2), w2)
          /\ kinit_ccache_file (op_res async2) = kinit_ccache_file (op_res async1)
          /\ exists w3,
               g_simple_async_result_finalize async2 w2 = Some (tt, w3)
               /\ (forall file, file ∈ files w1 -> file ∉ files w -> file ∉ files w3)
               /\ (forall file,
                      kinit_ccache_file (op_res async1) = Some file -> file ∉ files w3))
    /\ (simple_failed async1 = false ->
        exists file async2,
          kinit_ccache_file (op_res async1) = Some file
          /\ file ∈ files w1
          /\ realm_kerberos_kinit_ccache_finish async1 w1 =
             Some ((Some file, None, async2), w1)
          /\ kinit_ccache_file (op_res async2) = None
          /\ (exists w3,
                 g_simple_async_result_finalize async2 w1 = Some (tt, w3)
                 /\ file ∈ files w3)
          /\ realm_kerberos_kinit_ccache_finish async2 w1 =
             Some ((None, None, async2), w1)).
Proof.
  intros krb5 self name password enctypes invocation w.
  destruct (kinit_ccache_thread_func_outcome krb5 self name password enctypes invocation w)
    as (async1 & created & Hrun & Htag & Hinv & Hcases).
  eexists async1, _. split; [exact Hrun |]. split.
  - intros Hfailed.
    destruct Hcases as [(_ & (e & Herror & _) & Hcreated) | (Hok & _)]; [| congruence].
    rewrite (kinit_ccache_finish_failed async1 e _ Htag Hfailed Herror).
    eexists _, _, _. split; [reflexivity |]. split; [reflexivity |].
    unfold g_simple_async_result_finalize, kinit_closure_free. cbn [op_res].
    destruct (kinit_ccache_file (op_res async1)) as [named|] eqn:Hnamed;
      cbn [realm_credential_ccache_delete_and_free]; unfold_m; cbn;
      (eexists; split; [reflexivity |]); cbn.
    + split.
      * intros file Hin Hnew. apply elem_of_union in Hin as [Hin | Hin]; [| contradiction].
        specialize (Hcreated file Hin). injection Hcreated as ->.
        apply not_elem_of_difference. right. apply elem_of_singleton. reflexivity.
      * intros file Hfile. injection Hfile as ->.
        apply not_elem_of_difference. right. apply elem_of_singleton. reflexivity.
    + split.
      * intros file Hin Hnew. apply elem_of_union in Hin as [Hin | Hin]; [| contradiction].
        specialize (Hcreated file Hin). discriminate Hcreated.
      * intros file Hfile. discriminate Hfile.
  - intros Hok.
    destruct Hcases as [(Hfailed & _) | (_ & _ & file & Hfile & ->)]; [congruence |].
    exists file, (with_ccache_file async1 None).
    split; [exact Hfile |]. split; [cbn; set_solver |].
    split; [rewrite (kinit_ccache_finish_succeeded async1 _ Htag Hok), Hfile; reflexivity |].
    split; [reflexivity |]. split.
    + unfold g_simple_async_result_finalize, kinit_closure_free. cbn. unfold_m.
      eexists. split; [reflexivity |]. cbn. set_solver.
    + rewrite kinit_ccache_finish_succeeded; [reflexivity | exact Htag | exact Hok].
Qed.

(** The claim as the design document words it fails on a second call of
    the finish function: the first call hands back the path, the second
    hands back neither a path nor an error, so nothing signals Internal. *)
Lemma C8_counterexample :
  option_map fst
    (acquire_and_finish_twice (H := realmd_constants) (sample_krb5 0) admin_acquisition
       idle_world) =
  Some ((Some "/tmp/realmd-krb5-cache.A1B2C3", None), (None, None)).
Proof. reflexivity. Qed.

(** C9: when the acquisition fails, the finish function first hands the
    underlying error to the diagnostics sink; the error it then sets is
    AuthFailed exactly when the underlying error is a Kerberos error with one
    of the six credential-problem codes, and is the underlying error itself,
    unchanged, in every other case. *)
Theorem C9_auth_failed_classification `{Constants} :
  forall (krb5 : Krb5) (self : RealmKerberos) (name : string) (password : list ascii)
         (enctypes : option (list Z)) (invocation : Invocation) (w : World),
  exists async1 w1,
    kinit_ccache_thread_func krb5
      (realm_kerberos_kinit_ccache_async self name password enctypes invocation) w =
    Some (async1, w1)
    /\ (simple_failed async1 = true ->
        exists underlying surfaced async2,
          simple_error async1 = Some underlying
          /\ realm_kerberos_kinit_ccache_finish async1 w1 =
             Some ((None, Some surfaced, async2),
                   add_events w1 [EvDiagnosticsError invocation (Some underlying) None])
          /\ ((domain surfaced = REALM_ERROR /\ code surfaced = REALM_ERROR_AUTH_FAILED)
              <-> (domain underlying = REALM_KRB5_ERROR
                   /\ auth_failure_code (code underlying)))
          /\ (~ (domain underlying = REALM_KRB5_ERROR /\ auth_failure_code (code underlying))
              -> surfaced = underlying)).
Proof.
  intros krb5 self name password enctypes invocation w.
  destruct (kinit_ccache_thread_func_outcome krb5 self name password enctypes invocation w)
    as (async1 & created & Hrun & Htag & Hinv & Hcases).
  eexists async1, _. split; [exact Hrun |].
  intros Hfailed.
  destruct Hcases as [(_ & (e & Herror & Hdomain) & _) | (Hok & _)]; [| congruence].
  rewrite (kinit_ccache_finish_failed async1 e _ Htag Hfailed Herror), Hinv.
  pose proof (is_auth_failure_codes e) as Hcodes.
  destruct (is_auth_failure (Some e)) eqn:Hauth.
  - eexists e, _, _. split; [exact Herror |]. split; [reflexivity |]. split.
    + cbn. split; [intros _; apply Hcodes; reflexivity | intros _; split; reflexivity].
    + intros Hnot. exfalso. apply Hnot, Hcodes. reflexivity.
  - eexists e, _, _. split; [exact Herror |]. split; [reflexivity |]. split.
    + split.
      * intros [Hrealm _]. destruct Hdomain as [Hd | Hd]; rewrite Hd in Hrealm; discriminate.
      * intros Hyes. apply Hcodes in Hyes. discriminate.
    + intros _. reflexivity.
Qed.

(** ** The lock around a method call *)

Lemma replied_then_unlocked_intro (invocation : Invocation) (pre post : list Event)
    (diagnostic : Event) (reply : Reply) :
  forallb quiet pre = true ->
  quiet diagnostic = true ->
  forallb quiet post = true ->
  replied_then_unlocked invocation
    (pre ++ [diagnostic; EvReply invocation reply; EvUnlock invocation] ++ post).
Proof.
  intros Hpre Hdiag Hpost. exists (pre ++ [diagnostic]), reply, post.
  split; [rewrite <- app_assoc; reflexivity |]. split; [| exact Hpost].
  rewrite forallb_app, Hpre. cbn. rewrite Hdiag. reflexivity.
Qed.

Lemma replied_then_unlocked_after (invocation : Invocation) (before calls : list Event) :
  forallb quiet before = true ->
  replied_then_unlocked invocation calls ->
  replied_then_unlocked invocation (before ++ calls).
Proof.
  intros Hbefore (pre & reply & post & -> & Hpre & Hpost).
  exists (before ++ pre), reply, post.
  split; [rewrite <- app_assoc; reflexivity |]. split; [| exact Hpost].
  rewrite forallb_app, Hbefore, Hpre. reflexivity.
Qed.

Lemma quiet_calls_filtered (calls : list Event) :
  forallb quiet calls = true ->
  List.filter is_reply calls = [] /\ List.filter is_unlock calls = [].
Proof.
  induction calls as [|e rest IH]; cbn [forallb List.filter]; [split; reflexivity |].
  intros Hall. apply andb_true_iff in Hall as [He Hrest].
  unfold quiet in He. apply andb_true_iff in He as [Hreply Hunlock].
  apply negb_true_iff in Hreply, Hunlock. rewrite Hreply, Hunlock. apply IH, Hrest.
Qed.

(** The shape says it: one reply and one unlock in all. *)
Lemma replied_then_unlocked_once (invocation : Invocation) (calls : list Event) :
  replied_then_unlocked invocation calls ->
  List.length (List.filter is_reply calls) = 1%nat
  /\ List.length (List.filter is_unlock calls) = 1%nat.
Proof.
  intros (pre & reply & post & -> & Hpre & Hpost).
  destruct (quiet_calls_filtered pre Hpre) as [Hpre_reply Hpre_unlock].
  destruct (quiet_calls_filtered post Hpost) as [Hpost_reply Hpost_unlock].
  rewrite !List.filter_app, Hpre_reply, Hpre_unlock. cbn.
  rewrite Hpost_reply, Hpost_unlock. split; reflexivity.
Qed.

Lemma closure_free_events_quiet (closure : MethodClosure) :
  forallb quiet (closure_free_events closure) = true.
Proof. unfold closure_free_events. destruct (closure_cred closure); reflexivity. Qed.

Lemma add_events_add_events (w : World) (first second : list Event) :
  add_events (add_events w first) second = add_events w (first ++ second).
Proof. unfold add_events. cbn. rewrite <- app_assoc. reflexivity. Qed.

Lemma add_events_with_lock (w : World) (holder : option Invocation) (calls : list Event) :
  add_events (with_lock w holder) calls = with_lock (add_events w calls) holder.
Proof. reflexivity. Qed.

Lemma with_lock_twice (w : World) (first second : option Invocation) :
  with_lock (with_lock w first) second = with_lock w second.
Proof. reflexivity. Qed.

Lemma on_name_caches_flush_replied (env : Env) (flushed : GAsyncResult)
    (closure : MethodClosure) (w : World) :
  replied (closure_invocation closure) w (on_name_caches_flush env flushed closure w).
Proof.
  rewrite on_name_caches_flush_run. eexists. split; [reflexivity |].
  destruct (fst (realm_command_run_finish env flushed) =? 0).
  - apply (replied_then_unlocked_intro _ [EvCommandFinish]);
      [reflexivity | reflexivity | apply closure_free_events_quiet].
  - apply (replied_then_unlocked_intro _ [EvCommandFinish; EvDiagnosticsError _ _ _]);
      [reflexivity | reflexivity | apply closure_free_events_quiet].
Qed.

Ltac close_reply pre :=
  eexists; split;
  [ unfold_m; cbn; flat_trace; reflexivity
  | apply (replied_then_unlocked_intro _ pre);
    [ reflexivity | assumption || reflexivity
    | first [ apply closure_free_events_quiet | reflexivity ] ] ].

Lemma on_enroll_complete_outcome (env : Env) (result : GAsyncResult)
    (closure : MethodClosure) (w : World) (iface : RealmKerberosMembershipIface)
    (finish : FinishFn) :
  REALM_KERBEROS_MEMBERSHIP_GET_IFACE (closure_self closure) = Some iface ->
  join_finish iface = Some finish ->
  replied (closure_invocation closure) w (on_enroll_complete env result closure w)
  \/ on_enroll_complete env result closure w =
     Some (tt, with_pending
                 (add_events w [EvJoinFinish;
                                EvCommandAsync "name-caches-flush" (closure_invocation closure)])
                 (pending w ++ [(CB_on_name_caches_flush, closure)])).
Proof.
  intros Hiface Hfinish. unfold on_enroll_complete. rewrite Hiface, Hfinish. step_m.
  destruct (bool_decide (closure_invocation closure ∈ cancelled w)); step_m.
  - left.
    match goal with |- context [enroll_method_reply ?i ?e ?x] =>
      destruct (enroll_method_reply_shape i e x) as (diagnostic & reply & -> & Hquiet) end.
    rewrite method_closure_free_run. close_reply (@nil Event).
  - destruct (snd (finish result)) as [e|]; step_m.
    + left.
      match goal with |- context [enroll_method_reply ?i ?e ?x] =>
        destruct (enroll_method_reply_shape i e x) as (diagnostic & reply & -> & Hquiet) end.
      rewrite method_closure_free_run. close_reply [EvJoinFinish].
    + destruct (realm_daemon_is_install_mode env); step_m.
      * left. rewrite enroll_method_reply_success. close_reply [EvJoinFinish].
      * right. flat_trace. reflexivity.
Qed.

Lemma on_unenroll_complete_outcome (result : GAsyncResult) (closure : MethodClosure)
    (w : World) (iface : RealmKerberosMembershipIface) (finish : FinishFn) :
  REALM_KERBEROS_MEMBERSHIP_GET_IFACE (closure_self closure) = Some iface ->
  leave_finish iface = Some finish ->
  replied (closure_invocation closure) w (on_unenroll_complete result closure w).
Proof.
  intros Hiface Hfinish. unfold on_unenroll_complete. rewrite Hiface, Hfinish. step_m.
  destruct (bool_decide (closure_invocation closure ∈ cancelled w)); step_m.
  - match goal with |- context [unenroll_method_reply ?i ?e ?x] =>
      destruct (unenroll_method_reply_shape i e x) as (diagnostic & reply & -> & Hquiet) end.
    rewrite method_closure_free_run. close_reply (@nil Event).
  - match goal with |- context [unenroll_method_reply ?i ?e ?x] =>
      destruct (unenroll_method_reply_shape i e x) as (diagnostic & reply & -> & Hquiet) end.
    rewrite method_closure_free_run. close_reply [EvLeaveFinish].
Qed.

Lemma on_logins_complete_outcome (result : GAsyncResult) (closure : MethodClosure)
    (w : World) (finish : FinishFn) :
  logins_finish (REALM_KERBEROS_GET_CLASS (closure_self closure)) = Some finish ->
  replied (closure_invocation closure) w (on_logins_complete result closure w).
Proof.
  intros Hfinish. unfold on_logins_complete. rewrite Hfinish.
  destruct (finish result) as [ok error].
  destruct ok; [| destruct error as [e|]; [destruct (domain_is_realm_or_dbus e) |]];
    step_m; rewrite method_closure_free_run; close_reply [EvLoginsFinish].
Qed.

Ltac close_not_locked :=
  left; eexists _, _; split;
  [ unfold add_events; cbn; flat_trace; reflexivity | reflexivity ].

Ltac close_dispatched :=
  right; eexists _, _, _; split;
  [ unfold add_events, with_lock, with_pending; cbn; flat_trace; reflexivity
  | repeat split; first [ reflexivity | eexists; reflexivity ] ].

Lemma join_or_leave_outcome (env : Env) (self : RealmKerberos) (credential : GVariant)
    (flags : RealmKerberosFlags) (options : GVariantDict) (invocation : Invocation)
    (join : bool) (iface : RealmKerberosMembershipIface) (w : World) :
  REALM_KERBEROS_MEMBERSHIP_GET_IFACE self = Some iface ->
  direction_ready iface join ->
  let outcome := join_or_leave env self credential flags options invocation join w in
  not_locked w outcome
  \/ dispatched self invocation
       (if join then CB_on_enroll_complete else CB_on_unenroll_complete) w outcome.
Proof.
  intros Hiface Hready outcome. subst outcome.
  destruct w as [holder stopped existing waiting calls0].
  unfold join_or_leave, not_locked, dispatched, finish_of. rewrite Hiface.
  destruct join; cbn [direction_ready] in Hready;
    [pose proof Hready as Hjoin | pose proof Hready as Hleave].
  - destruct (join_async iface) as [entry|]; cbn [is_null andb orb negb]; step_m;
      [| close_not_locked].
    destruct (Hjoin (ex_intro _ entry eq_refl)) as [finish ->].
    destruct (credential_parse env credential) as [error | cred]; step_m;
      [close_not_locked |].
    destruct (is_credential_supported iface cred true); step_m; [close_not_locked |].
    destruct holder; step_m; [close_not_locked | close_dispatched].
  - destruct (leave_async iface) as [entry|]; cbn [is_null andb orb negb]; step_m;
      [| close_not_locked].
    destruct (Hleave (ex_intro _ entry eq_refl)) as [finish ->].
    destruct (credential_parse env credential) as [error | cred]; step_m;
      [close_not_locked |].
    destruct (is_credential_supported iface cred false); step_m; [close_not_locked |].
    destruct holder; step_m; [close_not_locked | close_dispatched].
Qed.

Lemma not_locked_bind {A : Type} (m : M unit) (a : A) (w : World) :
  not_locked w (m w) -> not_locked w ((m;; mret a) w).
Proof.
  intros (u & calls & Hrun & Hcalls). exists a, calls. split; [| exact Hcalls].
  unfold_m. rewrite Hrun. reflexivity.
Qed.

Lemma dispatched_bind {A : Type} (m : M unit) (a : A) (self : RealmKerberos)
    (invocation : Invocation) (callback : GAsyncReadyCallback) (w : World) :
  dispatched self invocation callback w (m w) ->
  dispatched self invocation callback w ((m;; mret a) w).
Proof.
  intros (u & calls & closure & Hrun & Hrest). exists a, calls, closure.
  split; [| exact Hrest]. unfold_m. rewrite Hrun. reflexivity.
Qed.

(** Every handler either returns without the lock or holds it with its
    completion callback pending. *)
Lemma handle_outcome `{Constants} (env : Env) (op : Operation) (self : RealmKerberos)
    (invocation : Invocation) (w : World) :
  entry_points_ready op self ->
  not_locked w (handle env op self invocation w)
  \/ dispatched self invocation (callback_of op) w (handle env op self invocation w).
Proof.
  intros Hready.
  destruct op as [credentials options | credentials options | options
                 | login_policy add remove options];
    cbn [handle callback_of entry_points_ready] in Hready |- *.
  - destruct Hready as (iface & Hiface & Hpair).
    unfold handle_join. destruct (hostname_not_set (gethostname env)).
    + left. exists true. eexists. split; [step_m; reflexivity | reflexivity].
    + match goal with |- context [join_or_leave env self credentials ?f options invocation true] =>
        destruct (join_or_leave_outcome env self credentials f options invocation true
                    iface w Hiface Hpair) as [Hout | Hout] end.
      * left. apply not_locked_bind, Hout.
      * right. apply dispatched_bind, Hout.
  - destruct Hready as (iface & Hiface & Hpair). unfold handle_leave.
    destruct (g_variant_lookup_s options REALM_DBUS_OPTION_COMPUTER_OU).
    + left. exists true. eexists. split; [step_m; reflexivity | reflexivity].
    + destruct (join_or_leave_outcome env self credentials 0 options invocation false
                  iface w Hiface Hpair) as [Hout | Hout].
      * left. apply not_locked_bind, Hout.
      * right. apply dispatched_bind, Hout.
  - destruct Hready as (iface & Hiface & Hpair). unfold handle_deconfigure.
    destruct (join_or_leave_outcome env self deconfigure_credential 0 options invocation
                false iface w Hiface Hpair) as [Hout | Hout].
    + left. apply not_locked_bind, Hout.
    + right. apply dispatched_bind, Hout.
  - destruct Hready as [[entry Hentry] [finish Hfinish]].
    destruct w as [holder stopped existing waiting calls0].
    unfold handle_change_login_policy, not_locked, dispatched, finish_of.
    rewrite Hfinish.
    destruct (scan_policies _ _ _) as [[policy policies_set]|]; [| step_m; close_not_locked].
    destruct (1 <? policies_set); step_m; [close_not_locked |].
    destruct holder; step_m; [close_not_locked |].
    rewrite Hentry. step_m. close_dispatched.
Qed.

Lemma complete_idle (env : Env) (result : GAsyncResult) (w : World) :
  pending w = [] -> complete env result w = Some (tt, w).
Proof.
  intros Hidle. unfold complete, take_pending. unfold_m. rewrite Hidle. reflexivity.
Qed.

Lemma drain_idle (env : Env) (results : list GAsyncResult) (w : World) :
  pending w = [] -> drain env results w = Some (tt, w).
Proof.
  intros Hidle. induction results as [|result rest IH]; [reflexivity |].
  cbn [drain]. unfold_m. rewrite (complete_idle env result w Hidle). exact IH.
Qed.

Lemma complete_delivers (env : Env) (result : GAsyncResult) (w : World)
    (callback : GAsyncReadyCallback) (closure : MethodClosure)
    (rest : list (GAsyncReadyCallback * MethodClosure)) :
  pending w = (callback, closure) :: rest ->
  complete env result w =
  match callback with
  | CB_on_enroll_complete => on_enroll_complete env result closure
  | CB_on_unenroll_complete => on_unenroll_complete result closure
  | CB_on_logins_complete => on_logins_complete result closure
  | CB_on_name_caches_flush => on_name_caches_flush env result closure
  end (with_pending w rest).
Proof.
  intros Hpending. unfold complete, take_pending. unfold_m. rewrite Hpending.
  destruct callback; reflexivity.
Qed.

(** Two completions are enough to bring a locked method call to its reply. *)
Lemma locked_call_completes (env : Env) (self : RealmKerberos) (invocation : Invocation)
    (callback : GAsyncReadyCallback) (closure : MethodClosure) (w : World)
    (first second : GAsyncResult) :
  pending w = [(callback, closure)] ->
  closure_invocation closure = invocation ->
  closure_self closure = self ->
  is_Some (finish_of self callback) ->
  exists calls,
    (complete env first;; complete env second) w =
    Some (tt, with_pending (with_lock (add_events w calls) None) [])
    /\ replied_then_unlocked invocation calls.
Proof.
  intros Hpending <- <- [finish Hfinish].
  unfold mbind, M_bind. rewrite (complete_delivers env first w _ _ _ Hpending).
  destruct callback; cbn [finish_of] in Hfinish.
  - destruct (REALM_KERBEROS_MEMBERSHIP_GET_IFACE (closure_self closure))
      as [iface|] eqn:Hiface; [| discriminate].
    destruct (on_enroll_complete_outcome env first closure (with_pending w []) iface finish
                Hiface Hfinish) as [(calls & -> & Hcalls) | ->].
    + exists calls. split; [| exact Hcalls]. apply complete_idle. reflexivity.
    + rewrite (complete_delivers env second _ CB_on_name_caches_flush closure []);
        [| reflexivity].
      destruct (on_name_caches_flush_replied env second closure
                  (with_pending
                     (with_pending
                        (add_events (with_pending w [])
                           [EvJoinFinish;
                            EvCommandAsync "name-caches-flush" (closure_invocation closure)])
                        (pending (with_pending w []) ++ [(CB_on_name_caches_flush, closure)]))
                     [])) as (calls & -> & Hcalls).
      eexists. split.
      * unfold add_events, with_lock, with_pending. cbn. flat_trace. reflexivity.
      * apply (replied_then_unlocked_after _ [EvJoinFinish; EvCommandAsync _ _]);
          [reflexivity | exact Hcalls].
  - destruct (REALM_KERBEROS_MEMBERSHIP_GET_IFACE (closure_self closure))
      as [iface|] eqn:Hiface; [| discriminate].
    destruct (on_unenroll_complete_outcome first closure (with_pending w []) iface finish
                Hiface Hfinish) as (calls & -> & Hcalls).
    exists calls. split; [| exact Hcalls]. apply complete_idle. reflexivity.
  - destruct (on_logins_complete_outcome first closure (with_pending w []) finish Hfinish)
      as (calls & -> & Hcalls).
    exists calls. split; [| exact Hcalls]. apply complete_idle. reflexivity.
  - discriminate.
Qed.

(** A completion that replies frees the lock, whatever the back-end is. *)
Lemma complete_reply_unlocks (env : Env) (result : GAsyncResult) (w w' : World)
    (calls : list Event) :
  complete env result w = Some (tt, w') ->
  trace w' = trace w ++ calls ->
  existsb is_reply calls = true ->
  current_invocation w' = None.
Proof.
  intros Hrun Htrace Hreply.
  destruct (pending w) as [|[callback closure] rest] eqn:Hpending.
  { exfalso. rewrite (complete_idle env result w Hpending) in Hrun.
    injection Hrun as <-. rewrite <- (app_nil_r (trace w)) in Htrace at 1.
    apply app_inv_head in Htrace. subst calls. discriminate. }
  rewrite (complete_delivers env result w _ _ _ Hpending) in Hrun.
  assert (Hquiet : forall (said : list Event),
             Some (tt, w') = Some (tt, add_events (with_pending w rest) said) ->
             existsb is_reply said = false -> False).
  { intros said Heq Hsaid. injection Heq as ->. cbn in Htrace.
    apply app_inv_head in Htrace. subst calls. congruence. }
  assert (Hdone : forall invocation,
             replied invocation (with_pending w rest) (Some (tt, w')) ->
             current_invocation w' = None).
  { intros invocation (said & Heq & _). injection Heq as ->. reflexivity. }
  destruct callback.
  - unfold on_enroll_complete in Hrun.
    destruct (REALM_KERBEROS_MEMBERSHIP_GET_IFACE (closure_self closure))
      as [iface|] eqn:Hiface; [| discriminate].
    destruct (join_finish iface) as [finish|] eqn:Hfinish.
    + fold (on_enroll_complete env result closure) in Hrun.
      pose proof (on_enroll_complete_outcome env result closure (with_pending w rest)
                    iface finish Hiface Hfinish) as Hout.
      unfold on_enroll_complete in Hout. rewrite Hiface, Hfinish in Hout.
      rewrite Hrun in Hout. destruct Hout as [Hout | Hout].
      * apply (Hdone _ Hout).
      * exfalso. injection Hout as ->. cbn in Htrace.
        apply app_inv_head in Htrace. subst calls. discriminate.
    + exfalso. apply (Hquiet [EvCritical "iface->join_finish != NULL"]);
        [rewrite <- Hrun; reflexivity | reflexivity].
  - unfold on_unenroll_complete in Hrun.
    destruct (REALM_KERBEROS_MEMBERSHIP_GET_IFACE (closure_self closure))
      as [iface|] eqn:Hiface; [| discriminate].
    destruct (leave_finish iface) as [finish|] eqn:Hfinish.
    + pose proof (on_unenroll_complete_outcome result closure (with_pending w rest)
                    iface finish Hiface Hfinish) as Hout.
      unfold on_unenroll_complete in Hout. rewrite Hiface, Hfinish in Hout.
      rewrite Hrun in Hout. apply (Hdone _ Hout).
    + exfalso. apply (Hquiet [EvCritical "iface->leave_finish != NULL"]);
        [rewrite <- Hrun; reflexivity | reflexivity].
  - unfold on_logins_complete in Hrun.
    destruct (logins_finish (REALM_KERBEROS_GET_CLASS (closure_self closure)))
      as [finish|] eqn:Hfinish.
    + pose proof (on_logins_complete_outcome result closure (with_pending w rest)
                    finish Hfinish) as Hout.
      unfold on_logins_complete in Hout. rewrite Hfinish in Hout.
      rewrite Hrun in Hout. apply (Hdone _ Hout).
    + exfalso. apply (Hquiet [EvCritical "klass->logins_finish != NULL"]);
        [rewrite <- Hrun; reflexivity | reflexivity].
  - pose proof (on_name_caches_flush_replied env result closure (with_pending w rest))
      as Hout.
    rewrite Hrun in Hout. apply (Hdone _ Hout).
Qed.

(** C2: the lock is not released on every exit path of a call that took
    it. ChangeLoginPolicy on a realm object whose class sets no
    logins_async, and Join on a realm whose back-end has join_async and no
    join_finish, take the lock and return at the assertion that follows:
    no reply is made, nothing is handed to a back-end, so that whatever
    completes later finds nothing pending, and the lock stays with the
    invocation. The next call, on any realm, is then answered Busy. *)
Theorem C2_lock_held_after_failed_assertion :
  forall results : list GAsyncResult,
    let held_by_policy :=
      mkWorld (Some 7%nat) [] ∅ []
        [EvLock 7%nat true; EvCritical "klass->logins_async != NULL"] in
    let held_by_join :=
      mkWorld (Some 7%nat) [] ∅ []
        [EvCredentialParse password_wire; EvLock 7%nat true;
         EvCritical "iface->join_finish != NULL"] in
    run (H := realmd_constants) sample_env (OpChangeLoginPolicy "any" [] [] []) plain_realm
      7%nat results idle_world = Some (tt, held_by_policy)
    /\ run (H := realmd_constants) sample_env (OpJoin password_wire []) unfinished_realm
         7%nat results idle_world = Some (tt, held_by_join)
    /\ handle (H := realmd_constants) sample_env (OpChangeLoginPolicy "any" [] [] [])
         sample_realm 8%nat held_by_policy =
       Some (true, add_events held_by_policy
         [EvLock 8%nat false;
          EvReply 8%nat
            (ReturnError (mkGError REALM_ERROR REALM_ERROR_BUSY
               "Already running another action"))]).
Proof.
  intros results held_by_policy held_by_join. split; [| split].
  - unfold run, mbind, M_bind.
    assert (Hhandle : handle (H := realmd_constants) sample_env
                        (OpChangeLoginPolicy "any" [] [] []) plain_realm 7%nat idle_world =
                      Some (false, held_by_policy)) by reflexivity.
    rewrite Hhandle. apply drain_idle. reflexivity.
  - unfold run, mbind, M_bind.
    assert (Hhandle : handle (H := realmd_constants) sample_env (OpJoin password_wire [])
                        unfinished_realm 7%nat idle_world =
                      Some (true, held_by_join)) by reflexivity.
    rewrite Hhandle. apply drain_idle. reflexivity.
  - reflexivity.
Qed.

(** A join followed to its end: the calls in the order they are made. *)
Example join_call_trace :
  option_map (fun r => (current_invocation (snd r), trace (snd r)))
    (run (H := realmd_constants) sample_env (OpJoin password_wire []) sample_realm 7%nat
       [BackendResult true None; CommandResult 0 None] idle_world) =
  Some (None,
    let cred := mkCredential REALM_CREDENTIAL_PASSWORD REALM_CREDENTIAL_OWNER_ADMIN
                  (payload_userpass "admin" (list_ascii_of_string "secret")) in
    [EvCredentialParse password_wire;
     EvLock 7%nat true;
     EvJoinAsync (async_entry "sample_join_async") cred 0 [] 7%nat;
     EvJoinFinish;
     EvCommandAsync "name-caches-flush" 7%nat;
     EvCommandFinish;
     EvDiagnosticsInfo 7%nat "Successfully enrolled machine in realm";
     EvReply 7%nat ReturnValue;
     EvUnlock 7%nat;
     EvCredentialUnref cred;
     EvClosureFree 7%nat]).
Proof. reflexivity. Qed.

(** ** The statements at concrete inputs *)

Lemma C1_credential_support_check_witness :
  join_or_leave sample_env sample_realm secret_wire 0 [] 7%nat true idle_world =
  Some (tt, add_events idle_world
    [EvCredentialParse secret_wire;
     EvReply 7%nat
       (ReturnError (mkGError G_DBUS_ERROR G_DBUS_ERROR_NOT_SUPPORTED
          "Joining this realm using a secret is not supported"));
     EvCredentialUnref
       (mkCredential REALM_CREDENTIAL_SECRET REALM_CREDENTIAL_OWNER_ADMIN
          (payload_secret (list_ascii_of_string "otp")))]).
Proof.
  destruct (C1_credential_support_check sample_iface
              (mkCredential REALM_CREDENTIAL_SECRET REALM_CREDENTIAL_OWNER_ADMIN
                 (payload_secret (list_ascii_of_string "otp"))) true)
    as (_ & Hfails & _).
  assert (Hnot : REALM_CREDENTIAL_SECRET
                 ∉ [REALM_CREDENTIAL_PASSWORD; REALM_CREDENTIAL_CCACHE]).
  { intros Hin. apply elem_of_cons in Hin as [Hin | Hin]; [discriminate Hin |].
    apply elem_of_cons in Hin as [Hin | Hin]; [discriminate Hin | inversion Hin]. }
  destruct (Hfails Hnot) as [_ Hreply].
  apply (Hreply sample_env sample_realm secret_wire 0 [] 7%nat idle_world eq_refl
           (ex_intro _ (async_entry "sample_join_async") eq_refl) eq_refl).
Defined.


Lemma C8_ticket_cache_ownership_witness :
  exists async1 w1,
    kinit_ccache_thread_func (sample_krb5 0) admin_acquisition idle_world = Some (async1, w1)
    /\ exists file async2,
         realm_kerberos_kinit_ccache_finish (H := realmd_constants) async1 w1 =
         Some ((Some file, None, async2), w1)
         /\ file ∈ files w1
         /\ realm_kerberos_kinit_ccache_finish (H := realmd_constants) async2 w1 =
            Some ((None, None, async2), w1).
Proof.
  destruct (C8_ticket_cache_ownership (H := realmd_constants) (sample_krb5 0) sample_realm
              "admin" (list_ascii_of_string "secret") None 7%nat idle_world)
    as (async1 & w1 & Hrun & _ & Hsucceeded).
  exists async1, w1. split; [exact Hrun |].
  assert (Hok : simple_failed async1 = false).
  { apply (f_equal (option_map (fun r => simple_failed (fst r)))) in Hrun.
    cbn in Hrun. injection Hrun as <-. reflexivity. }
  destruct (Hsucceeded Hok) as (file & async2 & _ & Hin & Hfirst & _ & _ & Hsecond).
  exists file, async2. split; [exact Hfirst |]. split; [exact Hin | exact Hsecond].
Defined.

Lemma C9_auth_failed_classification_witness :
  exists async1 w1,
    kinit_ccache_thread_func (sample_krb5 (-1765328360)) admin_acquisition idle_world =
    Some (async1, w1)
    /\ exists surfaced async2 w2,
         realm_kerberos_kinit_ccache_finish (H := realmd_constants) async1 w1 =
         Some ((None, Some surfaced, async2), w2)
         /\ domain surfaced = REALM_ERROR
         /\ code surfaced = REALM_ERROR_AUTH_FAILED.
Proof.
  destruct (C9_auth_failed_classification (H := realmd_constants)
              (sample_krb5 (-1765328360)) sample_realm "admin"
              (list_ascii_of_string "secret") None 7%nat idle_world)
    as (async1 & w1 & Hrun & Hfailure).
  exists async1, w1. split; [exact Hrun |].
  assert (Hfailed : simple_failed async1 = true).
  { apply (f_equal (option_map (fun r => simple_failed (fst r)))) in Hrun.
    cbn in Hrun. injection Hrun as <-. reflexivity. }
  destruct (Hfailure Hfailed) as (underlying & surfaced & async2 & Herror & Hfinish & Hauth & _).
  eexists surfaced, async2, _. split; [exact Hfinish |].
  apply Hauth.
  apply (f_equal (option_map (fun r => simple_error (fst r)))) in Hrun.
  cbn in Hrun. rewrite Herror in Hrun. injection Hrun as <-.
  split; [reflexivity | left; reflexivity].
Defined.

(** A failure that is not a credential problem comes back as it is. *)
Example kinit_other_failure :
  option_map fst
    (acquire_and_finish_twice (H := realmd_constants) (sample_krb5 (-1765328228))
       admin_acquisition idle_world) =
  Some ((None, Some (mkGError REALM_KRB5_ERROR (code_number (-1765328228))
                       "Couldn't authenticate as: admin@EXAMPLE.COM: error")),
        (None, None)).
Proof. reflexivity. Qed.

(** * Further properties of the code *)

(** ** What a caller is told *)

(** X1: enroll_method_reply and unenroll_method_reply answer with success
    exactly when there is no error; an error of the realmd or D-Bus domain
    is passed on as it is, and any other error is replaced by a realmd
    error, Cancelled exactly when it was G_IO_ERROR_CANCELLED and Failed
    otherwise. Both functions then unlock. *)
Theorem method_reply_taxonomy :
  forall (invocation : Invocation) (error : option GError) (w : World),
  exists diagnostic joined left,
    enroll_method_reply invocation error w =
    Some (tt, with_lock (add_events w
      [diagnostic; EvReply invocation joined; EvUnlock invocation]) None)
    /\ (exists diagnostic',
           unenroll_method_reply invocation error w =
           Some (tt, with_lock (add_events w
             [diagnostic'; EvReply invocation left; EvUnlock invocation]) None))
    /\ match error with
       | None => joined = ReturnValue /\ left = ReturnValue
       | Some e =>
           exists told told',
             joined = ReturnError told /\ left = ReturnError told'
             /\ public_error told /\ public_error told'
             /\ domain told' = domain told /\ code told' = code told
             /\ (public_error e -> told = e /\ told' = e)
             /\ (~ public_error e ->
                 domain told = REALM_ERROR
                 /\ (code told = REALM_ERROR_CANCELLED
                     <-> domain e = G_IO_ERROR /\ code e = G_IO_ERROR_CANCELLED)
                 /\ (code told = REALM_ERROR_FAILED
                     <-> ~ (domain e = G_IO_ERROR /\ code e = G_IO_ERROR_CANCELLED)))
       end.
Proof.
  intros invocation error w. unfold enroll_method_reply, unenroll_method_reply.
  destruct error as [[d c m]|].
  2:{ eexists _, _, _. split; [unfold_m; cbn; flat_trace; reflexivity |].
      split; [eexists; unfold_m; cbn; flat_trace; reflexivity |]. split; reflexivity. }
  unfold domain_is_realm_or_dbus, g_error_matches, public_error. cbn [domain code].
  destruct d; decide_tests; cbn [orb andb].
  1,2: eexists _, _, _; (split; [unfold_m; cbn; flat_trace; reflexivity |]);
       (split; [eexists; unfold_m; cbn; flat_trace; reflexivity |]);
       eexists _, _; cbn;
       repeat split; auto; try (intros; tauto); try (intros Hno; exfalso; apply Hno; auto).
  2,3: eexists _, _, _; (split; [unfold_m; cbn; flat_trace; reflexivity |]);
       (split; [eexists; unfold_m; cbn; flat_trace; reflexivity |]);
       eexists _, _; cbn;
       repeat split; auto; try discriminate; try (intros [? | ?]; discriminate);
       try (intros [? _]; discriminate); try (intros ? [? _]; discriminate).
  case_bool_decide as Hcode; cbn [andb];
    eexists _, _, _; (split; [unfold_m; cbn; flat_trace; reflexivity |]);
    (split; [eexists; unfold_m; cbn; flat_trace; reflexivity |]);
    eexists _, _; cbn;
    repeat split; auto; try discriminate; try (intros [? | ?]; discriminate);
    try tauto; try (intros ? [_ ?]; contradiction).
  all: match goal with Hpublic : _ \/ _ |- _ => destruct Hpublic; discriminate end.
Qed.

(** X2: on_logins_complete goes by the return value of logins_finish alone:
    TRUE is answered with success, even when an error was set; FALSE is
    answered with the error itself when it is of the realmd or D-Bus
    domain, and with the realmd Internal error when it is of another domain
    or missing. The unlock follows the reply in every case. *)
Theorem on_logins_complete_taxonomy :
  forall (result : GAsyncResult) (closure : MethodClosure) (w : World) (finish : FinishFn),
    logins_finish (REALM_KERBEROS_GET_CLASS (closure_self closure)) = Some finish ->
    let invocation := closure_invocation closure in
    exists diagnostic reply,
      on_logins_complete result closure w =
      Some (tt, with_lock (add_events w
        ([EvLoginsFinish; diagnostic; EvReply invocation reply; EvUnlock invocation]
         ++ closure_free_events closure)) None)
      /\ (fst (finish result) = true -> reply = ReturnValue)
      /\ (fst (finish result) = false ->
          exists told,
            reply = ReturnError told
            /\ public_error told
            /\ (forall e, snd (finish result) = Some e -> public_error e -> told = e)
            /\ ((snd (finish result) = None
                 \/ exists e, snd (finish result) = Some e /\ ~ public_error e) ->
                told = mkGError REALM_ERROR REALM_ERROR_INTERNAL
                         "Failed to change permitted logins. See diagnostics.")).
Proof.
  intros result closure w finish Hfinish invocation. subst invocation.
  unfold on_logins_complete. rewrite Hfinish.
  destruct (finish result) as [ok error]. cbn [fst snd].
  destruct ok.
  - eexists _, _. split.
    + step_m. rewrite method_closure_free_run. unfold_m. cbn. flat_trace. reflexivity.
    + split; [reflexivity | discriminate].
  - destruct error as [e|].
    + destruct (domain_is_realm_or_dbus e) eqn:Hdomain.
      * eexists _, _. split.
        -- step_m. rewrite method_closure_free_run. unfold_m. cbn. flat_trace. reflexivity.
        -- split; [discriminate |]. intros _. exists e.
           assert (Hpublic : public_error e).
           { unfold domain_is_realm_or_dbus in Hdomain. unfold public_error.
             apply orb_true_iff in Hdomain as [Hd | Hd]; apply bool_decide_eq_true in Hd;
               auto. }
           split; [reflexivity |]. split; [exact Hpublic |]. split.
           ++ intros e' [= <-] _. reflexivity.
           ++ intros [Hnone | (e' & [= <-] & Hforeign)]; [discriminate | contradiction].
      * eexists _, _. split.
        -- step_m. rewrite method_closure_free_run. unfold_m. cbn. flat_trace. reflexivity.
        -- split; [discriminate |]. intros _. eexists.
           split; [reflexivity |]. split; [left; reflexivity |]. split.
           ++ intros e' [= <-] Hpublic. exfalso.
              unfold domain_is_realm_or_dbus in Hdomain.
              apply orb_false_iff in Hdomain as [Hr Hd].
              apply bool_decide_eq_false in Hr, Hd. destruct Hpublic; contradiction.
           ++ intros _. reflexivity.
    + eexists _, _. split.
      * step_m. rewrite method_closure_free_run. unfold_m. cbn. flat_trace. reflexivity.
      * split; [discriminate |]. intros _. eexists.
        split; [reflexivity |]. split; [left; reflexivity |]. split.
        -- intros e Hsome. discriminate Hsome.
        -- intros _. reflexivity.
Qed.

Lemma on_logins_complete_taxonomy_witness :
  exists diagnostic,
    on_logins_complete
      (BackendResult false (Some (mkGError G_FILE_ERROR (code_number 2) "No such file")))
      (mkMethodClosure sample_realm 7%nat None) (mkWorld (Some 7%nat) [] ∅ [] []) =
    Some (tt, mkWorld None [] ∅ []
      [EvLoginsFinish; diagnostic;
       EvReply 7%nat
         (ReturnError (mkGError REALM_ERROR REALM_ERROR_INTERNAL
            "Failed to change permitted logins. See diagnostics."));
       EvUnlock 7%nat; EvClosureFree 7%nat]).
Proof.
  destruct (on_logins_complete_taxonomy
              (BackendResult false (Some (mkGError G_FILE_ERROR (code_number 2) "No such file")))
              (mkMethodClosure sample_realm 7%nat None) (mkWorld (Some 7%nat) [] ∅ [] [])
              read_result eq_refl) as (diagnostic & reply & Hrun & _ & Hfalse).
  destruct (Hfalse eq_refl) as (told & -> & _ & _ & Hinternal).
  rewrite Hinternal in Hrun.
  - exists diagnostic. exact Hrun.
  - right. eexists. split; [reflexivity |]. intros [Hd | Hd]; discriminate Hd.
Defined.

(** ** One call at a time *)

Ltac close_refusal :=
  left; eexists _; split;
  [ unfold add_events; cbn; flat_trace; reflexivity | reflexivity ].

Lemma join_or_leave_cases (env : Env) (self : RealmKerberos) (credential : GVariant)
    (flags : RealmKerberosFlags) (options : GVariantDict) (invocation : Invocation)
    (join : bool) (iface : RealmKerberosMembershipIface) (w : World) :
  REALM_KERBEROS_MEMBERSHIP_GET_IFACE self = Some iface ->
  let outcome := join_or_leave env self credential flags options invocation join w in
  (exists calls, outcome = Some (tt, add_events w calls) /\ refusal calls = true)
  \/ (current_invocation w = None
      /\ (direction_ready iface join ->
          dispatched self invocation
            (if join then CB_on_enroll_complete else CB_on_unenroll_complete) w outcome)).
Proof.
  intros Hiface outcome. subst outcome.
  destruct w as [holder stopped existing waiting calls0].
  unfold join_or_leave, dispatched, finish_of. rewrite Hiface.
  destruct join.
  - destruct (join_async iface) as [entry|] eqn:Hentry; cbn [is_null andb orb negb]; step_m;
      [| close_refusal].
    destruct (credential_parse env credential) as [error | cred]; step_m;
      [close_refusal |].
    destruct (is_credential_supported iface cred true); step_m; [close_refusal |].
    destruct holder; step_m; [close_refusal |].
    right. split; [reflexivity |]. intros Hjoin. cbn [direction_ready] in Hjoin.
    destruct (Hjoin (ex_intro _ entry Hentry)) as [finish ->].
    eexists _, _, _; split;
      [ unfold add_events, with_lock, with_pending; cbn; flat_trace; reflexivity
      | repeat split; first [ reflexivity | eexists; reflexivity ] ].
  - destruct (leave_async iface) as [entry|] eqn:Hentry; cbn [is_null andb orb negb]; step_m;
      [| close_refusal].
    destruct (credential_parse env credential) as [error | cred]; step_m;
      [close_refusal |].
    destruct (is_credential_supported iface cred false); step_m; [close_refusal |].
    destruct holder; step_m; [close_refusal |].
    right. split; [reflexivity |]. intros Hleave. cbn [direction_ready] in Hleave.
    destruct (Hleave (ex_intro _ entry Hentry)) as [finish ->].
    eexists _, _, _; split;
      [ unfold add_events, with_lock, with_pending; cbn; flat_trace; reflexivity
      | repeat split; first [ reflexivity | eexists; reflexivity ] ].
Qed.

Lemma refused_bind {A : Type} (m : M unit) (a : A) (w : World) :
  (exists calls, m w = Some (tt, add_events w calls) /\ refusal calls = true) ->
  exists (b : A) calls,
    (m;; mret a) w = Some (b, add_events w calls) /\ refusal calls = true.
Proof.
  intros (calls & Hrun & Hcalls). exists a, calls. split; [| exact Hcalls].
  unfold_m. rewrite Hrun. reflexivity.
Qed.

(** A handler either refuses, or finds the lock free and hands its
    completion callback to the back-end. *)
Lemma handle_cases `{Constants} (env : Env) (op : Operation) (self : RealmKerberos)
    (invocation : Invocation) (w : World) :
  interface_present op self ->
  let outcome := handle env op self invocation w in
  (exists b calls, outcome = Some (b, add_events w calls) /\ refusal calls = true)
  \/ (current_invocation w = None
      /\ (entry_points_ready op self ->
          dispatched self invocation (callback_of op) w outcome)).
Proof.
  intros Hpresent outcome. subst outcome.
  assert (Hpairs : forall (join : bool) iface credentials flags options,
             REALM_KERBEROS_MEMBERSHIP_GET_IFACE self = Some iface ->
             (exists (b : bool) calls,
                 (join_or_leave env self credentials flags options invocation join;;
                  mret true) w = Some (b, add_events w calls) /\ refusal calls = true)
             \/ (current_invocation w = None
                 /\ ((exists iface',
                        REALM_KERBEROS_MEMBERSHIP_GET_IFACE self = Some iface'
                        /\ direction_ready iface' join) ->
                     dispatched self invocation
                       (if join then CB_on_enroll_complete else CB_on_unenroll_complete) w
                       ((join_or_leave env self credentials flags options invocation join;;
                         mret true) w)))).
  { intros join iface credentials flags options Hiface.
    destruct (join_or_leave_cases env self credentials flags options invocation join
                iface w Hiface) as [Hrefused | [Hfree Hgo]].
    - left. apply refused_bind, Hrefused.
    - right. split; [exact Hfree |].
      intros (iface' & Hiface' & Hready).
      rewrite Hiface in Hiface'. injection Hiface' as <-.
      apply dispatched_bind, Hgo. exact Hready. }
  destruct op as [credentials options | credentials options | options
                 | login_policy add remove options];
    cbn [handle callback_of interface_present entry_points_ready] in Hpresent |- *.
  - destruct Hpresent as [iface Hiface].
    unfold handle_join. destruct (hostname_not_set (gethostname env)).
    + left. exists true. eexists. split; [step_m; reflexivity | reflexivity].
    + apply (Hpairs true iface), Hiface.
  - destruct Hpresent as [iface Hiface]. unfold handle_leave.
    destruct (g_variant_lookup_s options REALM_DBUS_OPTION_COMPUTER_OU).
    + left. exists true. eexists. split; [step_m; reflexivity | reflexivity].
    + apply (Hpairs false iface), Hiface.
  - destruct Hpresent as [iface Hiface]. unfold handle_deconfigure.
    apply (Hpairs false iface), Hiface.
  - destruct w as [holder stopped existing waiting calls0].
    unfold handle_change_login_policy, dispatched, finish_of.
    destruct (scan_policies _ _ _) as [[policy policies_set]|].
    2:{ left. exists true. eexists. split; [step_m; reflexivity | reflexivity]. }
    destruct (1 <? policies_set); step_m.
    { left. exists true. eexists. split; [reflexivity | reflexivity]. }
    destruct holder; step_m.
    { left. exists true. eexists.
      split; [unfold add_events; cbn; flat_trace; reflexivity | reflexivity]. }
    right. split; [reflexivity |].
    intros [[entry Hentry] [finish Hfinish]].
    rewrite Hentry, Hfinish. step_m.
    eexists _, _, _; split;
      [ unfold add_events, with_lock, with_pending; cbn; flat_trace; reflexivity
      | repeat split; first [ reflexivity | eexists; reflexivity ] ].
Qed.

Lemma entry_points_ready_present (op : Operation) (self : RealmKerberos) :
  entry_points_ready op self -> interface_present op self.
Proof.
  destruct op; cbn; first [ intros (iface & Hiface & _); exists iface; exact Hiface
                          | intros _; exact I ].
Qed.

(** X3: while the daemon lock is held, a ChangeLoginPolicy call on any
    realm object, and a Join, Leave or Deconfigure call on an object that
    has the membership interface, only adds calls to the trace: it makes
    exactly one reply (Busy at the latest), never takes or releases the
    lock, never reaches a back-end, and leaves the holder and the pending
    completions as they are. The interface is needed: Deconfigure is
    connected on every realm object, and on one without the interface it
    follows a NULL pointer, with no reply, as soon as the credential it
    builds has parsed. *)
Theorem single_flight `{Constants} :
  forall (env : Env) (op : Operation) (self : RealmKerberos) (invocation : Invocation)
         (w : World),
    is_Some (current_invocation w) ->
    (interface_present op self ->
     exists b calls,
       handle env op self invocation w = Some (b, add_events w calls)
       /\ List.length (List.filter is_reply calls) = 1%nat
       /\ List.filter is_unlock calls = []
       /\ List.filter is_lock_taken calls = []
       /\ List.filter is_dispatch calls = [])
    /\ (forall options cred,
          op = OpDeconfigure options ->
          REALM_KERBEROS_MEMBERSHIP_GET_IFACE self = None ->
          credential_parse env deconfigure_credential = inr cred ->
          handle env op self invocation w = None).
Proof.
  intros env op self invocation w [holder Hheld]. split.
  - intros Hpresent.
    destruct (handle_cases env op self invocation w Hpresent)
      as [(b & calls & Hrun & Hcalls) | [Hfree _]]; [| congruence].
    exists b, calls. split; [exact Hrun |].
    unfold refusal in Hcalls. apply andb_true_iff in Hcalls as [Hone Hnone].
    split; [apply Nat.eqb_eq, Hone |].
    clear Hrun Hone. induction calls as [|e rest IH]; [repeat split |].
    cbn [forallb] in Hnone. apply andb_true_iff in Hnone as [He Hrest].
    apply andb_true_iff in He as [He Hdispatch].
    apply andb_true_iff in He as [Hunlock Htaken].
    apply negb_true_iff in Hdispatch, Hunlock, Htaken.
    destruct (IH Hrest) as (IHu & IHt & IHd).
    cbn [List.filter]. rewrite Hdispatch, Hunlock, Htaken. repeat split; assumption.
  - intros options cred -> Hnone Hparse. cbn [handle].
    unfold handle_deconfigure, join_or_leave. rewrite Hnone.
    cbn [andb orb negb]. step_m. rewrite Hparse. reflexivity.
Qed.

Lemma single_flight_witness :
  exists b calls,
    handle (H := realmd_constants) sample_env (OpChangeLoginPolicy "any" [] [] [])
      plain_realm 7%nat (mkWorld (Some 3%nat) [] ∅ [] []) =
    Some (b, add_events (mkWorld (Some 3%nat) [] ∅ [] []) calls)
    /\ List.length (List.filter is_reply calls) = 1%nat
    /\ List.filter is_unlock calls = []
    /\ List.filter is_lock_taken calls = []
    /\ List.filter is_dispatch calls = [].
Proof.
  apply (proj1 (single_flight (H := realmd_constants) sample_env
                  (OpChangeLoginPolicy "any" [] [] []) plain_realm
                  7%nat (mkWorld (Some 3%nat) [] ∅ [] []) (ex_intro _ 3%nat eq_refl))).
  exact I.
Defined.

Lemma refusal_counts (calls : list Event) :
  refusal calls = true ->
  List.length (List.filter is_reply calls) = 1%nat
  /\ List.filter is_unlock calls = []
  /\ existsb is_lock_taken calls = false.
Proof.
  unfold refusal. intros Hcalls. apply andb_true_iff in Hcalls as [Hone Hnone].
  split; [apply Nat.eqb_eq, Hone |].
  clear Hone. induction calls as [|e rest IH]; [split; reflexivity |].
  cbn [forallb] in Hnone. apply andb_true_iff in Hnone as [He Hrest].
  apply andb_true_iff in He as [He _]. apply andb_true_iff in He as [Hunlock Htaken].
  apply negb_true_iff in Hunlock, Htaken. destruct (IH Hrest) as [IHu IHt].
  cbn [List.filter existsb]. rewrite Hunlock, Htaken, IHt. split; [exact IHu | reflexivity].
Qed.

(** X4: on a realm object that has the entry points the call uses (for
    Join, Leave and Deconfigure the membership interface, with the finish
    function of the direction when the function that starts it is there;
    for ChangeLoginPolicy both logins entry points), every call, followed
    through its completions, is answered exactly once and leaves nothing
    pending. A call that took the lock unlocks exactly once, as the very
    next call after its reply, and ends with the lock free; a call that did
    not take the lock makes no unlock and leaves the lock holder as it
    found it. *)
Theorem answered_exactly_once `{Constants} :
  forall (env : Env) (op : Operation) (self : RealmKerberos) (invocation : Invocation)
         (w : World) (first second : GAsyncResult) (rest : list GAsyncResult),
    entry_points_ready op self ->
    pending w = [] ->
    exists w' calls,
      run env op self invocation (first :: second :: rest) w = Some (tt, w')
      /\ trace w' = trace w ++ calls
      /\ List.length (List.filter is_reply calls) = 1%nat
      /\ pending w' = []
      /\ (existsb is_lock_taken calls = true ->
          current_invocation w' = None
          /\ replied_then_unlocked invocation calls
          /\ List.length (List.filter is_unlock calls) = 1%nat)
      /\ (existsb is_lock_taken calls = false ->
          List.filter is_unlock calls = []
          /\ current_invocation w' = current_invocation w).
Proof.
  intros env op self invocation w first second rest Hready Hidle. unfold run.
  destruct (handle_cases env op self invocation w (entry_points_ready_present op self Hready))
    as [(b & calls & Hrun & Hcalls) | [Hfree Hgo]].
  - destruct (refusal_counts calls Hcalls) as (Hone & Hunlock & Htaken).
    exists (add_events w calls), calls. split; [| split; [| split; [| split; [| split]]]].
    + unfold mbind, M_bind. rewrite Hrun. apply drain_idle. exact Hidle.
    + reflexivity.
    + exact Hone.
    + exact Hidle.
    + rewrite Htaken. discriminate.
    + intros _. split; [exact Hunlock | reflexivity].
  - destruct (Hgo Hready)
      as (b & calls & closure & Hrun & Htaken & Hquiet & Hinv & Hself & Hfinish).
    rewrite Hidle in Hrun. cbn [app] in Hrun.
    destruct (locked_call_completes env self invocation (callback_of op) closure
                (with_pending (with_lock (add_events w calls) (Some invocation))
                   [(callback_of op, closure)])
                first second eq_refl Hinv Hself Hfinish) as (said & Hsaid & Hshape).
    assert (Hcalls : replied_then_unlocked invocation (calls ++ said))
      by (apply replied_then_unlocked_after; assumption).
    eexists _, (calls ++ said). split; [| split; [| split; [| split; [| split]]]].
    + unfold mbind, M_bind in Hsaid |- *. rewrite Hrun. cbn [drain].
      unfold mbind, M_bind.
      destruct (complete env first _) as [[u wa]|]; [| discriminate Hsaid].
      rewrite Hsaid. apply drain_idle. reflexivity.
    + cbn. rewrite app_assoc. reflexivity.
    + apply (replied_then_unlocked_once _ _ Hcalls).
    + reflexivity.
    + intros _. split; [reflexivity |]. split; [exact Hcalls |].
      apply (replied_then_unlocked_once _ _ Hcalls).
    + rewrite existsb_app, Htaken. discriminate.
Qed.

Lemma answered_exactly_once_witness :
  exists w' calls,
    run (H := realmd_constants) sample_env (OpJoin password_wire []) sample_realm 7%nat
      [BackendResult true None; CommandResult 0 None] idle_world = Some (tt, w')
    /\ trace w' = trace idle_world ++ calls
    /\ List.length (List.filter is_reply calls) = 1%nat
    /\ pending w' = []
    /\ (existsb is_lock_taken calls = true ->
        current_invocation w' = None
        /\ replied_then_unlocked 7%nat calls
        /\ List.length (List.filter is_unlock calls) = 1%nat)
    /\ (existsb is_lock_taken calls = false ->
        List.filter is_unlock calls = []
        /\ current_invocation w' = current_invocation idle_world).
Proof.
  apply (answered_exactly_once (H := realmd_constants) sample_env (OpJoin password_wire [])
           sample_realm 7%nat idle_world (BackendResult true None) (CommandResult 0 None) []).
  - exists sample_iface. split; [reflexivity |]. intros _. eexists. reflexivity.
  - reflexivity.
Defined.

(** ** The host name test *)

Lemma guchar_inj (a b : ascii) : guchar a = guchar b -> a = b.
Proof.
  unfold guchar. intros Heq. apply Nat2Z.inj in Heq.
  rewrite <- (ascii_nat_embedding a), <- (ascii_nat_embedding b), Heq. reflexivity.
Qed.

Lemma guchar_nul (a : ascii) : Ascii.eqb a zero = false -> guchar a <> 0.
Proof.
  intros Hnot Hzero. apply Ascii.eqb_neq in Hnot. apply Hnot.
  apply guchar_inj. rewrite Hzero. reflexivity.
Qed.

Lemma g_ascii_strcasecmp_zero (s1 s2 : string) :
  no_nul s1 = true -> no_nul s2 = true ->
  (g_ascii_strcasecmp s1 s2 = 0 <-> ascii_lower s1 = ascii_lower s2).
Proof.
  revert s2. induction s1 as [|a s1 IH]; intros [|b s2]; cbn; intros H1 H2.
  - split; reflexivity.
  - apply andb_true_iff in H2 as [Hb _]. apply negb_true_iff in Hb.
    pose proof (guchar_nul b Hb). split; [lia | discriminate].
  - apply andb_true_iff in H1 as [Ha _]. apply negb_true_iff in Ha.
    pose proof (guchar_nul a Ha). split; [lia | discriminate].
  - apply andb_true_iff in H1 as [_ H1]. apply andb_true_iff in H2 as [_ H2].
    destruct (Z.eqb_spec (guchar (g_ascii_tolower a)) (guchar (g_ascii_tolower b)))
      as [Heq | Hne]; cbn [negb].
    + apply guchar_inj in Heq. rewrite Heq, (IH s2 H1 H2).
      split; [intros ->; reflexivity | intros [= ->]; reflexivity].
    + split; [lia | intros [= Heq _]; rewrite Heq in Hne; contradiction].
Qed.

Lemma g_ascii_strncasecmp_prefix (p s : string) :
  no_nul s = true -> no_nul p = true -> ascii_lower p = p ->
  (g_ascii_strncasecmp s p (String.length p) = 0
   <-> exists rest, ascii_lower s = (p +:+ rest)%string).
Proof.
  revert s. induction p as [|b p IH]; intros s Hs Hp Hlow.
  - cbn. split; [intros _; exists (ascii_lower s); reflexivity | reflexivity].
  - cbn in Hp, Hlow. apply andb_true_iff in Hp as [Hb Hp]. apply negb_true_iff in Hb.
    injection Hlow as Hb_low Hp_low.
    destruct s as [|a s]; cbn.
    + pose proof (guchar_nul b Hb). split; [lia | intros [rest Hrest]; discriminate].
    + cbn in Hs. apply andb_true_iff in Hs as [_ Hs]. rewrite Hb_low.
      destruct (Z.eqb_spec (guchar (g_ascii_tolower a)) (guchar b)) as [Heq | Hne];
        cbn [negb].
      * apply guchar_inj in Heq. rewrite Heq, (IH s Hs Hp Hp_low).
        split; intros [rest Hrest]; exists rest.
        -- rewrite Hrest. reflexivity.
        -- injection Hrest as Hrest. exact Hrest.
      * split; [lia |]. intros [rest Hrest]. injection Hrest as Heq _.
        rewrite Heq in Hne. contradiction.
Qed.

(** X5: handle_join takes the host name for unset exactly when gethostname
    fails or the name, with its ASCII capitals lowered, is localhost or
    starts with localhost. (the test ignores letter case); every other host
    name passes. *)
Theorem hostname_check_exact :
  hostname_not_set None = true
  /\ forall (hostname : string),
       no_nul hostname = true ->
       (hostname_not_set (Some hostname) = true
        <-> ascii_lower hostname = "localhost"
            \/ exists rest, ascii_lower hostname = ("localhost." +:+ rest)%string).
Proof.
  split; [reflexivity |]. intros hostname Hc. unfold hostname_not_set.
  rewrite orb_true_iff, !Z.eqb_eq.
  rewrite (g_ascii_strcasecmp_zero hostname "localhost" Hc eq_refl).
  rewrite (g_ascii_strncasecmp_prefix "localhost." hostname Hc eq_refl eq_refl).
  reflexivity.
Qed.

Lemma hostname_check_exact_witness :
  hostname_not_set (Some "LocalHost.LocalDomain") = true
  <-> ascii_lower "LocalHost.LocalDomain" = "localhost"
      \/ exists rest, ascii_lower "LocalHost.LocalDomain" = ("localhost." +:+ rest)%string.
Proof.
  apply (proj2 hostname_check_exact "LocalHost.LocalDomain"). reflexivity.
Defined.

(** ** Login policies and their names *)

Lemma append_cons_assoc (current : string) (c : ascii) (rest : string) :
  ((current +:+ String c EmptyString) +:+ rest)%string = (current +:+ String c rest)%string.
Proof.
  induction current as [|a current IH]; [reflexivity |].
  change (String a ((current +:+ String c EmptyString) +:+ rest)%string
          = String a (current +:+ String c rest)%string).
  f_equal. exact IH.
Qed.

Lemma append_empty (s : string) : (s +:+ EmptyString)%string = s.
Proof.
  induction s as [|a s IH]; [reflexivity |].
  change (String a (s +:+ EmptyString)%string = String a s). f_equal. exact IH.
Qed.

Lemma strsplit_from_free (delimiters s current : string) :
  free_of delimiters s = true ->
  strsplit_from delimiters s current = [(current +:+ s)%string].
Proof.
  revert current. induction s as [|c s IH]; intros current Hfree; cbn [strsplit_from].
  - rewrite append_empty. reflexivity.
  - cbn [free_of] in Hfree. apply andb_true_iff in Hfree as [Hc Hfree].
    apply negb_true_iff in Hc. rewrite Hc, (IH _ Hfree), append_cons_assoc. reflexivity.
Qed.

Lemma g_strsplit_set_single (s delimiters : string) :
  s <> EmptyString -> free_of delimiters s = true -> g_strsplit_set s delimiters = [s].
Proof.
  intros Hfull Hfree. unfold g_strsplit_set.
  destruct s as [|c s]; [contradiction |]. apply (strsplit_from_free _ _ EmptyString Hfree).
Qed.

Section PolicyNames.

Context `{Constants}.
Hypothesis Hnames : policy_names_distinct.

Lemma policy_of_token_to_string (policy : RealmKerberosLoginPolicy) :
  policy <> REALM_KERBEROS_POLICY_NOT_SET ->
  policy_of_token (realm_kerberos_login_policy_to_string policy) = policy
  /\ is_policy_name (realm_kerberos_login_policy_to_string policy)
  /\ policy_name_ok (realm_kerberos_login_policy_to_string policy).
Proof.
  destruct Hnames as (Hany & Hrealm & Hpermitted & Hdeny & Hdistinct).
  pose proof (NoDup_cons_1_1 _ _ Hdistinct) as Ha.
  pose proof (NoDup_cons_1_2 _ _ Hdistinct) as Hdistinct1.
  pose proof (NoDup_cons_1_1 _ _ Hdistinct1) as Hr.
  pose proof (NoDup_cons_1_2 _ _ Hdistinct1) as Hdistinct2.
  pose proof (NoDup_cons_1_1 _ _ Hdistinct2) as Hp.
  repeat rewrite not_elem_of_cons in Ha.
  repeat rewrite not_elem_of_cons in Hr.
  repeat rewrite not_elem_of_cons in Hp.
  destruct Ha as (Har & Hap & Had & _). destruct Hr as (Hrp & Hrd & _).
  destruct Hp as (Hpd & _).
  intros Hset. unfold policy_of_token, is_policy_name, g_str_equal.
  destruct policy; [contradiction | | | |]; cbn [realm_kerberos_login_policy_to_string].
  - rewrite String.eqb_refl. tauto.
  - rewrite (proj2 (String.eqb_neq _ _)) by congruence. rewrite String.eqb_refl. tauto.
  - rewrite (proj2 (String.eqb_neq REALM_DBUS_LOGIN_POLICY_PERMITTED
                      REALM_DBUS_LOGIN_POLICY_ANY)) by congruence.
    rewrite (proj2 (String.eqb_neq REALM_DBUS_LOGIN_POLICY_PERMITTED
                      REALM_DBUS_LOGIN_POLICY_REALM)) by congruence.
    rewrite String.eqb_refl. tauto.
  - rewrite (proj2 (String.eqb_neq REALM_DBUS_LOGIN_POLICY_DENY
                      REALM_DBUS_LOGIN_POLICY_ANY)) by congruence.
    rewrite (proj2 (String.eqb_neq REALM_DBUS_LOGIN_POLICY_DENY
                      REALM_DBUS_LOGIN_POLICY_REALM)) by congruence.
    rewrite (proj2 (String.eqb_neq REALM_DBUS_LOGIN_POLICY_DENY
                      REALM_DBUS_LOGIN_POLICY_PERMITTED)) by congruence.
    rewrite String.eqb_refl. tauto.
Qed.

Lemma scan_policies_to_string (policy : RealmKerberosLoginPolicy) :
  exists policies_set,
    scan_policies
      (g_strsplit_set (realm_kerberos_login_policy_to_string policy) comma_space_tab)
      REALM_KERBEROS_POLICY_NOT_SET 0 = Some (policy, policies_set)
    /\ (1 <? policies_set) = false.
Proof.
  assert (Hcase : policy = REALM_KERBEROS_POLICY_NOT_SET
                  \/ policy <> REALM_KERBEROS_POLICY_NOT_SET)
    by (destruct policy; [left; reflexivity | right; discriminate ..]).
  destruct Hcase as [-> | Hset].
  - exists 0. split; reflexivity.
  - destruct (policy_of_token_to_string policy Hset) as (Hpolicy & Hname & Hfull & Hfree).
    rewrite (g_strsplit_set_single _ _ Hfull Hfree).
    rewrite (scan_policies_name _ [] _ _ Hname), Hpolicy.
    exists 1. split; reflexivity.
Qed.

End PolicyNames.

(** X6: the name realm_kerberos_login_policy_to_string gives a policy is
    read back as that policy: when the four names are non-empty, free of
    commas, spaces and tabs, and pairwise different, ChangeLoginPolicy called
    with the name of any of the five policy values (the empty string for
    the policy that is not set) finds the lock free and hands exactly that
    policy to logins_async. *)
Theorem login_policy_round_trip `{Constants} :
  policy_names_distinct ->
  forall (policy : RealmKerberosLoginPolicy) (self : RealmKerberos)
         (invocation : Invocation) (add remove : list string) (options : GVariantDict)
         (w : World) (entry : AsyncEntry),
    current_invocation w = None ->
    logins_async (REALM_KERBEROS_GET_CLASS self) = Some entry ->
    handle_change_login_policy self invocation
      (realm_kerberos_login_policy_to_string policy) add remove options w =
    Some (true,
      with_pending
        (with_lock
           (add_events w [EvLock invocation true;
                          EvLoginsAsync entry invocation policy add remove])
           (Some invocation))
        (pending w ++ [(CB_on_logins_complete, method_closure_new self invocation)])).
Proof.
  intros Hnames policy self invocation add remove options w entry Hfree Hentry.
  unfold handle_change_login_policy.
  destruct (scan_policies_to_string Hnames policy) as (policies_set & -> & ->).
  step_m. rewrite Hfree. step_m. rewrite Hentry. step_m. flat_trace. reflexivity.
Qed.

Lemma realmd_policy_names_distinct : policy_names_distinct (H := realmd_constants).
Proof.
  unfold policy_names_distinct, policy_name_ok. cbn.
  repeat split; try discriminate.
  repeat constructor; rewrite ?not_elem_of_cons; repeat split;
    try discriminate; apply not_elem_of_nil.
Defined.

Lemma login_policy_round_trip_witness :
  handle_change_login_policy (H := realmd_constants) sample_realm 7%nat
    (realm_kerberos_login_policy_to_string (H := realmd_constants)
       REALM_KERBEROS_ALLOW_PERMITTED_LOGINS)
    ["alice"] [] [] idle_world =
  Some (true, mkWorld (Some 7%nat) [] ∅
    [(CB_on_logins_complete, method_closure_new sample_realm 7%nat)]
    [EvLock 7%nat true;
     EvLoginsAsync (async_entry "sample_logins_async") 7%nat
       REALM_KERBEROS_ALLOW_PERMITTED_LOGINS ["alice"] []]).
Proof.
  apply (login_policy_round_trip (H := realmd_constants) realmd_policy_names_distinct
           REALM_KERBEROS_ALLOW_PERMITTED_LOGINS sample_realm 7%nat ["alice"] [] []
           idle_world (async_entry "sample_logins_async") eq_refl eq_refl).
Defined.

(** ** More on the ticket acquisition *)

Lemma strchr_append (a b : string) (c : ascii) :
  strchr (a +:+ b)%string c = strchr a c || strchr b c.
Proof.
  induction a as [|x a IH]; [reflexivity |].
  change (Ascii.eqb x c || strchr (a +:+ b)%string c
          = Ascii.eqb x c || strchr a c || strchr b c).
  rewrite IH, orb_assoc. reflexivity.
Qed.

Lemma count_enctypes_spec (array : list Z) :
  forall n,
    exists counted rest,
      array = counted ++ rest
      /\ Forall (fun enctype => enctype <> 0) counted
      /\ (rest = [] \/ exists beyond, rest = 0 :: beyond)
      /\ count_enctypes array n = n + Z.of_nat (List.length counted).
Proof.
  induction array as [|enctype array IH]; intros n.
  - exists [], []. repeat split; [constructor | left; reflexivity | cbn; lia].
  - cbn [count_enctypes]. destruct (Z.eqb_spec enctype 0) as [-> | Hne].
    + exists [], (0 :: array).
      repeat split; [constructor | right; eexists; reflexivity | cbn; lia].
    + destruct (IH (n + 1)) as (counted & rest & -> & Hall & Hrest & Hcount).
      exists (enctype :: counted), rest.
      repeat split; [constructor; assumption | exact Hrest |].
      rewrite Hcount. cbn [List.length]. lia.
Qed.

(** X7: what realm_kerberos_kinit_ccache_async records for the worker. The
    principal always names a realm: it contains an at sign, begins with the
    login name, is the login name itself exactly when that has an at sign,
    and qualifying it a second time changes nothing. Of the encryption
    types given, those before the first zero are recorded, the end of the
    list standing for the zero that ends the array: the count is their
    number, the copy holds exactly them, each is nonzero, and no copy is
    kept when there are none or no array was given. *)
Theorem kinit_principal_qualified :
  forall (self : RealmKerberos) (name : string) (password : list ascii)
         (enctypes : option (list Z)) (invocation : Invocation),
    let kinit :=
      op_res (realm_kerberos_kinit_ccache_async self name password enctypes invocation) in
    strchr (kinit_principal kinit) "@" = true
    /\ (exists suffix, kinit_principal kinit = (name +:+ suffix)%string)
    /\ (kinit_principal kinit = name <-> strchr name "@" = true)
    /\ kinit_principal
         (op_res (realm_kerberos_kinit_ccache_async self (kinit_principal kinit) password
                    enctypes invocation)) = kinit_principal kinit
    /\ match enctypes with
       | Some array =>
           exists counted rest,
             array = counted ++ rest
             /\ Forall (fun enctype => enctype <> 0) counted
             /\ (rest = [] \/ exists beyond, rest = 0 :: beyond)
             /\ kinit_n_enctypes kinit = Z.of_nat (List.length counted)
             /\ kinit_enctypes kinit =
                match counted with
                | [] => None
                | _ :: _ => Some counted
                end
       | None => kinit_n_enctypes kinit = 0 /\ kinit_enctypes kinit = None
       end.
Proof.
  intros self name password enctypes invocation kinit. subst kinit.
  unfold realm_kerberos_kinit_ccache_async.
  cbn [op_res kinit_principal kinit_n_enctypes kinit_enctypes].
  assert (Hqualified :
            strchr (if negb (strchr name "@")
                    then (name +:+ "@" +:+
                          default "(null)" (realm_kerberos_get_realm_name self))%string
                    else name) "@" = true).
  { destruct (strchr name "@") eqn:Hat; cbn [negb]; [exact Hat |].
    rewrite strchr_append, strchr_append, orb_true_iff. right. reflexivity. }
  split; [exact Hqualified |]. split; [| split; [| split]].
  - destruct (strchr name "@"); cbn [negb].
    + exists EmptyString. rewrite append_empty. reflexivity.
    + eexists. reflexivity.
  - split.
    + intros Hsame. rewrite Hsame in Hqualified. exact Hqualified.
    + intros Hat. rewrite Hat. reflexivity.
  - rewrite Hqualified. reflexivity.
  - destruct enctypes as [array|]; [| split; reflexivity].
    destruct (count_enctypes_spec array 0) as (counted & rest & -> & Hall & Hrest & Hcount).
    exists counted, rest. split; [reflexivity |]. split; [exact Hall |].
    split; [exact Hrest |]. rewrite Hcount, Z.add_0_l. split; [reflexivity |].
    unfold g_memdup. destruct counted as [|first counted]; [reflexivity |].
    destruct (Z.eqb_spec (Z.of_nat (List.length (first :: counted))) 0) as [Hzero | _];
      [cbn [List.length] in Hzero; lia |].
    rewrite Nat2Z.id, take_app_length. reflexivity.
Qed.

(** X8: an acquisition, from the worker to the release of its result,
    changes at most one file name: after a failure no path is returned and
    no file of that name exists, after a success the returned path is that
    name and the file exists; every other file exists afterwards exactly
    when it existed before, and the lock and the pending completions are
    untouched. *)
Theorem kinit_touches_one_file `{Constants} :
  forall (krb5 : Krb5) (self : RealmKerberos) (name : string) (password : list ascii)
         (enctypes : option (list Z)) (invocation : Invocation) (w : World),
  exists (path : option string) (error : option GError) (touched : option string)
         (w' : World),
    acquire_finish_release krb5
      (realm_kerberos_kinit_ccache_async self name password enctypes invocation) w =
    Some ((path, error), w')
    /\ current_invocation w' = current_invocation w
    /\ pending w' = pending w
    /\ (forall file, touched <> Some file -> (file ∈ files w' <-> file ∈ files w))
    /\ match path with
       | Some file => touched = Some file /\ file ∈ files w' /\ error = None
       | None => is_Some error /\ forall file, touched = Some file -> file ∉ files w'
       end.
Proof.
  intros krb5 self name password enctypes invocation w.
  destruct (kinit_ccache_thread_func_outcome krb5 self name password enctypes invocation w)
    as (async1 & created & Hrun & Htag & Hinv & Hcases).
  unfold acquire_finish_release. unfold mbind at 1. unfold M_bind at 1. rewrite Hrun.
  destruct Hcases as [(Hfailed & (e & Herror & _) & Hcreated) | (Hok & _ & file & Hfile & ->)].
  - unfold mbind at 1. unfold M_bind at 1.
    rewrite (kinit_ccache_finish_failed async1 e _ Htag Hfailed Herror).
    cbn [snd fst]. unfold g_simple_async_result_finalize, kinit_closure_free. cbn [op_res].
    destruct (kinit_ccache_file (op_res async1)) as [named|] eqn:Hnamed;
      cbn [realm_credential_ccache_delete_and_free]; unfold_m; cbn.
    + eexists None, _, (Some named), _. split; [reflexivity |]. cbn.
      split; [reflexivity |]. split; [reflexivity |]. split.
      * intros file Hother. rewrite elem_of_difference, elem_of_union, elem_of_singleton.
        split.
        -- intros [[Hin | Hin] _]; [| exact Hin].
           specialize (Hcreated file Hin). congruence.
        -- intros Hin. split; [right; exact Hin | congruence].
      * split; [eexists; reflexivity |]. intros file [= <-].
        apply not_elem_of_difference. right. apply elem_of_singleton. reflexivity.
    + eexists None, _, None, _. split; [reflexivity |]. cbn.
      split; [reflexivity |]. split; [reflexivity |]. split.
      * intros file _. rewrite elem_of_union. split; [| right; assumption].
        intros [Hin | Hin]; [| exact Hin]. specialize (Hcreated file Hin). discriminate.
      * split; [eexists; reflexivity | discriminate].
  - unfold mbind at 1. unfold M_bind at 1.
    rewrite (kinit_ccache_finish_succeeded async1 _ Htag Hok), Hfile.
    cbn [snd fst]. unfold g_simple_async_result_finalize, kinit_closure_free. cbn.
    unfold_m. eexists (Some file), None, (Some file), _. split; [reflexivity |]. cbn.
    split; [reflexivity |]. split; [reflexivity |]. split.
    + intros other Hother. rewrite elem_of_union, elem_of_singleton.
      split; [intros [-> | Hin]; [contradiction | exact Hin] | right; assumption].
    + split; [reflexivity |]. split; [| reflexivity].
      apply elem_of_union. left. apply elem_of_singleton. reflexivity.
Qed.

(** ** What reaches the back-end *)

Ltac no_dispatch :=
  eexists; split; [cbn; flat_trace; reflexivity |];
  intros e Hin Hdispatch; cbn in Hin;
  repeat match goal with
         | Hor : _ \/ _ |- _ => destruct Hor as [<- | Hor]
         | Hfalse : False |- _ => destruct Hfalse
         end;
  discriminate Hdispatch.

Lemma join_or_leave_dispatch (env : Env) (self : RealmKerberos) (credential : GVariant)
    (flags : RealmKerberosFlags) (options : GVariantDict) (invocation : Invocation)
    (join : bool) (w w' : World) :
  join_or_leave env self credential flags options invocation join w = Some (tt, w') ->
  exists calls,
    trace w' = trace w ++ calls
    /\ forall e, In e calls -> is_dispatch e = true ->
       exists iface entry cred,
         REALM_KERBEROS_MEMBERSHIP_GET_IFACE self = Some iface
         /\ (if join then join_async iface else leave_async iface) = Some entry
         /\ credential_parse env credential = inr cred
         /\ is_credential_supported iface cred join = None
         /\ current_invocation w = None
         /\ current_invocation w' = Some invocation
         /\ e = (if join then EvJoinAsync entry cred flags options invocation
                 else EvLeaveAsync entry cred flags options invocation)
         /\ pending w' =
            pending w ++ [(if join then CB_on_enroll_complete else CB_on_unenroll_complete,
                           mkMethodClosure self invocation (Some cred))].
Proof.
  destruct w as [holder stopped existing waiting calls0].
  unfold join_or_leave.
  destruct (REALM_KERBEROS_MEMBERSHIP_GET_IFACE self) as [iface|] eqn:Hiface.
  - destruct join.
    + destruct (join_async iface) as [entry|] eqn:Hentry; cbn [is_null andb orb negb];
        step_m; [| intros [= <-]; no_dispatch].
      destruct (credential_parse env credential) as [error | cred] eqn:Hparse; step_m;
        [intros [= <-]; no_dispatch |].
      destruct (is_credential_supported iface cred true) eqn:Hsupported; step_m;
        [intros [= <-]; no_dispatch |].
      destruct holder; step_m; [intros [= <-]; no_dispatch |].
      destruct (join_finish iface); step_m; [| intros [= <-]; no_dispatch].
      intros [= <-]. eexists; split; [cbn; flat_trace; reflexivity |].
      intros e Hin Hdispatch; cbn in Hin.
      destruct Hin as [<- | [<- | [<- | []]]]; try discriminate Hdispatch.
      exists iface, entry, cred. repeat split; assumption || reflexivity.
    + destruct (leave_async iface) as [entry|] eqn:Hentry; cbn [is_null andb orb negb];
        step_m; [| intros [= <-]; no_dispatch].
      destruct (credential_parse env credential) as [error | cred] eqn:Hparse; step_m;
        [intros [= <-]; no_dispatch |].
      destruct (is_credential_supported iface cred false) eqn:Hsupported; step_m;
        [intros [= <-]; no_dispatch |].
      destruct holder; step_m; [intros [= <-]; no_dispatch |].
      destruct (leave_finish iface); step_m; [| intros [= <-]; no_dispatch].
      intros [= <-]. eexists; split; [cbn; flat_trace; reflexivity |].
      intros e Hin Hdispatch; cbn in Hin.
      destruct Hin as [<- | [<- | [<- | []]]]; try discriminate Hdispatch.
      exists iface, entry, cred. repeat split; assumption || reflexivity.
  - rewrite !andb_false_r. cbn [orb]. step_m.
    destruct (credential_parse env credential) as [error | cred]; step_m;
      [intros [= <-]; no_dispatch | discriminate].
Qed.

(** X9: handle_join calls the back-end only when everything is in place.
    Whenever a call of handle_join reaches a back-end entry point, it is the
    realm's join entry point and never the leave one; the host name passed
    the test; the credential handed over is the one the parser made of the
    caller's value and its type is among the supported ones; the options are
    the caller's, unchanged; the flags are the assume-packages flag exactly
    when the options carry that boolean as true, and zero otherwise; the
    lock was free before and is held by this invocation after; and the
    completion callback queued is on_enroll_complete with a closure owning
    that credential. *)
Theorem join_backend_call_guarded `{Constants} :
  forall (env : Env) (self : RealmKerberos) (invocation : Invocation)
         (credentials : GVariant) (options : GVariantDict) (w w' : World) (handled : bool),
    handle_join env self invocation credentials options w = Some (handled, w') ->
    exists calls,
      trace w' = trace w ++ calls
      /\ forall e, In e calls -> is_dispatch e = true ->
         exists iface entry cred,
           REALM_KERBEROS_MEMBERSHIP_GET_IFACE self = Some iface
           /\ join_async iface = Some entry
           /\ hostname_not_set (gethostname env) = false
           /\ credential_parse env credentials = inr cred
           /\ is_credential_supported iface cred true = None
           /\ current_invocation w = None
           /\ current_invocation w' = Some invocation
           /\ e = EvJoinAsync entry cred
                    (match g_variant_lookup_b options REALM_DBUS_OPTION_ASSUME_PACKAGES with
                     | Some true => REALM_KERBEROS_ASSUME_PACKAGES
                     | _ => 0
                     end) options invocation
           /\ pending w' =
              pending w ++ [(CB_on_enroll_complete,
                             mkMethodClosure self invocation (Some cred))].
Proof.
  intros env self invocation credentials options w w' handled. unfold handle_join.
  destruct (hostname_not_set (gethostname env)) eqn:Hhost.
  - destruct w as [holder stopped existing waiting calls0]. step_m.
    intros [= <- <-]. no_dispatch.
  - unfold mbind at 1. unfold M_bind at 1.
    destruct (join_or_leave env self credentials _ options invocation true w)
      as [[[] w1]|] eqn:Hrun; [| discriminate].
    unfold mret, M_ret. intros [= <- <-].
    destruct (join_or_leave_dispatch _ _ _ _ _ _ _ _ _ Hrun) as (calls & Htrace & Hcalls).
    exists calls. split; [exact Htrace |].
    intros e Hin Hdispatch.
    destruct (Hcalls e Hin Hdispatch)
      as (iface & entry & cred & Hiface & Hentry & Hparse & Hsupported & Hfree & Hheld
          & He & Hpending).
    exists iface, entry, cred. repeat split; assumption.
Qed.

Lemma join_backend_call_guarded_witness :
  exists w' calls,
    handle_join (H := realmd_constants) sample_env sample_realm 7%nat password_wire
      [("assume-packages", GV_boolean true)] idle_world = Some (true, w')
    /\ trace w' = trace idle_world ++ calls
    /\ forall e, In e calls -> is_dispatch e = true ->
       exists iface entry cred,
         REALM_KERBEROS_MEMBERSHIP_GET_IFACE sample_realm = Some iface
         /\ join_async iface = Some entry
         /\ hostname_not_set (gethostname sample_env) = false
         /\ credential_parse sample_env password_wire = inr cred
         /\ is_credential_supported iface cred true = None
         /\ current_invocation idle_world = None
         /\ current_invocation w' = Some 7%nat
         /\ e = EvJoinAsync entry cred
                  (match g_variant_lookup_b [("assume-packages", GV_boolean true)]
                           (REALM_DBUS_OPTION_ASSUME_PACKAGES (Constants := realmd_constants))
                   with
                   | Some true =>
                       REALM_KERBEROS_ASSUME_PACKAGES (Constants := realmd_constants)
                   | _ => 0
                   end) [("assume-packages", GV_boolean true)] 7%nat
         /\ pending w' =
            pending idle_world ++ [(CB_on_enroll_complete,
                                    mkMethodClosure sample_realm 7%nat (Some cred))].
Proof.
  eexists. 
  assert (Hrun : handle_join (H := realmd_constants) sample_env sample_realm 7%nat
                   password_wire [("assume-packages", GV_boolean true)] idle_world
                 = Some (true, _)) by (vm_compute; reflexivity).
  destruct (join_backend_call_guarded sample_env sample_realm 7%nat password_wire
              [("assume-packages", GV_boolean true)] idle_world _ true Hrun)
    as (calls & Htrace & Hcalls).
  exists calls. split; [exact Hrun |]. split; [exact Htrace | exact Hcalls].
Defined.

(** ** The password prompter *)

Section PrompterFacts.

Variables PASSWORD CANTREADPWD : Z.
Variable password : list ascii.
Variable types : list Z.

Lemma bytes_prompter_step (rest i : nat) (prompts : list krb5_prompt) (t : Z)
    (p : krb5_prompt) :
  types !! i = Some t ->
  prompts !! i = Some p ->
  room_honest p ->
  (t = PASSWORD
   /\ krb5_data_length (reply p) < Z.of_nat (List.length password)
   /\ bytes_prompter_loop PASSWORD CANTREADPWD password types (S rest) i prompts =
      Some (CANTREADPWD, prompts))
  \/ (exists p1,
        bytes_prompter_loop PASSWORD CANTREADPWD password types (S rest) i prompts =
        bytes_prompter_loop PASSWORD CANTREADPWD password types rest (S i)
          (<[i := p1]> prompts)
        /\ prompt_answered PASSWORD password t p p1
        /\ room_honest p1
        /\ (t = PASSWORD -> Z.of_nat (List.length password) <= krb5_data_length (reply p))).
Proof.
  intros Ht Hp Hroom. unfold room_honest in Hroom.
  cbn [bytes_prompter_loop]. rewrite Ht, Hp.
  unfold prompt_answered.
  destruct (Z.eqb_spec t PASSWORD) as [Heq | Hne].
  - destruct (Z.gtb_spec (Z.of_nat (List.length password)) (krb5_data_length (reply p)))
      as [Hlong | Hfits].
    + left. split; [exact Heq |]. split; [exact Hlong | reflexivity].
    + right. unfold memcpy.
      assert (Hle : (List.length password <= List.length (krb5_data_data (reply p)))%nat)
        by lia.
      apply Nat.leb_le in Hle as Hleb. rewrite Hleb.
      eexists. split; [reflexivity |]. cbn [prompt hidden reply krb5_data_length
                                            krb5_data_data].
      rewrite firstn_all.
      split; [| split].
      * split; [reflexivity |]. split; [reflexivity |].
        split; [rewrite length_app, length_drop; lia |].
        split; [reflexivity |].
        split; [apply take_app_length | apply drop_app_length].
      * unfold room_honest. cbn. rewrite length_app, length_drop. lia.
      * intros _. lia.
  - right. eexists. split; [reflexivity |]. cbn.
    split; [| split].
    + repeat split; reflexivity.
    + unfold room_honest. cbn. lia.
    + intros Heq. contradiction.
Qed.

Lemma bytes_prompter_loop_spec (remaining : nat) :
  forall (i : nat) (prompts : list krb5_prompt),
    (i + remaining <= List.length types)%nat ->
    (i + remaining <= List.length prompts)%nat ->
    Forall room_honest prompts ->
    exists code prompts',
      bytes_prompter_loop PASSWORD CANTREADPWD password types remaining i prompts =
      Some (code, prompts')
      /\ List.length prompts' = List.length prompts
      /\ (forall j, (j < i \/ i + remaining <= j)%nat -> prompts' !! j = prompts !! j)
      /\ ((code = 0
           /\ forall j t p, (i <= j < i + remaining)%nat ->
                types !! j = Some t -> prompts !! j = Some p ->
                (t = PASSWORD ->
                 Z.of_nat (List.length password) <= krb5_data_length (reply p))
                /\ exists p', prompts' !! j = Some p'
                              /\ prompt_answered PASSWORD password t p p')
          \/ (code = CANTREADPWD
              /\ exists j p, (i <= j < i + remaining)%nat
                   /\ types !! j = Some PASSWORD /\ prompts !! j = Some p
                   /\ krb5_data_length (reply p) < Z.of_nat (List.length password))).
Proof.
  induction remaining as [|rest IH]; intros i prompts Htypes Hprompts Hroom.
  - exists 0, prompts. split; [reflexivity |]. split; [reflexivity |].
    split; [reflexivity |]. left. split; [reflexivity |]. intros j t p Hj. lia.
  - destruct (lookup_lt_is_Some_2 types i) as [t Ht]; [lia |].
    destruct (lookup_lt_is_Some_2 prompts i) as [p Hp]; [lia |].
    assert (Hp_room : room_honest p)
      by exact (proj1 (Forall_lookup room_honest prompts) Hroom i p Hp).
    destruct (bytes_prompter_step rest i prompts t p Ht Hp Hp_room)
      as [(Heq & Hlong & Hrun) | (p1 & Hrun & Hanswered & Hp1_room & Hfits)].
    + exists CANTREADPWD, prompts. split; [exact Hrun |]. split; [reflexivity |].
      split; [reflexivity |]. right. split; [reflexivity |].
      exists i, p. subst t. repeat split; [lia | lia | exact Ht | exact Hp | exact Hlong].
    + destruct (IH (S i) (<[i := p1]> prompts)) as (code & prompts' & Hrest & Hlen & Hout & Hin).
      * lia.
      * rewrite length_insert. lia.
      * apply Forall_insert; assumption.
      * rewrite length_insert in Hlen.
        exists code, prompts'. split; [rewrite Hrun; exact Hrest |].
        split; [exact Hlen |]. split.
        { intros j Hj. rewrite Hout by lia. apply list_lookup_insert_ne. lia. }
        destruct Hin as [(-> & Hall) | (-> & j & q & Hj & Htype & Hq & Hlong)].
        -- left. split; [reflexivity |]. intros j t' q Hj Ht' Hq.
           destruct (decide (j = i)) as [-> | Hother].
           ++ rewrite Ht in Ht'. injection Ht' as <-.
              rewrite Hp in Hq. injection Hq as <-.
              split; [exact Hfits |]. exists p1. split; [| exact Hanswered].
              rewrite Hout by lia. apply list_lookup_insert_eq. lia.
           ++ apply Hall; [lia | exact Ht' |].
              rewrite list_lookup_insert_ne by lia. exact Hq.
        -- right. split; [reflexivity |]. exists j, q.
           rewrite list_lookup_insert_ne in Hq by lia.
           repeat split; [lia | lia | exact Htype | exact Hq | exact Hlong].
Qed.

End PrompterFacts.

(** X10: bytes_prompter answers the prompts in place and never writes past
    a buffer. With as many prompt types and prompts as the count says, and
    every reply buffer as large as its length field says, the prompter
    returns; its code is zero exactly when the password fits the room of
    every password prompt among those counted, and KRB5_LIBOS_CANTREADPWD
    otherwise. On zero every counted prompt has been answered: a password
    prompt holds the password at the front of its buffer, the rest of the
    buffer untouched, and the password's length as reply length; any other
    prompt has reply length zero and its buffer untouched. Prompts beyond
    the count are never touched, and no buffer changes its size. *)
Theorem bytes_prompter_answers :
  forall (PASSWORD CANTREADPWD : Z) (password : list ascii) (types : list Z)
         (num_prompts : Z) (prompts : list krb5_prompt),
    CANTREADPWD <> 0 ->
    (Z.to_nat num_prompts <= List.length types)%nat ->
    (Z.to_nat num_prompts <= List.length prompts)%nat ->
    Forall room_honest prompts ->
    exists code prompts',
      bytes_prompter PASSWORD CANTREADPWD (Some types) password num_prompts prompts =
      Some (code, prompts')
      /\ List.length prompts' = List.length prompts
      /\ (forall j, (Z.to_nat num_prompts <= j)%nat -> prompts' !! j = prompts !! j)
      /\ (code = 0 <->
          forall j p, (j < Z.to_nat num_prompts)%nat ->
            types !! j = Some PASSWORD -> prompts !! j = Some p ->
            Z.of_nat (List.length password) <= krb5_data_length (reply p))
      /\ (code <> 0 -> code = CANTREADPWD)
      /\ (code = 0 ->
          forall j t p, (j < Z.to_nat num_prompts)%nat ->
            types !! j = Some t -> prompts !! j = Some p ->
            exists p', prompts' !! j = Some p'
                       /\ prompt_answered PASSWORD password t p p').
Proof.
  intros PASSWORD CANTREADPWD password types num_prompts prompts Hne Htypes Hprompts Hroom.
  destruct (bytes_prompter_loop_spec PASSWORD CANTREADPWD password types
              (Z.to_nat num_prompts) 0%nat prompts Htypes Hprompts Hroom)
    as (code & prompts' & Hrun & Hlen & Hout & Hin).
  exists code, prompts'. split; [exact Hrun |]. split; [exact Hlen |].
  split; [intros j Hj; apply Hout; lia |].
  destruct Hin as [(-> & Hall) | (-> & j & q & Hj & Htype & Hq & Hlong)].
  - split; [| split].
    + split; [| reflexivity]. intros _ j p Hj Ht Hp.
      apply (Hall j PASSWORD p); [lia | exact Ht | exact Hp | reflexivity].
    + intros Hcode. contradiction.
    + intros _ j t p Hj Ht Hp. apply (Hall j t p); [lia | exact Ht | exact Hp].
  - split; [| split].
    + split; [intros Hzero; contradiction |].
      intros Hfits. specialize (Hfits j q ltac:(lia) Htype Hq). lia.
    + reflexivity.
    + intros Hzero. contradiction.
Qed.

Lemma bytes_prompter_answers_witness :
  exists code prompts',
    bytes_prompter 1 (-1765328254) (Some [1; 2]) (list_ascii_of_string "secret") 2
      sample_prompts = Some (code, prompts')
    /\ List.length prompts' = List.length sample_prompts
    /\ (forall j, (Z.to_nat 2 <= j)%nat -> prompts' !! j = sample_prompts !! j)
    /\ (code = 0 <->
        forall j p, (j < Z.to_nat 2)%nat ->
          [1; 2] !! j = Some 1 -> sample_prompts !! j = Some p ->
          Z.of_nat (List.length (list_ascii_of_string "secret"))
          <= krb5_data_length (reply p))
    /\ (code <> 0 -> code = -1765328254)
    /\ (code = 0 ->
        forall j t p, (j < Z.to_nat 2)%nat ->
          [1; 2] !! j = Some t -> sample_prompts !! j = Some p ->
          exists p', prompts' !! j = Some p'
                     /\ prompt_answered 1 (list_ascii_of_string "secret") t p p').
Proof.
  apply (bytes_prompter_answers 1 (-1765328254) (list_ascii_of_string "secret") [1; 2] 2
           sample_prompts).
  - discriminate.
  - vm_compute. apply le_n.
  - vm_compute. apply le_n.
  - repeat constructor; vm_compute; discriminate.
Defined.

(** ** Discovery data *)

Lemma g_hash_table_ref_spec (h : Heap) (table : GHashTable) :
  (0 < ref_count h table)%nat ->
  exists h',
    g_hash_table_ref table h = Some h'
    /\ pv_discovery h' = pv_discovery h
    /\ notified h' = notified h
    /\ forall u, Z.of_nat (ref_count h' u) = Z.of_nat (ref_count h u) + holds (Some table) u.
Proof.
  unfold ref_count, g_hash_table_ref, holds. intros Hlive.
  destruct (ref_counts h !! table) as [[|n]|] eqn:Hcount; cbn in Hlive; try lia.
  eexists. split; [reflexivity |]. split; [reflexivity |]. split; [reflexivity |].
  intros u. cbn [ref_counts]. case_bool_decide as Hu.
  - injection Hu as <-. rewrite lookup_insert_eq, Hcount. cbn. lia.
  - rewrite lookup_insert_ne by congruence. lia.
Qed.

Lemma g_hash_table_unref_spec (h : Heap) (table : GHashTable) :
  (0 < ref_count h table)%nat ->
  exists h',
    g_hash_table_unref table h = Some h'
    /\ pv_discovery h' = pv_discovery h
    /\ notified h' = notified h
    /\ forall u, Z.of_nat (ref_count h' u) = Z.of_nat (ref_count h u) - holds (Some table) u.
Proof.
  unfold ref_count, g_hash_table_unref, holds. intros Hlive.
  destruct (ref_counts h !! table) as [[|[|n]]|] eqn:Hcount; cbn in Hlive; try lia.
  - eexists. split; [reflexivity |]. split; [reflexivity |]. split; [reflexivity |].
    intros u. cbn [ref_counts]. case_bool_decide as Hu.
    + injection Hu as <-. rewrite lookup_delete_eq, Hcount. reflexivity.
    + rewrite lookup_delete_ne by congruence. lia.
  - eexists. split; [reflexivity |]. split; [reflexivity |]. split; [reflexivity |].
    intros u. cbn [ref_counts]. case_bool_decide as Hu.
    + injection Hu as <-. rewrite lookup_insert_eq, Hcount. cbn. lia.
    + rewrite lookup_insert_ne by congruence. lia.
Qed.

Lemma holds_bounds (holder : option GHashTable) (table : GHashTable) :
  0 <= holds holder table <= 1.
Proof. unfold holds. case_bool_decide; lia. Qed.

Lemma holds_same (table : GHashTable) : holds (Some table) table = 1.
Proof. unfold holds. rewrite bool_decide_eq_true_2; reflexivity. Qed.

Lemma discovery_owned_count (h : Heap) (table : GHashTable) :
  discovery_owned h -> holds (pv_discovery h) table <= Z.of_nat (ref_count h table).
Proof.
  intros Howned. unfold holds. case_bool_decide as Hheld; [| lia].
  specialize (Howned table Hheld). lia.
Qed.

Lemma set_discovery_spec (h : Heap) (discovery : option GHashTable) :
  discovery_owned h ->
  (forall table, discovery = Some table -> (0 < ref_count h table)%nat) ->
  exists h',
    realm_kerberos_set_discovery discovery h = Some h'
    /\ pv_discovery h' = discovery
    /\ notified h' = notified h ++ ["discovery"]
    /\ forall u, Z.of_nat (ref_count h' u) =
                 Z.of_nat (ref_count h u) + holds discovery u - holds (pv_discovery h) u.
Proof.
  intros Howned Hlive. unfold realm_kerberos_set_discovery.
  assert (Hfirst : exists h1,
             match discovery with
             | Some table => g_hash_table_ref table h
             | None => Some h
             end = Some h1
             /\ pv_discovery h1 = pv_discovery h
             /\ notified h1 = notified h
             /\ forall u, Z.of_nat (ref_count h1 u) =
                          Z.of_nat (ref_count h u) + holds discovery u).
  { destruct discovery as [table|].
    - apply g_hash_table_ref_spec, Hlive. reflexivity.
    - exists h. repeat split. intros u. unfold holds.
      rewrite bool_decide_eq_false_2 by discriminate. lia. }
  destruct Hfirst as (h1 & -> & Hpv1 & Hnote1 & Hcount1). cbn [mbind option_bind].
  assert (Hsecond : exists h2,
             match pv_discovery h1 with
             | Some old => g_hash_table_unref old h1
             | None => Some h1
             end = Some h2
             /\ notified h2 = notified h1
             /\ forall u, Z.of_nat (ref_count h2 u) =
                          Z.of_nat (ref_count h1 u) - holds (pv_discovery h) u).
  { rewrite Hpv1. destruct (pv_discovery h) as [old|] eqn:Hold.
    - destruct (g_hash_table_unref_spec h1 old) as (h2 & Hrun & _ & Hnote2 & Hcount2).
      + specialize (Hcount1 old). specialize (Howned old Hold).
        pose proof (holds_bounds discovery old). lia.
      + exists h2. repeat split; assumption.
    - exists h1. repeat split. intros u. unfold holds.
      rewrite bool_decide_eq_false_2 by discriminate. lia. }
  destruct Hsecond as (h2 & -> & Hnote2 & Hcount2). cbn [mbind option_bind].
  unfold g_object_notify. eexists. split; [reflexivity |]. cbn [pv_discovery notified].
  split; [reflexivity |]. split; [rewrite Hnote2, Hnote1; reflexivity |].
  intros u. unfold ref_count in Hcount1, Hcount2 |- *. cbn [ref_counts].
  rewrite Hcount2, Hcount1. reflexivity.
Qed.

(** X11: realm_kerberos_set_discovery keeps the reference counts in
    balance and is safe when handed the table the realm already holds.
    From a state where the realm's table is alive, and given a table that
    is alive (or none), the call is defined; afterwards the realm points to
    the given table, which is alive; one notification of the discovery
    property was sent; and the count of every table has changed by exactly
    one more for the new holder and one less for the old: in particular
    setting the table already held changes no count. *)
Theorem set_discovery_references :
  forall (h : Heap) (discovery : option GHashTable),
    discovery_owned h ->
    (forall table, discovery = Some table -> (0 < ref_count h table)%nat) ->
    exists h',
      realm_kerberos_set_discovery discovery h = Some h'
      /\ realm_kerberos_get_discovery h' = discovery
      /\ discovery_owned h'
      /\ notified h' = notified h ++ ["discovery"]
      /\ (forall u, Z.of_nat (ref_count h' u) =
                    Z.of_nat (ref_count h u) + holds discovery u - holds (pv_discovery h) u)
      /\ (discovery = pv_discovery h -> forall u, ref_count h' u = ref_count h u).
Proof.
  intros h discovery Howned Hlive.
  destruct (set_discovery_spec h discovery Howned Hlive)
    as (h' & Hrun & Hpv & Hnote & Hcount).
  exists h'. split; [exact Hrun |]. split; [exact Hpv |].
  split; [| split; [exact Hnote | split; [exact Hcount |]]].
  - intros table Htable. rewrite Hpv in Htable. specialize (Hlive table Htable).
    specialize (Hcount table). rewrite Htable, holds_same in Hcount.
    pose proof (holds_bounds (pv_discovery h) table). lia.
  - intros -> u. specialize (Hcount u). lia.
Qed.

Lemma set_discovery_references_witness :
  exists h',
    realm_kerberos_set_discovery (Some 5%positive)
      (mkHeap {[ 5%positive := 1%nat ]} (Some 5%positive) []) = Some h'
    /\ realm_kerberos_get_discovery h' = Some 5%positive
    /\ discovery_owned h'
    /\ notified h' = [] ++ ["discovery"]
    /\ (forall u, Z.of_nat (ref_count h' u) =
                  Z.of_nat (ref_count (mkHeap {[ 5%positive := 1%nat ]} (Some 5%positive) []) u)
                  + holds (Some 5%positive) u - holds (Some 5%positive) u)
    /\ (Some 5%positive = Some 5%positive ->
        forall u, ref_count h' u =
                  ref_count (mkHeap {[ 5%positive := 1%nat ]} (Some 5%positive) []) u).
Proof.
  apply (set_discovery_references
           (mkHeap {[ 5%positive := 1%nat ]} (Some 5%positive) []) (Some 5%positive)).
  - intros table [= <-]. vm_compute. apply le_n.
  - intros table [= <-]. vm_compute. apply le_n.
Defined.

(** X12: realm_samba_provider_discover_finish passes the discovery table
    on without leaking or over-releasing it. Given the reference that came
    with the table, beside the realm's own when the realm already holds it,
    the function is defined and leaves the realm's table alive. The
    priority is zero exactly when no name was discovered or no realm
    object was obtained, and then the realms array and the realm's table
    are as before; otherwise it is 100 or 50 as the provider is the default
    or not, the array has the realm's object path with the realm interface
    as its only element, and the realm points to the discovered table. In
    every case with a table, each count ends as it began less the
    reference consumed, plus what the realm now holds, less what it held
    before. *)
Theorem discover_finish_references :
  forall (interface : string) (ad : option GError + string * GHashTable)
         (realm : string -> option string) (is_default : bool)
         (realms_before : option (list (string * string))) (h : Heap),
    discovery_owned h ->
    (forall name table, ad = inr (name, table) ->
       holds (pv_discovery h) table < Z.of_nat (ref_count h table)) ->
    exists d h',
      realm_samba_provider_discover_finish interface ad realm is_default realms_before h =
      Some (d, h')
      /\ discovery_owned h'
      /\ (priority d = 0 <->
          (exists error, ad = inl error)
          \/ exists name table, ad = inr (name, table) /\ realm name = None)
      /\ (priority d = 0 -> realms d = realms_before /\ pv_discovery h' = pv_discovery h)
      /\ (priority d <> 0 ->
          exists name table object_path,
            ad = inr (name, table) /\ realm name = Some object_path
            /\ priority d = (if is_default then 100 else 50)
            /\ realms d = Some [(object_path, interface)]
            /\ discover_error d = None
            /\ realm_kerberos_get_discovery h' = Some table)
      /\ (forall name table u, ad = inr (name, table) ->
            Z.of_nat (ref_count h' u) =
            Z.of_nat (ref_count h u) - holds (Some table) u
            + holds (pv_discovery h') u - holds (pv_discovery h) u).
Proof.
  intros interface ad realm is_default realms_before h Howned Hmine.
  unfold realm_samba_provider_discover_finish.
  destruct ad as [error | [name table]].
  - exists (mkDiscovered 0 realms_before error), h. split; [reflexivity |].
    split; [exact Howned |]. cbn [priority realms].
    split; [split; [intros _; left; eexists; reflexivity | reflexivity] |].
    split; [intros _; split; reflexivity |].
    split; [intros Hne; contradiction | intros ? ? ? [=]].
  - specialize (Hmine name table eq_refl).
    pose proof (holds_bounds (pv_discovery h) table) as Hbound.
    destruct (realm name) as [object_path|] eqn:Hrealm.
    + destruct (set_discovery_spec h (Some table) Howned)
        as (h1 & -> & Hpv1 & _ & Hcount1); [intros ? [= <-]; lia |].
      cbn [mbind option_bind].
      destruct (g_hash_table_unref_spec h1 table) as (h2 & -> & Hpv2 & _ & Hcount2).
      { specialize (Hcount1 table). rewrite holds_same in Hcount1. lia. }
      cbn [mbind option_bind].
      eexists _, h2. split; [reflexivity |]. cbn [priority realms discover_error].
      split; [| split; [| split; [| split; [| ]]]].
      * intros u Hu. rewrite Hpv2, Hpv1 in Hu. injection Hu as <-.
        specialize (Hcount2 table). specialize (Hcount1 table).
        rewrite holds_same in Hcount1, Hcount2. lia.
      * split; [destruct is_default; discriminate |].
        intros [[error [=]] | (n & t & [= <- <-] & Hnone)]. congruence.
      * intros Hzero. destruct is_default; discriminate Hzero.
      * intros _. exists name, table, object_path.
        unfold realm_kerberos_get_discovery. rewrite Hpv2, Hpv1.
        repeat split; assumption || reflexivity.
      * intros n t u [= <- <-]. rewrite Hcount2, Hcount1, Hpv2, Hpv1. lia.
    + destruct (g_hash_table_unref_spec h table) as (h1 & -> & Hpv1 & _ & Hcount1);
        [lia |].
      cbn [mbind option_bind].
      eexists _, h1. split; [reflexivity |]. cbn [priority realms discover_error].
      split; [| split; [| split; [| split; [| ]]]].
      * intros u Hu. rewrite Hpv1 in Hu. specialize (Hcount1 u).
        specialize (Howned u Hu). unfold holds in Hcount1, Hmine.
        case_bool_decide as Hsame.
        -- injection Hsame as <-. rewrite bool_decide_eq_true_2 in Hmine by exact Hu. lia.
        -- lia.
      * split; [| reflexivity]. intros _. right. exists name, table. split; [reflexivity |].
        exact Hrealm.
      * intros _. split; [reflexivity | exact Hpv1].
      * intros Hne. contradiction.
      * intros n t u [= <- <-]. rewrite Hcount1, Hpv1. lia.
Qed.

Lemma discover_finish_references_witness :
  exists d h',
    realm_samba_provider_discover_finish "org.freedesktop.realmd.Realm"
      (inr ("EXAMPLE.COM", 5%positive))
      (fun name => Some ("/org/freedesktop/realmd/Samba/" +:+ name)%string) true None
      (mkHeap {[ 5%positive := 1%nat ]} None []) = Some (d, h')
    /\ discovery_owned h'
    /\ (priority d = 0 <->
        (exists error, @inr (option GError) _ ("EXAMPLE.COM", 5%positive) = inl error)
        \/ exists name table,
             @inr (option GError) _ ("EXAMPLE.COM", 5%positive) = inr (name, table)
             /\ Some ("/org/freedesktop/realmd/Samba/" +:+ name)%string = None)
    /\ (priority d = 0 -> realms d = None /\ pv_discovery h' = None)
    /\ (priority d <> 0 ->
        exists name table object_path,
          @inr (option GError) _ ("EXAMPLE.COM", 5%positive) = inr (name, table)
          /\ Some ("/org/freedesktop/realmd/Samba/" +:+ name)%string = Some object_path
          /\ priority d = 100
          /\ realms d = Some [(object_path, "org.freedesktop.realmd.Realm")]
          /\ discover_error d = None
          /\ realm_kerberos_get_discovery h' = Some table)
    /\ (forall name table u,
          @inr (option GError) _ ("EXAMPLE.COM", 5%positive) = inr (name, table) ->
          Z.of_nat (ref_count h' u) =
          Z.of_nat (ref_count (mkHeap {[ 5%positive := 1%nat ]} None []) u)
          - holds (Some table) u + holds (pv_discovery h') u - holds None u).
Proof.
  apply (discover_finish_references "org.freedesktop.realmd.Realm"
           (inr ("EXAMPLE.COM", 5%positive))
           (fun name => Some ("/org/freedesktop/realmd/Samba/" +:+ name)%string) true None
           (mkHeap {[ 5%positive := 1%nat ]} None [])).
  - intros table [=].
  - intros name table [= <- <-]. vm_compute. reflexivity.
Defined.

(** ** The details of a realm *)

Lemma set_details_loop_pairs (pairs : list (string * string)) :
  forall (tail : list (option string)) (tuples : list GVariant),
    set_details_loop (details_arguments pairs ++ tail) tuples =
    set_details_loop tail
      (tuples ++ map (fun pair => GV_tuple [GV_string (fst pair); GV_string (snd pair)]) pairs).
Proof.
  induction pairs as [|[name value] pairs IH]; intros tail tuples.
  - cbn. rewrite app_nil_r. reflexivity.
  - cbn [details_arguments flat_map app fst snd set_details_loop map].
    change (flat_map _ pairs) with (details_arguments pairs).
    rewrite IH, <- app_assoc. reflexivity.
Qed.

(** X13: realm_kerberos_set_details turns its variable arguments into the
    array of pairs they spell. For any pairs written as name, value, name,
    value and closed by NULL, the details set are exactly those pairs, in
    order, whatever follows the NULL; a NULL in the place of a value makes
    the function return without setting any details, also when pairs came
    before it; and arguments that lack the closing NULL are read past
    their end. *)
Theorem set_details_pairs :
  forall (pairs : list (string * string)) (beyond : list (option string)),
    realm_kerberos_set_details (details_arguments pairs ++ None :: beyond) =
    Some (Some (map (fun pair => GV_tuple [GV_string (fst pair); GV_string (snd pair)])
                  pairs))
    /\ (forall name,
          realm_kerberos_set_details (details_arguments pairs ++ Some name :: None :: beyond)
          = Some None)
    /\ realm_kerberos_set_details (details_arguments pairs) = None.
Proof.
  intros pairs beyond. unfold realm_kerberos_set_details. split; [| split].
  - rewrite set_details_loop_pairs. reflexivity.
  - intros name. rewrite set_details_loop_pairs. reflexivity.
  - rewrite <- (app_nil_r (details_arguments pairs)), set_details_loop_pairs. reflexivity.
Qed.

(** ** Debug flags *)

Section DebugFacts.

Variables PROCESS DIAGNOSTICS : Z.
Variable parse : string -> list (string * Z) -> Z.

Lemma debug_call_keeps_flag (call : DebugCall) (flag : Z) (s : DebugState) :
  ic_debug_flag_is_set flag s = true ->
  ic_debug_flag_is_set flag (debug_call PROCESS DIAGNOSTICS parse call s) = true.
Proof.
  unfold ic_debug_flag_is_set. intros Hset.
  assert (Hor : forall new_flags,
             negb (Z.land flag (Z.lor (current_flags s) new_flags) =? 0) = true).
  { intros new_flags. apply negb_true_iff, Z.eqb_neq.
    apply negb_true_iff, Z.eqb_neq in Hset.
    rewrite Z.land_lor_distr_r. intros Hzero.
    apply Z.lor_eq_0_iff in Hzero as [Hzero _]. contradiction. }
  destruct call as [ic_debug | flags_string | tested message]; cbn [debug_call].
  - unfold ic_debug_init. destruct (initialized_flags s =? 0); [| exact Hset].
    destruct ic_debug as [flags|]; cbn; [apply Hor | exact Hset].
  - destruct flags_string as [flags|]; cbn; [apply Hor | exact Hset].
  - unfold ic_debug_message.
    destruct (negb (Z.land tested (current_flags s) =? 0)); exact Hset.
Qed.

Lemma debug_call_adds (call : DebugCall) (s : DebugState) :
  exists added,
    current_flags (debug_call PROCESS DIAGNOSTICS parse call s) =
    Z.lor (current_flags s) added.
Proof.
  assert (Hsame : exists added, current_flags s = Z.lor (current_flags s) added)
    by (exists 0; rewrite Z.lor_0_r; reflexivity).
  destruct call as [ic_debug | flags_string | tested message]; cbn [debug_call].
  - unfold ic_debug_init. destruct (initialized_flags s =? 0); [| exact Hsame].
    destruct ic_debug as [flags|]; cbn; [eexists; reflexivity | exact Hsame].
  - destruct flags_string as [flags|]; cbn; [eexists; reflexivity | exact Hsame].
  - unfold ic_debug_message.
    destruct (negb (Z.land tested (current_flags s) =? 0)); exact Hsame.
Qed.

End DebugFacts.

(** X14: in a build with debugging, debug flags only accumulate, and the
    environment is read once. From any state, fresh or not, and whatever
    calls of ic_debug_init, ic_debug_set_flags and ic_debug_message follow,
    with whatever strings and whatever the parser makes of them, the flags
    afterwards are the flags before with bits added, so that every flag
    ic_debug_flag_is_set reports as set is still reported as set; and an
    ic_debug_init after the first changes nothing, whatever the environment
    then holds. *)
Theorem debug_flags_accumulate :
  forall (PROCESS DIAGNOSTICS : Z) (parse : string -> list (string * Z) -> Z)
         (calls : list DebugCall) (s : DebugState),
    (exists added,
        current_flags (debug_calls PROCESS DIAGNOSTICS parse calls s) =
        Z.lor (current_flags s) added)
    /\ (forall flag,
          ic_debug_flag_is_set flag s = true ->
          ic_debug_flag_is_set flag (debug_calls PROCESS DIAGNOSTICS parse calls s) = true)
    /\ (forall first second,
          ic_debug_init PROCESS DIAGNOSTICS parse second
            (ic_debug_init PROCESS DIAGNOSTICS parse first s) =
          ic_debug_init PROCESS DIAGNOSTICS parse first s).
Proof.
  intros PROCESS DIAGNOSTICS parse calls s. split; [| split].
  - revert s. unfold debug_calls.
    induction calls as [|call calls IH]; intros s.
    + exists 0. cbn. rewrite Z.lor_0_r. reflexivity.
    + cbn [fold_left].
      destruct (IH (debug_call PROCESS DIAGNOSTICS parse call s)) as [added ->].
      destruct (debug_call_adds PROCESS DIAGNOSTICS parse call s) as [more ->].
      exists (Z.lor more added). rewrite Z.lor_assoc. reflexivity.
  - intros flag. revert s. unfold debug_calls.
    induction calls as [|call calls IH]; intros s Hset; [exact Hset |].
    cbn [fold_left]. apply IH, debug_call_keeps_flag, Hset.
  - intros first second. unfold ic_debug_init.
    destruct (initialized_flags s =? 0) eqn:Hfresh; cbn; rewrite ?Hfresh; reflexivity.
Qed.
